(** * Slot-filling conversation pipeline: a shallow embedding

    The development follows the C++ sources file by file.

    - [Cxx]: the pieces of the C++ runtime the sources lean on: calls that
      may throw, [float] values, [std::random_device] entropy,
      [std::string] helpers and a small [std::regex] matcher.
    - [Composer]: [models/composer.h], [models/composer.cpp]
      ([ComposerCrew], the per-conversation [EntityStateManager]).
    - [Closer]: [models/closer.h], [models/closer.cpp] ([CloserCrew]).
    - [Session]: [controllers/SessionController.h],
      [controllers/advanced_session_controller.cpp] ([ConfigModel], the
      session registry, [SessionController::group_entities]).
    - [Advanced]: [controllers/advanced_session_controller_og.cpp]
      ([AdvancedSessionController]).

    Definitions come first, the theorems about them afterwards. *)

From Stdlib Require Import ZArith PrimFloat SpecFloat FloatOps DecimalString.
From stdpp Require Import gmap strings list fin_maps.
From Equations Require Import Equations.


(** ** The C++ runtime *)
Module Cxx.

(** What a [throw] expression throws, as far as a handler of the sources
    can tell.  Every handler there is [catch (const std::exception&)]: it
    takes an object of a class derived from [std::exception], whose
    payload is only ever printed, and lets anything else through. *)
Inductive thrown : Type :=
| std_exception
| other_object.

(** A call either returns or throws. *)
Inductive outcome (A : Type) : Type :=
| Returns (a : A)
| Throws (e : thrown).
Arguments Returns {A} a.
Arguments Throws {A} e.

(** A method of an object whose state has type [S]: it returns or throws,
    and leaves the object in a new state either way. *)
Definition M (S A : Type) : Type := S → outcome A * S.

#[global] Instance M_ret {S} : MRet (M S) := λ A a s, (Returns a, s).

#[global] Instance M_bind {S} : MBind (M S) := λ A B k m s,
  match m s with
  | (Returns a, s') => k a s'
  | (Throws e, s') => (Throws e, s')
  end.

(** The object itself ([*this]). *)
Definition self {S} : M S S := λ s, (Returns s, s).

(** An assignment to fields of the object. *)
Definition update {S} (f : S → S) : M S unit := λ s, (Returns tt, f s).

(** [try { body } catch (const std::exception&) { handler }]: the handler
    runs for a [std::exception]; any other object leaves the block. *)
Definition try_catch {S A} (body handler : M S A) : M S A := λ s,
  match body s with
  | (Returns a, s') => (Returns a, s')
  | (Throws std_exception, s') => handler s'
  | (Throws other_object, s') => (Throws other_object, s')
  end.

(** [float] is IEEE binary32.  The sources only store and compare such
    values; every binary32 value is a binary64 value and the comparisons
    agree, so they are carried by the kernel's binary64 floats.  The
    literals below are the exact binary32 values of [0.7f], [0.8f], ... *)
Definition f32_0_0  : float := 0%float.
Definition f32_0_5  : float := 0x1p-1%float.
Definition f32_0_6  : float := 0x1.333334p-1%float.
Definition f32_0_7  : float := 0x1.666666p-1%float.
Definition f32_0_8  : float := 0x1.99999ap-1%float.
Definition f32_0_85 : float := 0x1.b33334p-1%float.

(** [std::uniform_int_distribution<>(a, b)] applied to a generator seeded
    with the entropy [rd] that [std::random_device] delivered: some value
    of [a .. b] fixed by the seed.  Every value of the range is reached. *)
Definition uniform_int_distribution (a b : Z) (rd : N) : Z :=
  a + Z.of_N rd mod (b - a + 1).

(** ["\n"] *)
Definition newline : string := String (Ascii.ascii_of_nat 10) EmptyString.

(** [s.empty()] *)
Definition empty (s : string) : bool :=
  match s with
  | EmptyString => true
  | String _ _ => false
  end.

(** [s.find(t) != std::string::npos] *)
Definition contains (s t : string) : bool :=
  match String.index 0 t s with
  | Some _ => true
  | None => false
  end.

(** [std::to_string] of an [int] *)
Definition to_string (n : Z) : string :=
  NilZero.string_of_int (Z.to_int n).

(** *** [std::regex] (ECMAScript grammar, [std::regex_match])

    Only what the phone-number pattern needs: character classes,
    sequence, alternation, bounded repetition and [*]. *)
Inductive regex : Type :=
| Never
| Epsilon
| Class (member : Ascii.ascii → bool)
| Then (r1 r2 : regex)
| Or (r1 r2 : regex)
| Many (r : regex).

Fixpoint accepts_empty (r : regex) : bool :=
  match r with
  | Never => false
  | Epsilon => true
  | Class _ => false
  | Then r1 r2 => accepts_empty r1 && accepts_empty r2
  | Or r1 r2 => accepts_empty r1 || accepts_empty r2
  | Many _ => true
  end.

(** What is left of [r] to match once the character [c] has been read. *)
Fixpoint after (c : Ascii.ascii) (r : regex) : regex :=
  match r with
  | Never => Never
  | Epsilon => Never
  | Class member => if member c then Epsilon else Never
  | Then r1 r2 =>
      if accepts_empty r1
      then Or (Then (after c r1) r2) (after c r2)
      else Then (after c r1) r2
  | Or r1 r2 => Or (after c r1) (after c r2)
  | Many r1 => Then (after c r1) (Many r1)
  end.

(** [std::regex_match(s, r)]: the whole of [s] matches [r]. *)
Fixpoint regex_match (s : string) (r : regex) : bool :=
  match s with
  | EmptyString => accepts_empty r
  | String c s' => regex_match s' (after c r)
  end.

(** A literal character, written as the one-character string holding it. *)
Definition lit (c : string) : regex :=
  match c with
  | String a EmptyString => Class (Ascii.eqb a)
  | _ => Never
  end.

(** [r{n}] *)
Fixpoint times (n : nat) (r : regex) : regex :=
  match n with
  | O => Epsilon
  | S n' => Then r (times n' r)
  end.

(** [\d] in the classic locale: ['0'] .. ['9']. *)
Definition digit : regex :=
  Class (λ c, (48 <=? Ascii.nat_of_ascii c)%nat && (Ascii.nat_of_ascii c <=? 57)%nat).

(** [\s] in the classic locale: space, [\t], [\n], [\v], [\f], [\r]. *)
Definition space : regex :=
  Class (λ c, (Ascii.nat_of_ascii c =? 32)%nat
              || ((9 <=? Ascii.nat_of_ascii c)%nat && (Ascii.nat_of_ascii c <=? 13)%nat)).

End Cxx.
Export Cxx.

(** ** [models/composer.h], [models/composer.cpp] *)
Module Composer.

Record CompositionRequest : Type := {
  missing_entities : list string;
  known_entities : gmap string string;
  conversation_context : string
}.

Record CompositionResult : Type := {
  generated_question : string;
  targeted_entities : list string;
  quality_score : float;
  is_valid : bool;
  generation_method : string
}.

(** [CompositionResult()] *)
Definition CompositionResult_new : CompositionResult :=
  {| generated_question := "";
     targeted_entities := [];
     quality_score := f32_0_0;
     is_valid := false;
     generation_method := "none" |}.

(** The abstract class [LLMInterface]: an object with state [L] and three
    virtual methods, each of which may throw. *)
Class LLMInterface (L : Type) : Type := {
  generateQuestion : CompositionRequest → M L string;
  assessQuestionQuality : string → CompositionRequest → M L float;
  isAvailable : M L bool
}.

(** The fields of [ComposerCrew].  [worker_threads] is the number of
    thread objects held by the vector of that name; the task queue and
    its lock only matter to [composeQuestionAsync]. *)
Record ComposerCrew (L : Type) : Type := {
  llm_interface : option L;
  worker_threads : nat;
  stop_workers : bool;
  quality_threshold : float;
  max_retries : Z;
  num_worker_threads : Z;
  entity_templates : gmap string (list string)
}.
Arguments llm_interface {L} _.
Arguments worker_threads {L} _.
Arguments stop_workers {L} _.
Arguments quality_threshold {L} _.
Arguments max_retries {L} _.
Arguments num_worker_threads {L} _.
Arguments entity_templates {L} _.

(** [ComposerCrew::initializeTemplates] *)
Definition initializeTemplates : gmap string (list string) :=
  <["service_type" :=
      ["What service are you looking for today?";
       "Which service do you need?";
       "What type of appointment would you like to schedule?"] ]>
  (<["time_preference" :=
      ["What time would work best for you?";
       "Do you have a preferred time?";
       "What time would you like to come in?"] ]>
  (<["day_preference" :=
      ["What day would work best for you?";
       "Which day would you prefer for your appointment?";
       "What day are you looking to schedule this?"] ]>
  (<["phone_number" :=
      ["What's the best phone number to reach you at?";
       "Could I get a contact number for you?";
       "What phone number should I use for this appointment?"] ]>
  (<["caller_name" :=
      ["May I have your name, please?";
       "Could you tell me your name?";
       "What name should I put this appointment under?"] ]>
  (<["service_type+time_preference" :=
      ["What service are you looking for and what time would work for you?";
       "Which service do you need and when would you prefer to come in?";
       "What type of appointment do you need and what time works best?"] ]>
  (<["day_preference+time_preference" :=
      ["What day and time would work best for your appointment?";
       "When would you prefer to schedule this? What day and time?";
       "Could you let me know your preferred day and time?"] ]>
  (<["caller_name+phone_number" :=
      ["Great! Can you please tell me your name and phone number?";
       "I'd like to get your name and contact number, please.";
       "Could you provide your name and a phone number where I can reach you?"] ]>
  ∅))))))).

Section Crew.
Context {L : Type} `{LLMInterface L}.

Definition set_llm_interface (this : ComposerCrew L) (llm : option L)
  : ComposerCrew L :=
  {| llm_interface := llm;
     worker_threads := worker_threads this;
     stop_workers := stop_workers this;
     quality_threshold := quality_threshold this;
     max_retries := max_retries this;
     num_worker_threads := num_worker_threads this;
     entity_templates := entity_templates this |}.

(** [ComposerCrew::startWorkers]: one [emplace_back] per loop round. *)
Definition startWorkers (this : ComposerCrew L) : ComposerCrew L :=
  {| llm_interface := llm_interface this;
     worker_threads :=
       (worker_threads this + Z.to_nat (num_worker_threads this))%nat;
     stop_workers := stop_workers this;
     quality_threshold := quality_threshold this;
     max_retries := max_retries this;
     num_worker_threads := num_worker_threads this;
     entity_templates := entity_templates this |}.

(** [ComposerCrew::stopWorkers]: raises the stop flag, joins, clears the
    vector.  Nothing lowers the flag again. *)
Definition stopWorkers (this : ComposerCrew L) : ComposerCrew L :=
  {| llm_interface := llm_interface this;
     worker_threads := 0;
     stop_workers := true;
     quality_threshold := quality_threshold this;
     max_retries := max_retries this;
     num_worker_threads := num_worker_threads this;
     entity_templates := entity_templates this |}.

Definition set_num_worker_threads (this : ComposerCrew L) (n : Z)
  : ComposerCrew L :=
  {| llm_interface := llm_interface this;
     worker_threads := worker_threads this;
     stop_workers := stop_workers this;
     quality_threshold := quality_threshold this;
     max_retries := max_retries this;
     num_worker_threads := n;
     entity_templates := entity_templates this |}.

(** The constructor; [hardware_concurrency] is what
    [std::thread::hardware_concurrency()] answers. *)
Definition ComposerCrew_new (llm : option L) (num_threads : Z)
    (hardware_concurrency : Z) : ComposerCrew L :=
  startWorkers
    {| llm_interface := llm;
       worker_threads := 0;
       stop_workers := false;
       quality_threshold := f32_0_7;
       max_retries := 2;
       num_worker_threads :=
         if (num_threads <=? 0)%Z
         then Z.max 1 (hardware_concurrency ÷ 2)
         else num_threads;
       entity_templates := initializeTemplates |}.

(** [ComposerCrew::adjustThreadCount] *)
Definition adjustThreadCount (this : ComposerCrew L) (new_count : Z)
  : ComposerCrew L :=
  if negb (new_count =? num_worker_threads this)%Z
  then startWorkers (set_num_worker_threads (stopWorkers this) new_count)
  else this.

(** [ComposerCrew::setQualityThreshold], [ComposerCrew::setMaxRetries] *)
Definition setQualityThreshold (this : ComposerCrew L) (threshold : float)
  : ComposerCrew L :=
  {| llm_interface := llm_interface this;
     worker_threads := worker_threads this;
     stop_workers := stop_workers this;
     quality_threshold := threshold;
     max_retries := max_retries this;
     num_worker_threads := num_worker_threads this;
     entity_templates := entity_templates this |}.

Definition setMaxRetries (this : ComposerCrew L) (retries : Z)
  : ComposerCrew L :=
  {| llm_interface := llm_interface this;
     worker_threads := worker_threads this;
     stop_workers := stop_workers this;
     quality_threshold := quality_threshold this;
     max_retries := retries;
     num_worker_threads := num_worker_threads this;
     entity_templates := entity_templates this |}.

(** [ComposerCrew::generateWithLLM], on the generator object.  The local
    [result] is filled in step by step, so what the [catch] block
    returns depends on how far the [try] block got. *)
Definition generateWithLLM (request : CompositionRequest)
  : M L CompositionResult :=
  try_catch
    (question ← generateQuestion request;
     if negb (empty question) then
       try_catch
         (quality ← assessQuestionQuality question request;
          mret {| generated_question := question;
                  targeted_entities := [];
                  quality_score := quality;
                  is_valid := true;
                  generation_method := "llm_primary" |})
         (mret {| generated_question := question;
                  targeted_entities := [];
                  quality_score := f32_0_0;
                  is_valid := false;
                  generation_method := "llm_primary" |})
     else mret CompositionResult_new)
    (mret CompositionResult_new).

(** [ComposerCrew::generateWithTemplate]; [rd] is the entropy drawn from
    [std::random_device] when a variant is picked. *)
Definition generateWithTemplate (this : ComposerCrew L)
    (request : CompositionRequest) (rd : N) : CompositionResult :=
  let template_key :=
    match missing_entities request with
    | [e0; e1] => e0 +:+ "+" +:+ e1
    | [e0] => e0
    | _ => ""
    end in
  let generic :=
    {| generated_question :=
         "Could you please provide some additional information?";
       targeted_entities := [];
       quality_score := f32_0_5;
       is_valid := true;
       generation_method := "template_fallback" |} in
  match entity_templates this !! template_key with
  | Some (v :: vs) =>
      let variants := v :: vs in
      {| generated_question :=
           nth (Z.to_nat
                  (uniform_int_distribution
                     0 (Z.of_nat (length variants) - 1) rd))
               variants "";
         targeted_entities := [];
         quality_score := f32_0_8;
         is_valid := true;
         generation_method := "template" |}
  | Some [] => generic
  | None => generic
  end.

(** The retry loop of [composeQuestion]:
    [for (retry = 0; retry < max_retries; ++retry)], with [rounds] loop
    rounds still to run. *)
Fixpoint retry_loop (rounds : nat) (request : CompositionRequest)
    (result : CompositionResult) : M L CompositionResult :=
  match rounds with
  | O => mret result
  | S rounds' =>
      retry_result ← generateWithLLM request;
      if (quality_score result <? quality_score retry_result)%float
      then mret retry_result (* result = retry_result; break; *)
      else retry_loop rounds' request result
  end.

(** [limited_request] of [composeQuestion] *)
Definition limit (request : CompositionRequest) : CompositionRequest :=
  if (2 <? length (missing_entities request))%nat
  then {| missing_entities := take 2 (missing_entities request);
          known_entities := known_entities request;
          conversation_context := conversation_context request |}
  else request.

(** The block of [composeQuestion] guarded by [llm_interface != nullptr],
    on the generator object. *)
Definition try_llm (this : ComposerCrew L)
    (limited_request : CompositionRequest) : M L CompositionResult :=
  available ← isAvailable;
  if available : bool then
    result ← generateWithLLM limited_request;
    if is_valid result
       && (quality_score result <? quality_threshold this)%float
    then retry_loop (Z.to_nat (max_retries this)) limited_request result
    else mret result
  else mret CompositionResult_new.

(** A method of the generator, called through the [llm_interface]
    pointer, which holds the object [llm]. *)
Definition on_llm {A} (call : M L A) (llm : L) : M (ComposerCrew L) A :=
  λ this,
    let '(answer, llm') := call llm in
    (answer, set_llm_interface this (Some llm')).

(** [ComposerCrew::composeQuestion] *)
Definition composeQuestion (request : CompositionRequest) (rd : N)
  : M (ComposerCrew L) CompositionResult :=
  this ← self;
  let limited_request := limit request in
  result ← match llm_interface this with
           | Some llm => on_llm (try_llm this limited_request) llm
           | None => mret CompositionResult_new
           end;
  let result :=
    if negb (is_valid result)
       || (quality_score result <? quality_threshold this)%float
    then generateWithTemplate this limited_request rd
    else result in
  mret {| generated_question := generated_question result;
          targeted_entities := missing_entities limited_request;
          quality_score := quality_score result;
          is_valid := is_valid result;
          generation_method := generation_method result |}.

(** The task [ComposerCrew::composeQuestionAsync] queues for a worker:
    what the task hands to its promise. *)
Definition composition_task (request : CompositionRequest) (rd : N)
  : M (ComposerCrew L) CompositionResult :=
  try_catch
    (composeQuestion request rd)
    (mret {| generated_question :=
               "I apologize, but I'm having trouble generating a question right now.";
             targeted_entities := [];
             quality_score := f32_0_0;
             is_valid := false;
             generation_method := "none" |}).

(** [ComposerCrew::areEntitiesRelated] *)
Definition related_pairs : list (string * string) :=
  [("caller_name", "phone_number");
   ("day_preference", "time_preference");
   ("service_type", "time_preference");
   ("service_type", "day_preference")].

Definition areEntitiesRelated (entity1 entity2 : string) : bool :=
  existsb
    (λ pair, (String.eqb entity1 pair.1 && String.eqb entity2 pair.2)
             || (String.eqb entity1 pair.2 && String.eqb entity2 pair.1))
    related_pairs.

End Crew.

(** The inner [for] loop of [groupMissingEntities]: the iterator [it]
    stands between the elements already [scanned] and the [rest]; the
    result is the finished [group] and what is left of [remaining]. *)
Fixpoint pair_loop (seed : string) (scanned rest : list string)
  : list string * list string :=
  match rest with
  | [] => ([seed], scanned)
  | entity :: rest' =>
      if areEntitiesRelated seed entity
      then ([seed; entity], scanned ++ rest') (* push_back; erase(it); break *)
      else pair_loop seed (scanned ++ [entity]) rest'
  end.

Lemma pair_loop_length seed scanned rest :
  length (pair_loop seed scanned rest).2 ≤ length scanned + length rest.
Proof.
  revert scanned; induction rest as [|e rest IH]; intros scanned; simpl.
  - lia.
  - destruct (areEntitiesRelated seed e); simpl.
    + rewrite length_app. lia.
    + specialize (IH (scanned ++ [e])). rewrite length_app in IH. simpl in IH. lia.
Qed.

(** [ComposerCrew::groupMissingEntities]: the [while (!remaining.empty())]
    loop, on [remaining]. *)
Equations? groupMissingEntities (missing_entities : list string)
  : list (list string) by wf (length missing_entities) lt :=
  groupMissingEntities [] := [];
  groupMissingEntities (first :: remaining) :=
    (pair_loop first [] remaining).1
      :: groupMissingEntities (pair_loop first [] remaining).2.
Proof.
  pose proof (pair_loop_length first [] remaining) as Hlen.
  simpl in Hlen. lia.
Qed.

(** *** [EntityStateManager] (the slot values of one conversation)

    Every method takes [state_mutex] for its whole body, so each is one
    atomic step on the two fields. *)
Record EntityStateManager : Type := {
  entity_values : gmap string string;
  required_entities : list string
}.

(** [EntityStateManager::EntityStateManager] *)
Definition EntityStateManager_new : EntityStateManager :=
  {| entity_values := ∅;
     required_entities :=
       ["caller_name"; "phone_number"; "day_preference";
        "time_preference"; "service_type"] |}.

(** [EntityStateManager::updateEntity]:
    [entity_values[entity_name] = value;] *)
Definition updateEntity (this : EntityStateManager)
    (entity_name value : string) : EntityStateManager :=
  {| entity_values := <[entity_name := value]> (entity_values this);
     required_entities := required_entities this |}.

(** [EntityStateManager::getEntity] *)
Definition getEntity (this : EntityStateManager) (entity_name : string)
  : string :=
  match entity_values this !! entity_name with
  | Some value => value
  | None => ""
  end.

(** [EntityStateManager::hasEntity] *)
Definition hasEntity (this : EntityStateManager) (entity_name : string)
  : bool :=
  match entity_values this !! entity_name with
  | Some value => negb (empty value)
  | None => false
  end.

(** [EntityStateManager::getMissingEntities] *)
Definition getMissingEntities (this : EntityStateManager) : list string :=
  List.filter
    (λ entity,
       match entity_values this !! entity with
       | Some value => empty value
       | None => true
       end)
    (required_entities this).

(** [EntityStateManager::getKnownEntities]: the loop copies every pair
    whose value is not empty into a fresh map. *)
Definition getKnownEntities (this : EntityStateManager)
  : gmap string string :=
  map_fold
    (λ first second known,
       if negb (empty second) then <[first := second]> known else known)
    ∅ (entity_values this).

(** [EntityStateManager::isComplete] *)
Definition isComplete (this : EntityStateManager) : bool :=
  match getMissingEntities this with
  | [] => true
  | _ :: _ => false
  end.

(** [EntityStateManager::updateMultipleEntities]: one assignment
    [entity_values[pair.first] = pair.second] per pair of [updates], in
    the iteration order of the map. *)
Definition updateMultipleEntities (this : EntityStateManager)
    (updates : gmap string string) : EntityStateManager :=
  {| entity_values :=
       map_fold (λ first second values, <[first := second]> values)
                (entity_values this) updates;
     required_entities := required_entities this |}.

(** [EntityStateManager::reset] *)
Definition reset (this : EntityStateManager) : EntityStateManager :=
  {| entity_values := ∅;
     required_entities := required_entities this |}.

(** [EntityStateManager::getRequiredEntities],
    [EntityStateManager::setRequiredEntities] *)
Definition getRequiredEntities (this : EntityStateManager) : list string :=
  required_entities this.

Definition setRequiredEntities (this : EntityStateManager)
    (entities : list string) : EntityStateManager :=
  {| entity_values := entity_values this;
     required_entities := entities |}.

End Composer.


(** ** [models/closer.h], [models/closer.cpp] *)
Module Closer.
Import Composer.

Record ClosingRequest : Type := {
  complete_entities : gmap string string;
  conversation_summary : string;
  business_context : string
}.

Record ClosingResult : Type := {
  closing_message : string;
  appointment_summary : string;
  confirmation_details : string;
  needs_followup : bool;
  next_steps : list string;
  confidence_score : float;
  is_valid : bool;
  generation_method : string
}.

(** [ClosingResult()] *)
Definition ClosingResult_new : ClosingResult :=
  {| closing_message := "";
     appointment_summary := "";
     confirmation_details := "";
     needs_followup := false;
     next_steps := [];
     confidence_score := f32_0_0;
     is_valid := false;
     generation_method := "none" |}.

Record CloserCrew (L : Type) : Type := {
  llm_interface : option L;
  confidence_threshold : float;
  max_retries : Z;
  active_tasks : Z;
  closing_templates : gmap string (list string);
  confirmation_templates : gmap string (list string)
}.
Arguments llm_interface {L} _.
Arguments confidence_threshold {L} _.
Arguments max_retries {L} _.
Arguments active_tasks {L} _.
Arguments closing_templates {L} _.
Arguments confirmation_templates {L} _.

(** [CloserCrew::initializeTemplates] *)
Definition initial_closing_templates : gmap string (list string) :=
  <["needs_confirmation" :=
      ["I have all the details for your appointment. Let me just confirm everything with you:";
       "Perfect! Before we finalize, let me read back your appointment details:";
       "Excellent! Here's what I have scheduled for you - please confirm:"] ]>
  (<["standard" :=
      ["Perfect! I have all the information I need. Let me confirm your appointment:";
       "Excellent! I've got everything we need to schedule your appointment:";
       "Great! Here's a summary of your appointment request:"] ]>
  ∅).

Definition initial_confirmation_templates : gmap string (list string) :=
  <["needs_callback" :=
      ["Thanks for the information! Someone from our team will call you back to confirm availability.";
       "We have your details! Our scheduler will contact you to confirm your appointment time.";
       "Perfect! We'll have someone call you back to verify the appointment details."] ]>
  (<["with_followup" :=
      ["Your appointment request has been received! We'll call you back within 24 hours to confirm the exact time.";
       "Thank you! We have your request and will contact you shortly to finalize the details.";
       "Got it! We'll reach out to you soon to confirm your preferred time slot."] ]>
  (<["standard" :=
      ["Your appointment has been confirmed! You'll receive a confirmation text shortly.";
       "All set! We've confirmed your appointment and will send you a reminder.";
       "Perfect! Your appointment is confirmed. You should receive a confirmation message soon."] ]>
  ∅)).

(** [entities[key]] on the local copy [entities] of the request's map: the
    stored value, or the empty string that [operator[]] inserts. *)
Definition subscript (entities : gmap string string) (key : string)
  : string :=
  match entities !! key with
  | Some value => value
  | None => ""
  end.

(** [CloserCrew::needsFollowup] *)
Definition needsFollowup (request : ClosingRequest) : bool :=
  let entities := complete_entities request in
  match entities !! "time_preference" with
  | None => true
  | Some time =>
      contains time "morning" || contains time "afternoon"
      || contains time "evening"
  end.

(** [CloserCrew::isValidPhoneNumber]: the pattern
    [\d{3}-\d{3}-\d{4}|\(\d{3}\)\s*\d{3}-\d{4}|\d{10}] *)
Definition phone_regex : regex :=
  Or (Then (times 3 digit)
        (Then (lit "-") (Then (times 3 digit) (Then (lit "-") (times 4 digit)))))
     (Or (Then (lit "(")
            (Then (times 3 digit)
               (Then (lit ")")
                  (Then (Many space)
                     (Then (times 3 digit) (Then (lit "-") (times 4 digit)))))))
         (times 10 digit)).

Definition isValidPhoneNumber (phone : string) : bool :=
  regex_match phone phone_regex.

(** [CloserCrew::isValidName] *)
Definition isValidName (name : string) : bool :=
  negb (empty name)
  && (2 <=? String.length name)%nat && (String.length name <=? 50)%nat.

(** [CloserCrew::isValidTimeSlot] *)
Definition valid_days : list string :=
  ["Monday"; "Tuesday"; "Wednesday"; "Thursday"; "Friday"; "Saturday";
   "Sunday"].

Definition isValidTimeSlot (day time : string) : bool :=
  let valid_day := existsb (String.eqb day) valid_days in
  let valid_time := negb (empty time) in
  valid_day && valid_time.

(** [CloserCrew::validateAppointmentData] *)
Definition required : list string :=
  ["caller_name"; "phone_number"; "day_preference"; "time_preference";
   "service_type"].

Definition validateAppointmentData (request : ClosingRequest) : bool :=
  let entities := complete_entities request in
  if existsb
       (λ field,
          match entities !! field with
          | None => true
          | Some value => empty value
          end)
       required
  then false
  else if negb (isValidName (subscript entities "caller_name")) then false
  else if negb (isValidPhoneNumber (subscript entities "phone_number"))
  then false
  else if negb (isValidTimeSlot (subscript entities "day_preference")
                                (subscript entities "time_preference"))
  then false
  else true.

(** [CloserCrew::generateConfirmationNumber] *)
Definition generateConfirmationNumber (rd : N) : string :=
  "APT" +:+ to_string (uniform_int_distribution 100000 999999 rd).

(** [CloserCrew::formatAppointmentDetails] *)
Definition formatAppointmentDetails (request : ClosingRequest) : string :=
  let entities := complete_entities request in
  "📋 Appointment Details:" +:+ newline
  +:+ "   Name: " +:+ subscript entities "caller_name" +:+ newline
  +:+ "   Phone: " +:+ subscript entities "phone_number" +:+ newline
  +:+ "   Service: " +:+ subscript entities "service_type" +:+ newline
  +:+ "   Day: " +:+ subscript entities "day_preference" +:+ newline
  +:+ "   Time: " +:+ subscript entities "time_preference".

(** [CloserCrew::generateNextSteps] *)
Definition generateNextSteps (request : ClosingRequest) : list string :=
  if needsFollowup request
  then ["Wait for confirmation call within 24 hours";
        "Keep your phone available for our call";
        "Prepare any questions about the service"]
  else ["Watch for confirmation text message";
        "Arrive 10 minutes early for your appointment";
        "Bring valid ID if this is your first visit"].

Section Crew.
Context {L : Type} `{LLMInterface L}.

(** [CloserCrew::CloserCrew] *)
Definition CloserCrew_new (llm : option L) : CloserCrew L :=
  {| llm_interface := llm;
     confidence_threshold := f32_0_8;
     max_retries := 2;
     active_tasks := 0;
     closing_templates := initial_closing_templates;
     confirmation_templates := initial_confirmation_templates |}.

Definition set_llm_interface (this : CloserCrew L) (llm : option L)
  : CloserCrew L :=
  {| llm_interface := llm;
     confidence_threshold := confidence_threshold this;
     max_retries := max_retries this;
     active_tasks := active_tasks this;
     closing_templates := closing_templates this;
     confirmation_templates := confirmation_templates this |}.

Definition on_llm {A} (call : M L A) (llm : L) : M (CloserCrew L) A :=
  λ this,
    let '(answer, llm') := call llm in
    (answer, set_llm_interface this (Some llm')).

(** [CloserCrew::selectClosingTemplate] *)
Definition selectClosingTemplate (this : CloserCrew L)
    (request : ClosingRequest) (rd : N) : string :=
  let template_key :=
    if needsFollowup request then "needs_confirmation" else "standard" in
  match closing_templates this !! template_key with
  | Some (v :: vs) =>
      nth (Z.to_nat
             (uniform_int_distribution
                0 (Z.of_nat (length (v :: vs)) - 1) rd))
          (v :: vs) ""
  | _ => "Thank you for scheduling your appointment!"
  end.

(** [CloserCrew::selectConfirmationTemplate] *)
Definition selectConfirmationTemplate (this : CloserCrew L)
    (request : ClosingRequest) (rd : N) : string :=
  let template_key :=
    if needsFollowup request then "with_followup" else "standard" in
  match confirmation_templates this !! template_key with
  | Some (v :: vs) =>
      nth (Z.to_nat
             (uniform_int_distribution
                0 (Z.of_nat (length (v :: vs)) - 1) rd))
          (v :: vs) ""
  | _ => "We'll be in touch soon!"
  end.

(** [CloserCrew::generateWithLLM], on the generator object; the request
    handed over is [CompositionRequest({}, request.complete_entities)]. *)
Definition generateWithLLM (request : ClosingRequest)
  : M L ClosingResult :=
  let converted :=
    {| missing_entities := [];
       known_entities := complete_entities request;
       conversation_context := "" |} in
  try_catch
    (closing ← generateQuestion converted;
     if negb (empty closing) then
       try_catch
         (confidence ← assessQuestionQuality closing converted;
          mret {| closing_message := closing;
                  appointment_summary := "";
                  confirmation_details := "";
                  needs_followup := false;
                  next_steps := [];
                  confidence_score := confidence;
                  is_valid := true;
                  generation_method := "llm_primary" |})
         (mret {| closing_message := closing;
                  appointment_summary := "";
                  confirmation_details := "";
                  needs_followup := false;
                  next_steps := [];
                  confidence_score := f32_0_0;
                  is_valid := false;
                  generation_method := "llm_primary" |})
     else mret ClosingResult_new)
    (mret ClosingResult_new).

(** [CloserCrew::generateWithTemplate]; [rd_closing] and
    [rd_confirmation] are the entropy drawn by the two template
    selectors.  Nothing in the [try] block of the model throws. *)
Definition generateWithTemplate (request : ClosingRequest)
    (rd_closing rd_confirmation : N) : M (CloserCrew L) ClosingResult :=
  try_catch
    (this ← self;
     let closing_template := selectClosingTemplate this request rd_closing in
     let confirmation_template :=
       selectConfirmationTemplate this request rd_confirmation in
     mret {| closing_message :=
               closing_template +:+ newline +:+ newline
               +:+ formatAppointmentDetails request +:+ newline +:+ newline
               +:+ confirmation_template;
             appointment_summary := "";
             confirmation_details := "";
             needs_followup := false;
             next_steps := [];
             confidence_score := f32_0_85;
             is_valid := true;
             generation_method := "template" |})
    (mret {| closing_message :=
               "Thank you for booking with us! We'll be in touch soon.";
             appointment_summary := "";
             confirmation_details := "";
             needs_followup := false;
             next_steps := [];
             confidence_score := f32_0_6;
             is_valid := true;
             generation_method := "template_fallback" |}).

(** The retry loop of [generateClosing], with [rounds] rounds to go. *)
Fixpoint retry_loop (rounds : nat) (request : ClosingRequest)
    (result : ClosingResult) : M L ClosingResult :=
  match rounds with
  | O => mret result
  | S rounds' =>
      retry_result ← generateWithLLM request;
      if (confidence_score result <? confidence_score retry_result)%float
      then mret retry_result (* result = retry_result; break; *)
      else retry_loop rounds' request result
  end.

(** The block of [generateClosing] guarded by
    [llm_interface != nullptr], on the generator object. *)
Definition try_llm (this : CloserCrew L) (request : ClosingRequest)
  : M L ClosingResult :=
  available ← isAvailable;
  if available : bool then
    result ← generateWithLLM request;
    if is_valid result
       && (confidence_score result <? confidence_threshold this)%float
    then retry_loop (Z.to_nat (max_retries this)) request result
    else mret result
  else mret ClosingResult_new.

(** [CloserCrew::generateClosing]; [rd_number] is the entropy drawn by
    [generateConfirmationNumber]. *)
Definition generateClosing (request : ClosingRequest)
    (rd_closing rd_confirmation rd_number : N)
  : M (CloserCrew L) ClosingResult :=
  if negb (validateAppointmentData request) then
    generateWithTemplate request rd_closing rd_confirmation
  else
    this ← self;
    result ← match llm_interface this with
             | Some llm => on_llm (try_llm this request) llm
             | None => mret ClosingResult_new
             end;
    result ← (if negb (is_valid result)
                 || (confidence_score result <? confidence_threshold this)%float
              then generateWithTemplate request rd_closing rd_confirmation
              else mret result);
    mret {| closing_message := closing_message result;
            appointment_summary := formatAppointmentDetails request;
            confirmation_details := generateConfirmationNumber rd_number;
            needs_followup := needsFollowup request;
            next_steps := generateNextSteps request;
            confidence_score := confidence_score result;
            is_valid := is_valid result;
            generation_method := generation_method result |}.

End Crew.

End Closer.



(** ** [controllers/SessionController.h],
       [controllers/advanced_session_controller.cpp] *)
Module Session.

Record ConfigModel : Type := {
  name : string;
  phone : string;
  email : string;
  service : string;
  day : string;
  time : string;
  stylist : string;
  notes : string
}.

(** [ConfigModel()]: every field default-initialised, that is, empty. *)
Definition ConfigModel_new : ConfigModel :=
  {| name := ""; phone := ""; email := ""; service := ""; day := "";
     time := ""; stylist := ""; notes := "" |}.

(** [ConfigModel::get_empty_entities] *)
Definition get_empty_entities (this : ConfigModel) : list string :=
  (if empty (name this) then ["name"] else [])
  ++ (if empty (phone this) then ["phone"] else [])
  ++ (if empty (email this) then ["email"] else [])
  ++ (if empty (service this) then ["service"] else [])
  ++ (if empty (day this) then ["day"] else [])
  ++ (if empty (time this) then ["time"] else [])
  ++ (if empty (stylist this) then ["stylist"] else [])
  ++ (if empty (notes this) then ["notes"] else []).

(** [ConfigModel::set_entity] *)
Definition set_entity (this : ConfigModel) (entity_name value : string)
  : ConfigModel :=
  if String.eqb entity_name "name" then
    {| name := value; phone := phone this; email := email this;
       service := service this; day := day this; time := time this;
       stylist := stylist this; notes := notes this |}
  else if String.eqb entity_name "phone" then
    {| name := name this; phone := value; email := email this;
       service := service this; day := day this; time := time this;
       stylist := stylist this; notes := notes this |}
  else if String.eqb entity_name "email" then
    {| name := name this; phone := phone this; email := value;
       service := service this; day := day this; time := time this;
       stylist := stylist this; notes := notes this |}
  else if String.eqb entity_name "service" then
    {| name := name this; phone := phone this; email := email this;
       service := value; day := day this; time := time this;
       stylist := stylist this; notes := notes this |}
  else if String.eqb entity_name "day" then
    {| name := name this; phone := phone this; email := email this;
       service := service this; day := value; time := time this;
       stylist := stylist this; notes := notes this |}
  else if String.eqb entity_name "time" then
    {| name := name this; phone := phone this; email := email this;
       service := service this; day := day this; time := value;
       stylist := stylist this; notes := notes this |}
  else if String.eqb entity_name "stylist" then
    {| name := name this; phone := phone this; email := email this;
       service := service this; day := day this; time := time this;
       stylist := value; notes := notes this |}
  else if String.eqb entity_name "notes" then
    {| name := name this; phone := phone this; email := email this;
       service := service this; day := day this; time := time this;
       stylist := stylist this; notes := value |}
  else this.

(** [ConfigModel::get_entity] *)
Definition get_entity (this : ConfigModel) (entity_name : string) : string :=
  if String.eqb entity_name "name" then name this
  else if String.eqb entity_name "phone" then phone this
  else if String.eqb entity_name "email" then email this
  else if String.eqb entity_name "service" then service this
  else if String.eqb entity_name "day" then day this
  else if String.eqb entity_name "time" then time this
  else if String.eqb entity_name "stylist" then stylist this
  else if String.eqb entity_name "notes" then notes this
  else "".

(** The session registry: the class this pair of files calls
    [EntityStateManager].  Every method holds [sessions_mutex_] for its
    whole body. *)
Record EntityStateManager : Type := {
  sessions_ : gmap string ConfigModel;
  active_sessions_ : gmap string bool
}.

Definition EntityStateManager_new : EntityStateManager :=
  {| sessions_ := ∅; active_sessions_ := ∅ |}.

(** [EntityStateManager::create_session] *)
Definition create_session (this : EntityStateManager) (session_id : string)
  : EntityStateManager :=
  {| sessions_ := <[session_id := ConfigModel_new]> (sessions_ this);
     active_sessions_ := <[session_id := true]> (active_sessions_ this) |}.

(** [EntityStateManager::get_session] *)
Definition get_session (this : EntityStateManager) (session_id : string)
  : ConfigModel :=
  match sessions_ this !! session_id with
  | Some entities => entities
  | None => ConfigModel_new (* Return empty if not found *)
  end.

(** [EntityStateManager::update_session] *)
Definition update_session (this : EntityStateManager) (session_id : string)
    (entities : ConfigModel) : EntityStateManager :=
  {| sessions_ := <[session_id := entities]> (sessions_ this);
     active_sessions_ := active_sessions_ this |}.

(** [EntityStateManager::is_session_active] *)
Definition is_session_active (this : EntityStateManager)
    (session_id : string) : bool :=
  match active_sessions_ this !! session_id with
  | Some active => active
  | None => false
  end.

(** [EntityStateManager::set_session_active] *)
Definition set_session_active (this : EntityStateManager)
    (session_id : string) (active : bool) : EntityStateManager :=
  {| sessions_ := sessions_ this;
     active_sessions_ := <[session_id := active]> (active_sessions_ this) |}.

(** [EntityStateManager::end_session] *)
Definition end_session (this : EntityStateManager) (session_id : string)
  : EntityStateManager :=
  {| sessions_ := delete session_id (sessions_ this);
     active_sessions_ := delete session_id (active_sessions_ this) |}.

(** The renaming at the head of [SessionController::update_session]:
    the registry's slot names to the names the crews use. *)
Definition cpp_entity (entity : string) : string :=
  if String.eqb entity "name" then "caller_name"
  else if String.eqb entity "phone" then "phone_number"
  else if String.eqb entity "day" then "day_preference"
  else if String.eqb entity "time" then "time_preference"
  else if String.eqb entity "service" then "service_type"
  else entity.

(** [std::find(v.begin(), v.end(), x) != v.end()] *)
Definition found_in (v : list string) (x : string) : bool :=
  existsb (String.eqb x) v.

(** [SessionController::group_entities] *)
Definition group_entities (empty_entities : list string) : list string :=
  if found_in empty_entities "name" && found_in empty_entities "phone"
  then ["name"; "phone"]
  else if found_in empty_entities "day" && found_in empty_entities "time"
  then ["day"; "time"]
  else match empty_entities with
       | [] => []
       | [e0] => [e0]
       | e0 :: e1 :: _ => [e0; e1]
       end.

End Session.

(** ** [models/classifier.h], [models/extractor.h]: the result records *)
Module Classifier.
Record ClassificationResult : Type := {
  entity_name : string;
  confidence : float;
  detected : bool
}.
End Classifier.

Module Extractor.
Record ExtractionResult : Type := {
  entity_name : string;
  extracted_value : string;
  ner_confidence : float;
  found : bool;
  method_used : string
}.
End Extractor.

(** ** [controllers/advanced_session_controller_og.cpp] *)
Module Advanced.
Import Composer.

Record EntityProcessingResult : Type := {
  entity_name : string;
  detected : bool;
  classification_confidence : float;
  extracted_value : string;
  extracted : bool;
  extraction_method : string
}.

(** The counters of [PerformanceMetrics]; its five durations are wall-clock
    readings and are left out. *)
Record PerformanceMetrics : Type := {
  concurrent_tasks : Z;
  cpu_cores_used : Z
}.

Record ProcessingResult : Type := {
  entity_results : list EntityProcessingResult;
  composition_result : CompositionResult;
  closing_result : Closer.ClosingResult;
  composition_triggered : bool;
  closing_triggered : bool;
  metrics : PerformanceMetrics
}.

(** The fields of [AdvancedSessionController].  [classifier] stands for
    [ClassificationCrew::classifyAllEntities] and [extractor] for
    [ExtractionCrew::extractWithFallback] on the loaded models; both
    catch what their models throw.  [closer] is the [unique_ptr] that the
    constructor leaves null; the appointment store is only reached
    through it. *)
Record AdvancedSessionController (L : Type) : Type := {
  classifier : string → list Classifier.ClassificationResult;
  extractor : string → list string → list Extractor.ExtractionResult;
  composer : ComposerCrew L;
  closer : option (Closer.CloserCrew L);
  entity_manager : EntityStateManager;
  total_cpu_cores : Z;
  classification_threads : Z;
  extraction_threads : Z;
  composition_threads : Z;
  active_processing_tasks : Z;
  last_metrics : PerformanceMetrics
}.
Arguments classifier {L} _.
Arguments extractor {L} _.
Arguments composer {L} _.
Arguments closer {L} _.
Arguments entity_manager {L} _.
Arguments total_cpu_cores {L} _.
Arguments classification_threads {L} _.
Arguments extraction_threads {L} _.
Arguments composition_threads {L} _.
Arguments active_processing_tasks {L} _.
Arguments last_metrics {L} _.

(** [AdvancedSessionController::areEntitiesRelated] *)
Definition related_pairs : list (string * string) :=
  [("caller_name", "phone_number");
   ("day_preference", "time_preference");
   ("service_type", "time_preference");
   ("service_type", "day_preference")].

Definition areEntitiesRelated (entity1 entity2 : string) : bool :=
  existsb
    (λ pair, (String.eqb entity1 pair.1 && String.eqb entity2 pair.2)
             || (String.eqb entity1 pair.2 && String.eqb entity2 pair.1))
    related_pairs.

(** The inner [for] loop of [groupEntitiesForComposition]. *)
Fixpoint pair_loop (seed : string) (scanned rest : list string)
  : list string * list string :=
  match rest with
  | [] => ([seed], scanned)
  | entity :: rest' =>
      if areEntitiesRelated seed entity
      then ([seed; entity], scanned ++ rest')
      else pair_loop seed (scanned ++ [entity]) rest'
  end.

Lemma pair_loop_shrinks seed scanned rest :
  length (pair_loop seed scanned rest).2 ≤ length scanned + length rest.
Proof.
  revert scanned; induction rest as [|e rest IH]; intros scanned; simpl.
  - lia.
  - destruct (areEntitiesRelated seed e); simpl.
    + rewrite length_app. lia.
    + specialize (IH (scanned ++ [e])). rewrite length_app in IH. simpl in IH. lia.
Qed.

(** [AdvancedSessionController::groupEntitiesForComposition] *)
Equations? groupEntitiesForComposition (missing_entities : list string)
  : list (list string) by wf (length missing_entities) lt :=
  groupEntitiesForComposition [] := [];
  groupEntitiesForComposition (first :: remaining) :=
    (pair_loop first [] remaining).1
      :: groupEntitiesForComposition (pair_loop first [] remaining).2.
Proof.
  pose proof (pair_loop_shrinks first [] remaining) as Hlen.
  simpl in Hlen. lia.
Qed.

(** [AdvancedSessionController::combineResults] *)
Definition combineResults
    (classification_results : list Classifier.ClassificationResult)
    (extraction_results : list Extractor.ExtractionResult)
  : list EntityProcessingResult :=
  map
    (λ classification,
       let same_entity extraction :=
         String.eqb (Extractor.entity_name extraction)
                    (Classifier.entity_name classification) in
       match List.find same_entity extraction_results with
       | Some extraction =>
           {| entity_name := Classifier.entity_name classification;
              detected := Classifier.detected classification;
              classification_confidence :=
                Classifier.confidence classification;
              extracted_value := Extractor.extracted_value extraction;
              extracted := Extractor.found extraction;
              extraction_method := Extractor.method_used extraction |}
       | None =>
           {| entity_name := Classifier.entity_name classification;
              detected := Classifier.detected classification;
              classification_confidence :=
                Classifier.confidence classification;
              extracted_value := "";
              extracted := false;
              extraction_method := "none" |}
       end)
    classification_results.

Section Controller.
Context {L : Type} `{LLMInterface L}.

Definition set_composer (this : AdvancedSessionController L)
    (c : ComposerCrew L) : AdvancedSessionController L :=
  {| classifier := classifier this;
     extractor := extractor this;
     composer := c;
     closer := closer this;
     entity_manager := entity_manager this;
     total_cpu_cores := total_cpu_cores this;
     classification_threads := classification_threads this;
     extraction_threads := extraction_threads this;
     composition_threads := composition_threads this;
     active_processing_tasks := active_processing_tasks this;
     last_metrics := last_metrics this |}.

Definition set_entity_manager (this : AdvancedSessionController L)
    (e : EntityStateManager) : AdvancedSessionController L :=
  {| classifier := classifier this;
     extractor := extractor this;
     composer := composer this;
     closer := closer this;
     entity_manager := e;
     total_cpu_cores := total_cpu_cores this;
     classification_threads := classification_threads this;
     extraction_threads := extraction_threads this;
     composition_threads := composition_threads this;
     active_processing_tasks := active_processing_tasks this;
     last_metrics := last_metrics this |}.

Definition set_active_processing_tasks (this : AdvancedSessionController L)
    (n : Z) : AdvancedSessionController L :=
  {| classifier := classifier this;
     extractor := extractor this;
     composer := composer this;
     closer := closer this;
     entity_manager := entity_manager this;
     total_cpu_cores := total_cpu_cores this;
     classification_threads := classification_threads this;
     extraction_threads := extraction_threads this;
     composition_threads := composition_threads this;
     active_processing_tasks := n;
     last_metrics := last_metrics this |}.

Definition set_last_metrics (this : AdvancedSessionController L)
    (m : PerformanceMetrics) : AdvancedSessionController L :=
  {| classifier := classifier this;
     extractor := extractor this;
     composer := composer this;
     closer := closer this;
     entity_manager := entity_manager this;
     total_cpu_cores := total_cpu_cores this;
     classification_threads := classification_threads this;
     extraction_threads := extraction_threads this;
     composition_threads := composition_threads this;
     active_processing_tasks := active_processing_tasks this;
     last_metrics := m |}.

(** [AdvancedSessionController::optimizeThreadAllocation]: the three
    thread counts (classification, extraction, composition). *)
Definition optimizeThreadAllocation (total_cpu_cores : Z) : Z * Z * Z :=
  if (8 <=? total_cpu_cores)%Z then (2, 2, 2)%Z
  else if (4 <=? total_cpu_cores)%Z then (1, 2, 1)%Z
  else (1, 1, 1)%Z.

(** The constructor; [hardware_concurrency] is what
    [std::thread::hardware_concurrency()] answers.  The line that would
    build the closer is commented out in the source. *)
Definition AdvancedSessionController_new
    (svm : string → list Classifier.ClassificationResult)
    (ner : string → list string → list Extractor.ExtractionResult)
    (llm : option L) (hardware_concurrency : Z)
  : AdvancedSessionController L :=
  let '(classification, extraction, composition) :=
    optimizeThreadAllocation hardware_concurrency in
  {| classifier := svm;
     extractor := ner;
     composer := ComposerCrew_new llm composition hardware_concurrency;
     closer := None;
     entity_manager := EntityStateManager_new;
     total_cpu_cores := hardware_concurrency;
     classification_threads := classification;
     extraction_threads := extraction;
     composition_threads := composition;
     active_processing_tasks := 0;
     last_metrics := {| concurrent_tasks := 0; cpu_cores_used := 0 |} |}.

(** A method of the composer, called through the [composer] pointer. *)
Definition on_composer {A} (call : M (ComposerCrew L) A)
  : M (AdvancedSessionController L) A :=
  λ this,
    let '(answer, c) := call (composer this) in
    (answer, set_composer this c).

(** Phase 3 of [processInput]: one [updateEntity] per extraction result
    that was found, in order. *)
Definition store_extracted (results : list Extractor.ExtractionResult)
    (manager : EntityStateManager) : EntityStateManager :=
  foldl
    (λ manager ext_result,
       if Extractor.found ext_result
       then updateEntity manager (Extractor.entity_name ext_result)
                         (Extractor.extracted_value ext_result)
       else manager)
    manager results.

(** [AdvancedSessionController::processInput].

    The composition task runs on its own thread while the caller
    collects the extraction results and stores them; the one thing the
    two share is the entity manager, which the task reads once
    ([getKnownEntities], under the manager's lock).  [stored_before]
    says how many extraction results the caller had gone through when
    the task took that snapshot.  [rd] is the entropy the composer may
    draw.  An exception of the task comes out of
    [composition_future.get()] and leaves [processInput]. *)
Definition processInput (input_sentence : string) (stored_before : nat)
    (rd : N) : M (AdvancedSessionController L) ProcessingResult :=
  update (λ this, set_active_processing_tasks this
                    (active_processing_tasks this + 1));;
  this ← self;
  (* PHASE 1: CLASSIFICATION *)
  let classification_results := classifier this input_sentence in
  let detected_entities :=
    map Classifier.entity_name
        (List.filter Classifier.detected classification_results) in
  let missing_entities :=
    map Classifier.entity_name
        (List.filter (λ r, negb (Classifier.detected r))
                     classification_results) in
  (* PHASE 2: PARALLEL EXTRACTION + COMPOSITION *)
  let extraction_results :=
    match detected_entities with
    | [] => []
    | _ :: _ => extractor this input_sentence detected_entities
    end in
  let should_compose :=
    match missing_entities with
    | [] => false
    | _ :: _ => negb (isComplete (entity_manager this))
    end in
  let known_by_task :=
    getKnownEntities
      (store_extracted (take stored_before extraction_results)
                       (entity_manager this)) in
  (* PHASE 3: COLLECT EXTRACTION RESULTS AND UPDATE STATE *)
  update (λ this, set_entity_manager this
                    (store_extracted extraction_results
                                     (entity_manager this)));;
  (* PHASE 4: COLLECT COMPOSITION RESULTS *)
  composition_result ←
    (if should_compose then
       match groupEntitiesForComposition missing_entities with
       | group0 :: _ =>
           on_composer
             (composeQuestion
                {| missing_entities := group0;
                   known_entities := known_by_task;
                   conversation_context := input_sentence |}
                rd)
       | [] => mret CompositionResult_new
       end
     else mret CompositionResult_new);
  (* PHASE 5: CHECK FOR CLOSING CONDITION.  When the manager is complete
     the source builds the closing request and reads the clock; the call
     of the closer and the assignment [closing_triggered = true] sit in
     a comment block, so neither field of the result is written. *)
  this ← self;
  let close_request :=
    if isComplete (entity_manager this)
    then Some {| Closer.complete_entities :=
                   getKnownEntities (entity_manager this);
                 Closer.conversation_summary := input_sentence;
                 Closer.business_context := "Hair salon appointment" |}
    else None in
  (* PHASE 6: COMBINE RESULTS *)
  let result :=
    {| entity_results :=
         combineResults classification_results extraction_results;
       composition_result := composition_result;
       closing_result := Closer.ClosingResult_new;
       composition_triggered := should_compose;
       closing_triggered := false;
       metrics := {| concurrent_tasks := 2;
                     cpu_cores_used := total_cpu_cores this |} |} in
  update (λ this, set_active_processing_tasks this
                    (active_processing_tasks this - 1));;
  update (λ this, set_last_metrics this (metrics result));;
  mret result.

(** [AdvancedSessionController::adjustPerformanceBasedOnLoad] *)
Definition adjustPerformanceBasedOnLoad (this : AdvancedSessionController L)
  : AdvancedSessionController L :=
  let current_load := active_processing_tasks this in
  if (total_cpu_cores this <? current_load)%Z then
    set_composer this
      (adjustThreadCount (composer this) (composition_threads this - 1))
  else if (current_load <? total_cpu_cores this ÷ 2)%Z then
    set_composer this
      (adjustThreadCount (composer this) (composition_threads this + 1))
  else this.

(** [AdvancedSessionController::resetSession] *)
Definition resetSession (this : AdvancedSessionController L)
  : AdvancedSessionController L :=
  set_entity_manager this (reset (entity_manager this)).

End Controller.

End Advanced.

(** ** The specification's wording, for the statements that compare the
       code with it *)
Module Spec.
Import Composer.

(** The fixed symmetric affinity table of the slot-group planner:
    name and phone, day and time, service and day, service and time. *)
Inductive affinity : string → string → Prop :=
| name_phone : affinity "caller_name" "phone_number"
| day_time : affinity "day_preference" "time_preference"
| service_day : affinity "service_type" "day_preference"
| service_time : affinity "service_type" "time_preference"
| affinity_sym a b : affinity a b → affinity b a.

(** The planner's algorithm: the first slot of the pool is the seed; the
    first slot of the rest that is related to the seed is paired with it
    and both leave the pool, or the seed is emitted alone when no slot of
    the rest is related to it; this repeats until the pool is empty. *)
Inductive grouping : list string → list (list string) → Prop :=
| pool_empty : grouping [] []
| seed_paired seed before partner behind groups :
    affinity seed partner →
    Forall (λ slot, ¬ affinity seed slot) before →
    grouping (before ++ behind) groups →
    grouping (seed :: before ++ partner :: behind) ([seed; partner] :: groups)
| seed_alone seed pool groups :
    Forall (λ slot, ¬ affinity seed slot) pool →
    grouping pool groups →
    grouping (seed :: pool) ([seed] :: groups).

(** One call of the state's "apply updates" operation: the single-slot
    form or the batch form. *)
Inductive apply_call : Type :=
| Single (entity_name value : string)
| Batch (updates : gmap string string).

Definition apply (this : EntityStateManager) (call : apply_call)
  : EntityStateManager :=
  match call with
  | Single entity_name value => updateEntity this entity_name value
  | Batch updates => updateMultipleEntities this updates
  end.

(** Every value the call carries is a non-empty string. *)
Definition non_empty_values (call : apply_call) : bool :=
  match call with
  | Single _ value => negb (empty value)
  | Batch updates =>
      bool_decide (map_Forall (λ _ value, empty value = false) updates)
  end.

Section Gate.
Context {L : Type} `{LLMInterface L}.

(** The outcomes of the next [n] calls of the primary generator, made
    one after the other on the generator in state [llm]. *)
Fixpoint attempts (n : nat) (request : CompositionRequest) (llm : L)
  : list CompositionResult :=
  match n with
  | O => []
  | S n' =>
      match generateWithLLM request llm with
      | (Returns outcome, llm') => outcome :: attempts n' request llm'
      | (Throws _, _) => []
      end
  end.

(** The generator as [n] such calls leave it. *)
Fixpoint after_attempts (n : nat) (request : CompositionRequest) (llm : L)
  : L :=
  match n with
  | O => llm
  | S n' => after_attempts n' request (generateWithLLM request llm).2
  end.

(** An outcome the gate cannot return as it is: invalid (a call threw a
    [std::exception], or gave no text), or of a quality below the
    threshold. *)
Definition rejected (this : ComposerCrew L) (outcome : CompositionResult)
  : Prop :=
  is_valid outcome = false
  ∨ (quality_score outcome <? quality_threshold this)%float = true.

(** "Keeping the best-quality outcome seen; if any retry's quality
    exceeds the current best, replace." *)
Definition best_of (first : CompositionResult)
    (retries : list CompositionResult) : CompositionResult :=
  foldl
    (λ best retry,
       if (quality_score best <? quality_score retry)%float
       then retry else best)
    first retries.

(** The retry step of the generation gate as the specification words
    it, for a composer whose generator has just reported available:
    when the first outcome is valid and below the threshold, the best
    outcome of all [max_retries] retries is what is returned, under the
    method [primary_retry], if its quality reaches the threshold;
    otherwise the template fallback is. *)
Definition retry_keeps_best (this : ComposerCrew L)
    (request : CompositionRequest) (rd : N) : Prop :=
  ∀ llm llm1 first retries,
    llm_interface this = Some llm →
    isAvailable llm = (Returns true, llm1) →
    attempts (S (Z.to_nat (max_retries this))) (limit request) llm1
    = first :: retries →
    is_valid first = true →
    (quality_score first <? quality_threshold this)%float = true →
    let best := best_of first retries in
    ∃ result this',
      composeQuestion request rd this = (Returns result, this')
      ∧ if (quality_threshold this <=? quality_score best)%float
        then generated_question result = generated_question best
             ∧ quality_score result = quality_score best
             ∧ generation_method result = "primary_retry"
        else generated_question result
             = generated_question
                 (generateWithTemplate this (limit request) rd)
             ∧ generation_method result
               = generation_method
                   (generateWithTemplate this (limit request) rd).

(** The same for the closer's generator calls. *)
Fixpoint closing_attempts (n : nat) (request : Closer.ClosingRequest)
    (llm : L) : list Closer.ClosingResult :=
  match n with
  | O => []
  | S n' =>
      match Closer.generateWithLLM request llm with
      | (Returns outcome, llm') => outcome :: closing_attempts n' request llm'
      | (Throws _, _) => []
      end
  end.

Fixpoint after_closing_attempts (n : nat) (request : Closer.ClosingRequest)
    (llm : L) : L :=
  match n with
  | O => llm
  | S n' =>
      after_closing_attempts n' request (Closer.generateWithLLM request llm).2
  end.

End Gate.

(** A retry improves on the outcome the loop started from:
    [retry_result.quality_score > result.quality_score]. *)
Definition improves (first retry : CompositionResult) : Prop :=
  (quality_score first <? quality_score retry)%float = true.

#[global] Instance improves_dec first retry : Decision (improves first retry) :=
  bool_eq_dec (quality_score first <? quality_score retry)%float true.

Definition closing_improves (first retry : Closer.ClosingResult) : Prop :=
  (Closer.confidence_score first <? Closer.confidence_score retry)%float
  = true.

#[global] Instance closing_improves_dec first retry
  : Decision (closing_improves first retry) :=
  bool_eq_dec
    (Closer.confidence_score first <? Closer.confidence_score retry)%float
    true.

End Spec.

(** ** Generators for running the code on concrete inputs *)
Module Doubles.
Import Composer.

(** A generator that follows a script: [availability] is what
    [isAvailable] does; each call of [generateQuestion] uses up the next
    entry of [script] (a text together with what its quality assessment
    will do, or a throw), and throws once the script has run out. *)
Record Scripted : Type := {
  availability : outcome bool;
  script : list (outcome (string * outcome float));
  assessment : outcome float
}.

#[global] Instance Scripted_LLM : LLMInterface Scripted := {
  generateQuestion _ := λ llm,
    match script llm with
    | Returns (text, quality) :: later =>
        (Returns text,
         {| availability := availability llm;
            script := later;
            assessment := quality |})
    | Throws e :: later =>
        (Throws e,
         {| availability := availability llm;
            script := later;
            assessment := assessment llm |})
    | [] => (Throws std_exception, llm)
    end;
  assessQuestionQuality _ _ := λ llm, (assessment llm, llm);
  isAvailable := λ llm, (availability llm, llm)
}.

(** A generator that reports itself available and then throws a
    [std::exception] from every generation and assessment call. *)
Definition broken : Scripted :=
  {| availability := Returns true; script := [];
     assessment := Throws std_exception |}.

(** A generator every call of which throws a [std::exception], the
    availability check included. *)
Definition unreachable : Scripted :=
  {| availability := Throws std_exception; script := [];
     assessment := Throws std_exception |}.

(** A generator that reports itself unavailable. *)
Definition offline : Scripted :=
  {| availability := Returns false; script := [];
     assessment := Throws std_exception |}.

(** A generator that reports itself available and whose first generation
    call throws an object that is not a [std::exception]. *)
Definition foreign : Scripted :=
  {| availability := Returns true; script := [Throws other_object];
     assessment := Throws std_exception |}.

(** A generator whose answers have quality 0.25, then 0.5, then 0.875. *)
Definition improving : Scripted :=
  {| availability := Returns true;
     script := [Returns ("first", Returns 0.25%float);
                Returns ("second", Returns 0.5%float);
                Returns ("third", Returns 0.875%float)];
     assessment := Throws std_exception |}.

(** A classifier that detects nothing in any sentence, and an extractor
    that finds nothing; both answer for each entity they are asked
    about, as the crews do. *)
Definition nothing_detected (sentence : string)
  : list Classifier.ClassificationResult :=
  map (λ entity,
         {| Classifier.entity_name := entity;
            Classifier.confidence := f32_0_0;
            Classifier.detected := false |})
      ["caller_name"; "phone_number"; "day_preference"; "time_preference";
       "service_type"].

Definition nothing_found (sentence : string) (targets : list string)
  : list Extractor.ExtractionResult :=
  map (λ entity,
         {| Extractor.entity_name := entity;
            Extractor.extracted_value := "";
            Extractor.ner_confidence := f32_0_0;
            Extractor.found := false;
            Extractor.method_used := "llm_fallback" |})
      targets.

(** The five slots of a booking, all filled in. *)
Definition booking : gmap string string :=
  list_to_map
    [("caller_name", "John"); ("phone_number", "555-123-4567");
     ("day_preference", "Friday"); ("time_preference", "2 PM");
     ("service_type", "haircut")].

(** A request for the caller's name and phone number. *)
Definition contact_request : CompositionRequest :=
  {| missing_entities := ["caller_name"; "phone_number"];
     known_entities := ∅;
     conversation_context := "Hi" |}.

(** The closing request for the booking, with the phone number and the
    time replaced. *)
Definition with_phone (phone time : string) : Closer.ClosingRequest :=
  {| Closer.complete_entities :=
       <["phone_number" := phone]>
         (<["time_preference" := time]> booking);
     Closer.conversation_summary := "";
     Closer.business_context := "Hair salon appointment" |}.

(** A closer built without a generator, as [SessionController::initialize]
    builds it. *)
Definition nobody : Closer.CloserCrew Scripted := Closer.CloserCrew_new None.

(** A controller on a machine with [cores] cores, and the same on eight
    cores once the booking is complete. *)
Definition controller (cores : Z)
  : Advanced.AdvancedSessionController Scripted :=
  Advanced.AdvancedSessionController_new
    nothing_detected nothing_found (Some improving) cores.

Definition booked : Advanced.AdvancedSessionController Scripted :=
  Advanced.set_entity_manager (controller 8)
    (updateMultipleEntities EntityStateManager_new booking).

End Doubles.


(** ** [models/classifier.cpp]: the classification crew *)
Module Classification.
Import Classifier.

(** The fields of [ClassificationCrew].  A loaded [SVMModel] is its method
    [predict], which catches the [std::exception] that inference throws
    (the runtime's exceptions are such) and then answers [0.0f]. *)
Record ClassificationCrew : Type := {
  svm_models : gmap string (string → float);
  confidence_threshold : float;
  entity_types : list string
}.

(** [ClassificationCrew::loadSVMModels]; [load] is what constructing an
    [SVMModel] from a path gives, [None] when the constructor throws. *)
Definition loadSVMModels (load : string → option (string → float))
    (models_dir : string) (entity_types : list string)
  : gmap string (string → float) :=
  foldl
    (λ svm_models entity,
       match load (models_dir +:+ "/" +:+ entity +:+ "_svm.onnx") with
       | Some model => <[entity := model]> svm_models
       | None => svm_models
       end)
    ∅ entity_types.

(** [ClassificationCrew::ClassificationCrew] *)
Definition ClassificationCrew_new (load : string → option (string → float))
    (svm_models_dir : string) (threshold : float) : ClassificationCrew :=
  let entity_types :=
    ["caller_name"; "phone_number"; "day_preference"; "time_preference";
     "service_type"] in
  {| svm_models := loadSVMModels load svm_models_dir entity_types;
     confidence_threshold := threshold;
     entity_types := entity_types |}.

(** The task [ClassificationCrew::classifyEntityAsync] runs. *)
Definition classifyEntityAsync (this : ClassificationCrew)
    (sentence entity_type : string) : ClassificationResult :=
  match svm_models this !! entity_type with
  | Some model =>
      let confidence := model sentence in
      {| entity_name := entity_type;
         confidence := confidence;
         detected := (confidence_threshold this <=? confidence)%float |}
  | None =>
      {| entity_name := entity_type;
         confidence := f32_0_0;
         detected := false |}
  end.

(** [ClassificationCrew::classifyAllEntities]: one task per entity type,
    joined in the order they were started. *)
Definition classifyAllEntities (this : ClassificationCrew)
    (input_sentence : string) : list ClassificationResult :=
  map (classifyEntityAsync this input_sentence) (entity_types this).

(** [ClassificationCrew::getDetectedEntities] *)
Definition getDetectedEntities (this : ClassificationCrew)
    (input_sentence : string) : list string :=
  map entity_name
      (List.filter detected (classifyAllEntities this input_sentence)).

(** [ClassificationCrew::setConfidenceThreshold] *)
Definition setConfidenceThreshold (this : ClassificationCrew)
    (threshold : float) : ClassificationCrew :=
  {| svm_models := svm_models this;
     confidence_threshold := threshold;
     entity_types := entity_types this |}.

End Classification.

(** ** [models/extractor.cpp]: the extraction crew *)
Module Extraction.
Import Extractor.

(** The fields of [ExtractionCrew].  A loaded [NERModel] is its method
    [extract], which answers the empty string when it finds no entity or
    when inference throws. *)
Record ExtractionCrew : Type := {
  ner_models : gmap string (string → string);
  ner_confidence_threshold : float
}.

(** [ExtractionCrew::loadNERModels]; [load] is what constructing a
    [NERModel] from the model and metadata paths gives, [None] when the
    constructor throws. *)
Definition loadNERModels (load : string → string → option (string → string))
    (models_dir : string) : gmap string (string → string) :=
  foldl
    (λ ner_models entity,
       match load (models_dir +:+ "/" +:+ entity +:+ "_ner.onnx")
                  (models_dir +:+ "/" +:+ entity +:+ "_metadata.json") with
       | Some model => <[entity := model]> ner_models
       | None => ner_models
       end)
    ∅
    ["caller_name"; "phone_number"; "day_preference"; "time_preference";
     "service_type"].

(** [ExtractionCrew::ExtractionCrew] *)
Definition ExtractionCrew_new
    (load : string → string → option (string → string))
    (ner_models_dir : string) (threshold : float) : ExtractionCrew :=
  {| ner_models := loadNERModels load ner_models_dir;
     ner_confidence_threshold := threshold |}.

(** [ExtractionResult(name)] *)
Definition ExtractionResult_new (name : string) : ExtractionResult :=
  {| entity_name := name;
     extracted_value := "";
     ner_confidence := f32_0_0;
     found := false;
     method_used := "none" |}.

(** The task [ExtractionCrew::extractEntityAsync] runs. *)
Definition extractEntityAsync (this : ExtractionCrew)
    (sentence entity_type : string) : ExtractionResult :=
  match ner_models this !! entity_type with
  | Some model =>
      let extracted := model sentence in
      if negb (empty extracted)
      then {| entity_name := entity_type;
              extracted_value := extracted;
              ner_confidence := 1%float;
              found := true;
              method_used := "ner" |}
      else ExtractionResult_new entity_type
  | None => ExtractionResult_new entity_type
  end.

(** [ExtractionCrew::extractEntities] *)
Definition extractEntities (this : ExtractionCrew) (input_sentence : string)
    (target_entities : list string) : list ExtractionResult :=
  map (extractEntityAsync this input_sentence) target_entities.

(** [ExtractionCrew::llmFallback] *)
Definition llmFallback (sentence entity_type : string) : ExtractionResult :=
  {| entity_name := entity_type;
     extracted_value := "";
     ner_confidence := f32_0_0;
     found := false;
     method_used := "llm_fallback" |}.

(** [ExtractionCrew::extractWithFallback] *)
Definition extractWithFallback (this : ExtractionCrew)
    (input_sentence : string) (target_entities : list string)
  : list ExtractionResult :=
  map
    (λ result,
       if negb (found result)
          || (ner_confidence result <? ner_confidence_threshold this)%float
       then
         let llm_result := llmFallback input_sentence (entity_name result) in
         if found llm_result then llm_result else result
       else result)
    (extractEntities this input_sentence target_entities).

End Extraction.

(** ** [controllers/advanced_session_controller.cpp]: [SessionController] *)
Module Controller.
Import Session.

Record EntitiesModel : Type := {
  response : string;
  question : string;
  session_active : bool;
  entities : ConfigModel
}.

(** [EntitiesModel()] *)
Definition EntitiesModel_new : EntitiesModel :=
  {| response := ""; question := ""; session_active := false;
     entities := ConfigModel_new |}.

(** The names of the eight fields of [ConfigModel], in the order
    [get_empty_entities] goes through them. *)
Definition slot_names : list string :=
  ["name"; "phone"; "email"; "service"; "day"; "time"; "stylist"; "notes"].

(** The fields a [SessionController] uses once [initialize] has succeeded;
    the composer and the closer it also builds are used by none of its
    methods.  All methods hold [controller_mutex_] for their whole body,
    and nothing in their [try] blocks throws. *)
Record SessionController : Type := {
  classifier_ : Classification.ClassificationCrew;
  extractor_ : Extraction.ExtractionCrew;
  state_manager_ : EntityStateManager;
  max_threads_ : Z
}.

(** [SessionController::SessionController] followed by
    [SessionController::initialize]. *)
Definition SessionController_new
    (load_svm : string → option (string → float))
    (load_ner : string → string → option (string → string))
    (svm_models_dir ner_models_dir : string) (hardware_concurrency : Z)
  : SessionController :=
  {| classifier_ :=
       Classification.ClassificationCrew_new load_svm svm_models_dir 0x1p-1%float;
     extractor_ :=
       Extraction.ExtractionCrew_new load_ner ner_models_dir 0x1p-1%float;
     state_manager_ := EntityStateManager_new;
     max_threads_ :=
       if (4 <? hardware_concurrency)%Z then hardware_concurrency ÷ 2 else 2 |}.

Definition set_state_manager (this : SessionController)
    (manager : EntityStateManager) : SessionController :=
  {| classifier_ := classifier_ this;
     extractor_ := extractor_ this;
     state_manager_ := manager;
     max_threads_ := max_threads_ this |}.

(** [SessionController::generate_greeting] *)
Definition generate_greeting (rd : N) : string :=
  let greetings :=
    ["Hello! I'm here to help you book your hair appointment.";
     "Hi there! I'd love to help you schedule your appointment.";
     "Welcome! Let's book your appointment together."] in
  nth (Z.to_nat
         (uniform_int_distribution 0 (Z.of_nat (length greetings) - 1) rd))
      greetings "".

(** [SessionController::generate_question_for_entities] *)
Definition generate_question_for_entities (entities : list string) : string :=
  match entities with
  | [] => "How can I help you today?"
  | [entity] =>
      if String.eqb entity "name" then "May I have your name, please?"
      else if String.eqb entity "phone" then "What's your phone number?"
      else if String.eqb entity "service" then "What service would you like?"
      else if String.eqb entity "day" then "What day works for you?"
      else if String.eqb entity "time" then "What time would you prefer?"
      else "Could you provide your " +:+ entity +:+ "?"
  | [entity0; entity1] =>
      "Could you please provide your " +:+ entity0 +:+ " and " +:+ entity1
      +:+ "?"
  | _ => "Could you provide some information?"
  end.

(** [SessionController::create_session] *)
Definition create_session (session_id : string) (rd : N)
    (this : SessionController) : EntitiesModel * SessionController :=
  let manager := Session.create_session (state_manager_ this) session_id in
  let manager := set_session_active manager session_id true in
  let entities := ConfigModel_new in
  let entities_to_ask := group_entities (get_empty_entities entities) in
  ({| response := generate_greeting rd;
      question := generate_question_for_entities entities_to_ask;
      session_active := true;
      entities := entities |},
   set_state_manager this (Session.update_session manager session_id entities)).

(** [SessionController::get_session] *)
Definition get_session (session_id : string) (this : SessionController)
  : EntitiesModel :=
  let is_active := is_session_active (state_manager_ this) session_id in
  if negb is_active then
    {| response := "Session not active";
       question := "";
       session_active := false;
       entities := ConfigModel_new |}
  else
    let entities := Session.get_session (state_manager_ this) session_id in
    match get_empty_entities entities with
    | (_ :: _) as empty_entities =>
        {| response := "Here's your current information:";
           question :=
             generate_question_for_entities (group_entities empty_entities);
           session_active := is_active;
           entities := entities |}
    | [] =>
        {| response := "Your information is complete!";
           question := "All done!";
           session_active := is_active;
           entities := entities |}
    end.

(** [SessionController::end_session] *)
Definition end_session (session_id : string) (this : SessionController)
  : EntitiesModel * SessionController :=
  let final_entities := Session.get_session (state_manager_ this) session_id in
  let was_active := is_session_active (state_manager_ this) session_id in
  ({| response :=
        if was_active then "Session ended successfully."
        else "Session was already inactive.";
      question := "";
      session_active := false;
      entities := final_entities |},
   set_state_manager this
     (Session.end_session (state_manager_ this) session_id)).

(** The renaming back, in the loop of [update_session] that stores the
    extraction results. *)
Definition simple_name (entity_name : string) : string :=
  if String.eqb entity_name "caller_name" then "name"
  else if String.eqb entity_name "phone_number" then "phone"
  else if String.eqb entity_name "day_preference" then "day"
  else if String.eqb entity_name "time_preference" then "time"
  else if String.eqb entity_name "service_type" then "service"
  else entity_name.

(** The loop of [update_session] that stores the extraction results. *)
Definition store_results (results : list Extractor.ExtractionResult)
    (current_entities : ConfigModel) : ConfigModel :=
  foldl
    (λ current_entities ext_result,
       if Extractor.found ext_result
          && negb (empty (Extractor.extracted_value ext_result))
       then set_entity current_entities
                       (simple_name (Extractor.entity_name ext_result))
                       (Extractor.extracted_value ext_result)
       else current_entities)
    current_entities results.

(** [SessionController::update_session] *)
Definition update_session (session_id user_input : string)
    (this : SessionController) : EntitiesModel * SessionController :=
  if negb (is_session_active (state_manager_ this) session_id) then
    ({| response := "Session not active.";
        question := "";
        session_active := false;
        entities := ConfigModel_new |},
     this)
  else
    let current_entities :=
      Session.get_session (state_manager_ this) session_id in
    let missing_entities := get_empty_entities current_entities in
    let detected_entities :=
      Classification.getDetectedEntities (classifier_ this) user_input in
    let entities_to_extract :=
      List.filter (found_in detected_entities)
                  (map cpp_entity missing_entities) in
    let current_entities :=
      match entities_to_extract with
      | [] => current_entities
      | _ :: _ =>
          store_results
            (Extraction.extractEntities (extractor_ this) user_input
                                        entities_to_extract)
            current_entities
      end in
    let remaining_missing := get_empty_entities current_entities in
    let '(response, question) :=
      match remaining_missing with
      | [] => ("Perfect! I have all your information.",
               "Your appointment is ready!")
      | _ :: _ =>
          ("Thank you for that information.",
           generate_question_for_entities (group_entities remaining_missing))
      end in
    ({| response := response;
        question := question;
        session_active := true;
        entities := current_entities |},
     set_state_manager this
       (Session.update_session (state_manager_ this) session_id
                               current_entities)).

(** A call on the controller, and a run of calls, answers in order. *)
Inductive call : Type :=
| CreateSession (session_id : string) (rd : N)
| UpdateSession (session_id user_input : string)
| GetSession (session_id : string)
| EndSession (session_id : string).

Definition serve (c : call) (this : SessionController)
  : EntitiesModel * SessionController :=
  match c with
  | CreateSession session_id rd => create_session session_id rd this
  | UpdateSession session_id user_input =>
      update_session session_id user_input this
  | GetSession session_id => (get_session session_id this, this)
  | EndSession session_id => end_session session_id this
  end.

Fixpoint run (calls : list call) (this : SessionController)
  : list EntitiesModel * SessionController :=
  match calls with
  | [] => ([], this)
  | c :: calls' =>
      let '(answer, this') := serve c this in
      let '(answers, this'') := run calls' this' in
      (answer :: answers, this'')
  end.

End Controller.

(** ** [models/composer.cpp]: one round of [ComposerCrew::workerLoop] *)
Module Workers.
Import Composer.

Inductive round : Type :=
| Waits      (* the condition variable's predicate is false *)
| Leaves     (* [break]: the thread ends *)
| RunsTask.  (* pops the front task and runs it *)

(** What a worker does once it holds [queue_mutex], with [queued] tasks in
    [task_queue]. *)
Definition workerLoop {L} (this : ComposerCrew L) (queued : nat) : round :=
  if negb ((0 <? queued)%nat || stop_workers this) then Waits
  else if stop_workers this && (queued =? 0)%nat then Leaves
  else RunsTask.

End Workers.

(** ** [controllers/advanced_session_controller_og.cpp]:
       [ConcreteLLMInterface] *)
Module Concrete.
Import Composer.

(** [float] arithmetic: IEEE binary32, round to nearest even. *)
Definition binary32 (mantissa : positive) (exponent : Z) : spec_float :=
  S754_finite false mantissa exponent.

Definition add32 : spec_float → spec_float → spec_float := SFadd 24 128.

Definition c_0_7 : spec_float := binary32 11744051 (-24). (* 0.7f *)
Definition c_0_1 : spec_float := binary32 13421773 (-27). (* 0.1f *)
Definition c_1_0 : spec_float := binary32 8388608 (-23).  (* 1.0f *)

(** [std::min(a, b)]: [b] when [b < a], else [a]. *)
Definition min32 (a b : spec_float) : spec_float :=
  if SFltb b a then b else a.

(** [ConcreteLLMInterface::generateQuestion] (its console output and the
    pause that stands for the call's delay left out). *)
Definition concrete_generateQuestion (request : CompositionRequest) : string :=
  match missing_entities request with
  | [e0; e1] => "Could you please provide your " +:+ e0 +:+ " and " +:+ e1 +:+ "?"
  | [e0] => "What is your " +:+ e0 +:+ "?"
  | _ => "Could you provide some additional information?"
  end.

(** [ConcreteLLMInterface::assessQuestionQuality], in binary32. *)
Definition concrete_quality (question : string) : spec_float :=
  let quality := c_0_7 in
  let quality :=
    if (10 <? String.length question)%nat then add32 quality c_0_1
    else quality in
  let quality :=
    if contains question "?" then add32 quality c_0_1 else quality in
  let quality :=
    if contains question "please" then add32 quality c_0_1 else quality in
  min32 c_1_0 quality.

(** The object has no fields. *)
#[global] Instance ConcreteLLMInterface : LLMInterface unit := {
  generateQuestion request := mret (concrete_generateQuestion request);
  assessQuestionQuality question _ := mret (SF2Prim (concrete_quality question));
  isAvailable := mret true
}.

End Concrete.

(** ** What a pattern of [Cxx.regex] denotes *)
Module Lang.

Inductive matches : regex → string → Prop :=
| matches_epsilon : matches Epsilon ""
| matches_class member c :
    member c = true → matches (Class member) (String c "")
| matches_then r1 r2 s1 s2 :
    matches r1 s1 → matches r2 s2 → matches (Then r1 r2) (s1 +:+ s2)
| matches_or_left r1 r2 s : matches r1 s → matches (Or r1 r2) s
| matches_or_right r1 r2 s : matches r2 s → matches (Or r1 r2) s
| matches_many_none r : matches (Many r) ""
| matches_many_more r s1 s2 :
    matches r s1 → matches (Many r) s2 → matches (Many r) (s1 +:+ s2).

(** Every character of [s] is in the class. *)
Fixpoint all_in (member : Ascii.ascii → bool) (s : string) : bool :=
  match s with
  | EmptyString => true
  | String c s' => member c && all_in member s'
  end.

Definition is_digit (c : Ascii.ascii) : bool :=
  (48 <=? Ascii.nat_of_ascii c)%nat && (Ascii.nat_of_ascii c <=? 57)%nat.

Definition is_space (c : Ascii.ascii) : bool :=
  (Ascii.nat_of_ascii c =? 32)%nat
  || ((9 <=? Ascii.nat_of_ascii c)%nat && (Ascii.nat_of_ascii c <=? 13)%nat).

(** [s] is [n] decimal digits. *)
Definition digits (n : nat) (s : string) : Prop :=
  String.length s = n ∧ all_in is_digit s = true.

End Lang.

(** ** Stand-ins for the model files *)
Module Stubs.
Import Session.

(** A models directory that holds the classifier and the extractor of the
    caller's name and of the phone number only; the files of the other
    entities fail to load.  The name model knows one name, the phone model
    one number. *)
Definition load_svm (path : string) : option (string → float) :=
  if String.eqb path "models/caller_name_svm.onnx"
  then Some (λ sentence,
               if contains sentence "John" then 0.875%float else 0.125%float)
  else if String.eqb path "models/phone_number_svm.onnx"
  then Some (λ sentence,
               if contains sentence "555" then 0.875%float else 0.125%float)
  else None.

Definition load_ner (path metadata : string) : option (string → string) :=
  if String.eqb path "models/caller_name_ner.onnx"
  then Some (λ sentence, if contains sentence "John" then "John" else "")
  else if String.eqb path "models/phone_number_ner.onnx"
  then Some (λ sentence,
               if contains sentence "555-123-4567" then "555-123-4567"
               else "")
  else None.

Definition classification_crew : Classification.ClassificationCrew :=
  Classification.ClassificationCrew_new load_svm "models" f32_0_7.

Definition extraction_crew : Extraction.ExtractionCrew :=
  Extraction.ExtractionCrew_new load_ner "models" 0.5%float.

(** The controller of [advanced_session_controller_og.cpp] on these crews,
    on eight cores, with [ConcreteLLMInterface] as its generator; and the
    same once the caller has given a name. *)
Definition desk : Advanced.AdvancedSessionController unit :=
  Advanced.AdvancedSessionController_new
    (Classification.classifyAllEntities classification_crew)
    (Extraction.extractWithFallback extraction_crew)
    (Some tt) 8.

Definition desk_with_name : Advanced.AdvancedSessionController unit :=
  (Advanced.processInput "This is John" 0 7 desk).2.

(** A [SessionController] on the same directory, with session [s1] open,
    and the same once the caller has given a name. *)
Definition front_desk : Controller.SessionController :=
  (Controller.create_session "s1" 0
     (Controller.SessionController_new load_svm load_ner "models" "models" 8)).2.

Definition front_desk_with_name : Controller.SessionController :=
  (Controller.update_session "s1" "This is John" front_desk).2.

End Stubs.

(** * Theorems *)

(** ** The slot values of a conversation ([Composer.EntityStateManager]) *)
Section EntityState.
Import Composer.

Lemma empty_iff (s : string) : empty s = true ↔ s = "".
Proof. destruct s; simpl; split; congruence. Qed.

Lemma getEntity_updateEntity this entity_name value :
  getEntity (updateEntity this entity_name value) entity_name = value.
Proof. unfold getEntity, updateEntity; simpl. by rewrite lookup_insert_eq. Qed.

Lemma getEntity_updateEntity_ne this entity_name value other :
  other ≠ entity_name →
  getEntity (updateEntity this entity_name value) other = getEntity this other.
Proof.
  intros Hne. unfold getEntity, updateEntity; simpl.
  by rewrite lookup_insert_ne.
Qed.

(** The loop of [updateMultipleEntities] leaves the map in which the
    updates take precedence over the stored values. *)
Lemma updateMultipleEntities_values this updates :
  entity_values (updateMultipleEntities this updates)
  = updates ∪ entity_values this.
Proof.
  unfold updateMultipleEntities; simpl.
  apply (map_fold_weak_ind
           (λ values done, values = done ∪ entity_values this)).
  - by rewrite (left_id_L ∅ (∪)).
  - intros k v done values _ ->. by rewrite insert_union_l.
Qed.

Lemma getEntity_updateMultipleEntities this updates entity_name :
  getEntity (updateMultipleEntities this updates) entity_name
  = match updates !! entity_name with
    | Some value => value
    | None => getEntity this entity_name
    end.
Proof.
  unfold getEntity. rewrite updateMultipleEntities_values.
  rewrite lookup_union.
  destruct (updates !! entity_name), (entity_values this !! entity_name);
    reflexivity.
Qed.

Lemma hasEntity_getEntity this entity_name :
  hasEntity this entity_name = negb (empty (getEntity this entity_name)).
Proof.
  unfold hasEntity, getEntity.
  by destruct (entity_values this !! entity_name).
Qed.

Lemma getMissingEntities_spec this entity_name :
  entity_name ∈ getMissingEntities this
  ↔ entity_name ∈ required_entities this ∧ hasEntity this entity_name = false.
Proof.
  unfold getMissingEntities. rewrite !list_elem_of_In, filter_In.
  unfold hasEntity.
  destruct (entity_values this !! entity_name) as [v|]; [|tauto].
  destruct (empty v); simpl; intuition congruence.
Qed.

Lemma isComplete_spec this :
  isComplete this = true
  ↔ ∀ entity_name, entity_name ∈ required_entities this →
                   hasEntity this entity_name = true.
Proof.
  unfold isComplete. split.
  - intros Hnone e He.
    destruct (hasEntity this e) eqn:Hhas; [done|].
    assert (e ∈ getMissingEntities this) as Hin
      by (apply getMissingEntities_spec; done).
    destruct (getMissingEntities this); [by apply elem_of_nil in Hin | done].
  - intros Hall.
    destruct (getMissingEntities this) as [|e l] eqn:Hmiss; [done|].
    assert (e ∈ getMissingEntities this) as Hin by (rewrite Hmiss; left).
    apply getMissingEntities_spec in Hin as [He Hno].
    rewrite (Hall e He) in Hno. done.
Qed.

Lemma required_entities_apply this call :
  required_entities (Spec.apply this call) = required_entities this.
Proof. by destruct call. Qed.

Lemma hasEntity_apply this call entity_name :
  Spec.non_empty_values call = true →
  hasEntity this entity_name = true →
  hasEntity (Spec.apply this call) entity_name = true.
Proof.
  intros Hcall. rewrite !hasEntity_getEntity.
  destruct call as [e v|updates]; simpl in *.
  - destruct (decide (entity_name = e)) as [->|Hne].
    + by rewrite getEntity_updateEntity.
    + by rewrite getEntity_updateEntity_ne.
  - rewrite getEntity_updateMultipleEntities.
    destruct (updates !! entity_name) as [v|] eqn:Hv; [|done].
    apply bool_decide_eq_true_1 in Hcall.
    intros _. by rewrite (Hcall _ _ Hv).
Qed.

(** C2, as amended: an update that maps a slot to the empty string, by
    [updateEntity] or by [updateMultipleEntities], overwrites the stored
    value of that slot with the empty string, so the slot is no longer
    known: [hasEntity] is false and, if the slot is required,
    [getMissingEntities] reports it.  The slots the update does not name
    keep what is stored for them, under either operation, and the list of
    required slots stays as it was. *)
Theorem empty_update_overwrites (this : EntityStateManager)
    (slot : string) (updates : gmap string string) :
  let emptied := <[slot := ""]> updates in
  let single := updateEntity this slot "" in
  let batch := updateMultipleEntities this emptied in
  (getEntity single slot = ""
   ∧ hasEntity single slot = false
   ∧ (slot ∈ required_entities this → slot ∈ getMissingEntities single))
  ∧ (getEntity batch slot = ""
     ∧ hasEntity batch slot = false
     ∧ (slot ∈ required_entities this → slot ∈ getMissingEntities batch))
  ∧ (∀ other, other ≠ slot →
       entity_values single !! other = entity_values this !! other
       ∧ getEntity single other = getEntity this other
       ∧ hasEntity single other = hasEntity this other)
  ∧ (∀ other, emptied !! other = None →
       entity_values batch !! other = entity_values this !! other
       ∧ getEntity batch other = getEntity this other
       ∧ hasEntity batch other = hasEntity this other)
  ∧ required_entities single = required_entities this
  ∧ required_entities batch = required_entities this.
Proof.
  intros emptied single batch.
  assert (getEntity single slot = "") as Hsingle
    by apply getEntity_updateEntity.
  assert (getEntity batch slot = "") as Hbatch.
  { subst batch emptied.
    by rewrite getEntity_updateMultipleEntities, lookup_insert_eq. }
  split_and!; try done.
  - by rewrite hasEntity_getEntity, Hsingle.
  - intros Hrequired. apply getMissingEntities_spec.
    split; [exact Hrequired|]. by rewrite hasEntity_getEntity, Hsingle.
  - by rewrite hasEntity_getEntity, Hbatch.
  - intros Hrequired. apply getMissingEntities_spec.
    split; [exact Hrequired|]. by rewrite hasEntity_getEntity, Hbatch.
  - intros other Hother.
    assert (entity_values single !! other = entity_values this !! other)
      as Hsame by (subst single; simpl; by rewrite lookup_insert_ne).
    unfold getEntity, hasEntity. by rewrite Hsame.
  - intros other Hother.
    assert (entity_values batch !! other = entity_values this !! other)
      as Hsame.
    { subst batch. rewrite updateMultipleEntities_values, lookup_union.
      rewrite Hother. by destruct (entity_values this !! other). }
    unfold getEntity, hasEntity. by rewrite Hsame.
Qed.

(** C2 fails as stated: a slot holding "John" is emptied by an update that
    maps it to the empty string, through either operation, and is then
    reported missing. *)
Lemma empty_update_clears_stored_value :
  let state := updateEntity EntityStateManager_new "caller_name" "John" in
  getEntity state "caller_name" = "John"
  ∧ getEntity (updateEntity state "caller_name" "") "caller_name" = ""
  ∧ getEntity (updateMultipleEntities state {["caller_name" := ""]})
              "caller_name" = ""
  ∧ hasEntity state "caller_name" = true
  ∧ hasEntity (updateEntity state "caller_name" "") "caller_name" = false
  ∧ ("caller_name" ∉ getMissingEntities state)
  ∧ ("caller_name" ∈ getMissingEntities (updateEntity state "caller_name" ""))
  ∧ ("caller_name"
     ∈ getMissingEntities
         (updateMultipleEntities state {["caller_name" := ""]})).
Proof.
  intros state. split_and!; try (vm_compute; reflexivity).
  - vm_compute. intros Hin.
    repeat (apply elem_of_cons in Hin as [Hin|Hin]; [discriminate Hin|]).
    by apply elem_of_nil in Hin.
  - apply getMissingEntities_spec. split; [|reflexivity].
    apply list_elem_of_In. simpl. tauto.
  - apply getMissingEntities_spec. split; [|vm_compute; reflexivity].
    apply list_elem_of_In. simpl. tauto.
Qed.

(** C6: once [isComplete] holds, it still holds after any sequence of
    [updateEntity] and [updateMultipleEntities] calls all of whose values
    are non-empty strings. *)
Theorem completion_is_monotone (this : EntityStateManager)
    (calls : list Spec.apply_call) :
  isComplete this = true →
  Forall (λ call, Spec.non_empty_values call = true) calls →
  isComplete (foldl Spec.apply this calls) = true.
Proof.
  intros Hcomplete Hcalls. revert this Hcomplete.
  induction Hcalls as [|call calls Hcall _ IH]; intros this Hcomplete.
  - exact Hcomplete.
  - simpl. apply IH. apply isComplete_spec.
    intros e He. rewrite required_entities_apply in He.
    apply hasEntity_apply; [done|].
    by apply (proj1 (isComplete_spec this)).
Qed.

Lemma completion_is_monotone_witness :
  let filled :=
    Spec.apply EntityStateManager_new
      (Spec.Batch Doubles.booking) in
  let calls :=
    [Spec.Single "caller_name" "Jane";
     Spec.Batch {["day_preference" := "Monday"]}] in
  isComplete filled = true
  ∧ isComplete (foldl Spec.apply filled calls) = true.
Proof.
  split; [vm_compute; reflexivity|].
  apply completion_is_monotone; [vm_compute; reflexivity|].
  repeat constructor.
Defined.

(** X2: applying the same update a second time changes nothing. *)
Theorem apply_is_idempotent (this : EntityStateManager)
    (call : Spec.apply_call) :
  Spec.apply (Spec.apply this call) call = Spec.apply this call.
Proof.
  destruct call as [entity_name value|updates]; simpl.
  - unfold updateEntity; simpl. by rewrite insert_insert_eq.
  - assert (entity_values
              (updateMultipleEntities (updateMultipleEntities this updates)
                                      updates)
            = entity_values (updateMultipleEntities this updates)) as Hvalues.
    { rewrite !updateMultipleEntities_values.
      by rewrite (assoc_L (∪)), (idemp_L (∪)). }
    unfold updateMultipleEntities in *; simpl in *. by rewrite Hvalues.
Qed.

End EntityState.

(** ** The session registry ([Session.EntityStateManager]) *)
Section Registry.
Import Session.

(** C10: for a session id the registry does not hold, [get_session]
    answers the default-constructed [ConfigModel], all of whose slots are
    empty; that is also what it answers for a session that was just
    created, so the two cannot be told apart through this call. *)
Theorem get_session_unknown_is_blank (this : EntityStateManager)
    (session_id : string) :
  sessions_ this !! session_id = None →
  get_session this session_id = ConfigModel_new
  ∧ get_session this session_id
    = get_session (create_session this session_id) session_id
  ∧ get_empty_entities (get_session this session_id)
    = ["name"; "phone"; "email"; "service"; "day"; "time"; "stylist";
       "notes"].
Proof.
  intros Hunknown. unfold get_session at 1 2 4. rewrite Hunknown.
  repeat split.
  unfold get_session, create_session; simpl. by rewrite lookup_insert_eq.
Qed.

Lemma get_session_unknown_is_blank_witness :
  get_session EntityStateManager_new "nobody" = ConfigModel_new
  ∧ get_session EntityStateManager_new "nobody"
    = get_session (create_session EntityStateManager_new "nobody") "nobody"
  ∧ get_empty_entities (get_session EntityStateManager_new "nobody")
    = ["name"; "phone"; "email"; "service"; "day"; "time"; "stylist";
       "notes"].
Proof.
  apply (get_session_unknown_is_blank EntityStateManager_new "nobody").
  reflexivity.
Defined.

End Registry.

(** ** Grouping the missing slots *)
Section Grouping.
Import Composer.

Lemma areEntitiesRelated_sym a b :
  areEntitiesRelated a b = areEntitiesRelated b a.
Proof.
  unfold areEntitiesRelated, related_pairs; simpl.
  repeat match goal with
         | |- context [String.eqb ?x ?y] => destruct (String.eqb x y)
         end; reflexivity.
Qed.

Lemma areEntitiesRelated_affinity a b :
  areEntitiesRelated a b = true ↔ Spec.affinity a b.
Proof.
  split.
  - unfold areEntitiesRelated, related_pairs; simpl. intros Hrel.
    repeat match type of Hrel with
           | context [String.eqb ?x ?y] =>
               destruct (String.eqb_spec x y); subst; simpl in Hrel
           end;
      try discriminate; eauto using Spec.affinity.
  - induction 1; try reflexivity.
    by rewrite areEntitiesRelated_sym.
Qed.

Lemma not_related_affinity a b :
  areEntitiesRelated a b = false ↔ ¬ Spec.affinity a b.
Proof.
  rewrite <- areEntitiesRelated_affinity.
  destruct (areEntitiesRelated a b); split; congruence.
Qed.

(** What the inner loop leaves: the seed with the first related slot of
    the rest, that slot erased; or the seed alone and the rest untouched
    when no slot of it is related. *)
Lemma pair_loop_cases seed scanned rest :
  (∃ before partner behind,
      rest = before ++ partner :: behind
      ∧ Forall (λ slot, ¬ Spec.affinity seed slot) before
      ∧ Spec.affinity seed partner
      ∧ pair_loop seed scanned rest
        = ([seed; partner], scanned ++ before ++ behind))
  ∨ (Forall (λ slot, ¬ Spec.affinity seed slot) rest
     ∧ pair_loop seed scanned rest = ([seed], scanned ++ rest)).
Proof.
  revert scanned. induction rest as [|e rest IH]; intros scanned; simpl.
  - right. split; [constructor | by rewrite app_nil_r].
  - destruct (areEntitiesRelated seed e) eqn:Hrel.
    + left. exists [], e, rest.
      split_and!; [done | constructor | | done].
      by apply areEntitiesRelated_affinity.
    + apply not_related_affinity in Hrel.
      destruct (IH (scanned ++ [e]))
        as [(before & partner & behind & -> & Hbefore & Hpartner & ->)
           | [Hnone ->]].
      * left. exists (e :: before), partner, behind.
        split_and!; [done | by constructor | done |].
        by rewrite <- !app_assoc.
      * right. split; [by constructor | by rewrite <- app_assoc].
Qed.

Lemma groupMissingEntities_grouping missing :
  Spec.grouping missing (groupMissingEntities missing).
Proof.
  funelim (groupMissingEntities missing); simp groupMissingEntities.
  - constructor.
  - match goal with
    | IH : Spec.grouping _ _ |- _ => rename IH into IHgroups
    end.
    destruct (pair_loop_cases first [] remaining)
      as [(before & partner & behind & -> & Hbefore & Hpartner & Hloop)
         | [Hnone Hloop]];
      rewrite Hloop in *; simpl in *.
    + by apply Spec.seed_paired.
    + by apply Spec.seed_alone.
Qed.

Lemma grouping_sizes pool groups :
  Spec.grouping pool groups →
  Forall (λ group, length group = 1 ∨ length group = 2) groups.
Proof. induction 1; constructor; auto. Qed.

Lemma grouping_pairs_related pool groups :
  Spec.grouping pool groups →
  ∀ a b, [a; b] ∈ groups → Spec.affinity a b.
Proof.
  induction 1 as [|seed before partner behind groups Hrel _ _ IH
                  |seed pool groups _ _ IH];
    intros a b Hin.
  - by apply elem_of_nil in Hin.
  - apply elem_of_cons in Hin as [[= -> ->]|Hin]; [done | by apply IH].
  - apply elem_of_cons in Hin as [[=]|Hin]. by apply IH.
Qed.

(** The planner's algorithm fixes its result. *)
Lemma first_related_unique seed before partner behind before' partner' behind' :
  before ++ partner :: behind = before' ++ partner' :: behind' →
  Forall (λ slot, ¬ Spec.affinity seed slot) before →
  Spec.affinity seed partner →
  Forall (λ slot, ¬ Spec.affinity seed slot) before' →
  Spec.affinity seed partner' →
  before = before' ∧ partner = partner' ∧ behind = behind'.
Proof.
  revert before'. induction before as [|x before IH]; intros before' Heq Hb Hp Hb' Hp'.
  - destruct before' as [|y before']; simpl in Heq.
    + by injection Heq as -> ->.
    + injection Heq as -> _. by inversion Hb'.
  - destruct before' as [|y before']; simpl in Heq.
    + injection Heq as -> _. by inversion Hb.
    + injection Heq as -> Heq. inversion Hb; inversion Hb'; subst.
      destruct (IH before' Heq) as (-> & -> & ->); done.
Qed.

Lemma grouping_deterministic pool groups groups' :
  Spec.grouping pool groups → Spec.grouping pool groups' → groups = groups'.
Proof.
  intros Hg. revert groups'.
  induction Hg as [|seed before partner behind groups Hrel Hbefore _ IH
                   |seed pool groups Hnone _ IH];
    intros groups' Hg'; inversion Hg'; subst.
  - reflexivity.
  - match goal with
    | Heq : ?before' ++ ?partner' :: ?behind' = _ ++ _ :: _ |- _ =>
        symmetry in Heq;
        assert (before = before' ∧ partner = partner' ∧ behind = behind')
          as (<- & <- & <-)
          by (eapply first_related_unique; eauto)
    end.
    f_equal. by apply IH.
  - exfalso.
    match goal with
    | Hall : Forall _ (_ ++ _ :: _) |- _ =>
        apply Forall_app in Hall as [_ Hall]; by inversion Hall
    end.
  - exfalso.
    apply Forall_app in Hnone as [_ Hnone]. by inversion Hnone.
  - f_equal. by apply IH.
Qed.

Lemma advanced_pair_loop seed scanned rest :
  Advanced.pair_loop seed scanned rest = pair_loop seed scanned rest.
Proof.
  revert scanned; induction rest as [|e rest IH]; intros scanned; simpl;
    [reflexivity|].
  change (Advanced.areEntitiesRelated seed e)
    with (areEntitiesRelated seed e).
  destruct (areEntitiesRelated seed e); [reflexivity | apply IH].
Qed.

Lemma groupEntitiesForComposition_same missing :
  Advanced.groupEntitiesForComposition missing = groupMissingEntities missing.
Proof.
  funelim (groupMissingEntities missing);
    simp groupMissingEntities groupEntitiesForComposition; [reflexivity|].
  rewrite !advanced_pair_loop. f_equal.
  match goal with
  | IH : Advanced.groupEntitiesForComposition _ = _ |- _ => exact IH
  end.
Qed.

Lemma found_in_elem_of v x :
  Session.found_in v x = bool_decide (x ∈ v).
Proof.
  unfold Session.found_in. induction v as [|y v IH].
  - symmetry. apply bool_decide_eq_false_2, not_elem_of_nil.
  - cbn [existsb]. rewrite IH.
    destruct (String.eqb_spec x y) as [->|Hne]; cbn [orb].
    + symmetry. apply bool_decide_eq_true_2. left.
    + apply bool_decide_ext. rewrite elem_of_cons. tauto.
Qed.

(** C5, as amended: [ComposerCrew::groupMissingEntities] and
    [AdvancedSessionController::groupEntitiesForComposition] group a list
    of missing slots by the planner's algorithm (first ungrouped slot as
    seed, paired with the first remaining slot related to it by the
    symmetric affinity table, both removed; the seed alone when nothing
    related remains; until the pool is empty), so every group they emit
    has one or two slots and two slots of a group are always related.
    [SessionController::group_entities] instead answers a single group:
    name and phone when both are missing, else day and time when both are
    missing, else the first two missing slots (or the only one, or none),
    related or not. *)
Theorem grouping_of_missing_slots (missing : list string) :
  let groups := groupMissingEntities missing in
  Spec.grouping missing groups
  ∧ (∀ groups', Spec.grouping missing groups' → groups' = groups)
  ∧ Advanced.groupEntitiesForComposition missing = groups
  ∧ Forall (λ group, length group = 1 ∨ length group = 2) groups
  ∧ (∀ a b, [a; b] ∈ groups → Spec.affinity a b)
  ∧ Session.group_entities missing
    = if bool_decide ("name" ∈ missing) && bool_decide ("phone" ∈ missing)
      then ["name"; "phone"]
      else if bool_decide ("day" ∈ missing) && bool_decide ("time" ∈ missing)
           then ["day"; "time"]
           else take 2 missing.
Proof.
  pose proof (groupMissingEntities_grouping missing) as Hgrouping.
  simpl. repeat split.
  - exact Hgrouping.
  - intros groups' Hgroups'.
    by apply (grouping_deterministic missing).
  - apply groupEntitiesForComposition_same.
  - by apply (grouping_sizes missing).
  - by apply (grouping_pairs_related missing).
  - unfold Session.group_entities. rewrite !found_in_elem_of.
    destruct (bool_decide ("name" ∈ missing) && bool_decide ("phone" ∈ missing));
      [reflexivity|].
    destruct (bool_decide ("day" ∈ missing) && bool_decide ("time" ∈ missing));
      [reflexivity|].
    by destruct missing as [|e0 [|e1 rest]].
Qed.

(** C5 fails as stated: [SessionController::group_entities] pairs the
    missing slots email and service, which no affinity table relates,
    under the registry's names or the crews'; and with service, name and
    phone missing its group is not seeded by the first missing slot. *)
Lemma group_entities_pairs_unrelated_slots :
  Session.group_entities ["email"; "service"] = ["email"; "service"]
  ∧ ¬ Spec.affinity "email" "service"
  ∧ ¬ Spec.affinity (Session.cpp_entity "email") (Session.cpp_entity "service")
  ∧ Session.group_entities ["service"; "name"; "phone"] = ["name"; "phone"]
  ∧ groupMissingEntities ["service_type"; "caller_name"; "phone_number"]
    = [["service_type"]; ["caller_name"; "phone_number"]].
Proof.
  repeat split; try reflexivity;
    apply not_related_affinity; reflexivity.
Qed.

End Grouping.

(** ** The composer's generation gate ([ComposerCrew::composeQuestion]) *)
Section ComposerGate.
Import Composer.
Context {L : Type} `{LLMInterface L}.

Ltac run :=
  unfold composeQuestion, try_llm, on_llm, generateWithLLM, try_catch,
    self, update, mbind, M_bind, mret, M_ret in *.

(** [generateWithLLM] hands a [std::exception] of the generator to its
    handler and answers with an invalid outcome; an outcome that is valid
    carries the method [llm_primary]; an object of any other type leaves
    it. *)
Lemma generateWithLLM_cases request llm :
  match generateWithLLM request llm with
  | (Returns outcome, _) =>
      is_valid outcome = true → generation_method outcome = "llm_primary"
  | (Throws e, _) => e = other_object
  end.
Proof.
  run.
  destruct (generateQuestion request llm) as [[question|[|]] llm1];
    [| done | done].
  destruct (empty question); simpl; [done|].
  by destruct (assessQuestionQuality question request llm1)
    as [[quality|[|]] llm2].
Qed.

Lemma generateWithLLM_throwing request llm llm' :
  generateQuestion request llm = (Throws std_exception, llm') →
  generateWithLLM request llm = (Returns CompositionResult_new, llm').
Proof. intros Hthrows. run. by rewrite Hthrows. Qed.

Lemma attempts_methods n request llm :
  Forall (λ outcome,
            is_valid outcome = true → generation_method outcome = "llm_primary")
         (Spec.attempts n request llm).
Proof.
  revert llm. induction n as [|n IH]; intros llm; [constructor|].
  cbn [Spec.attempts].
  pose proof (generateWithLLM_cases request llm) as Hcases.
  destruct (generateWithLLM request llm) as [[outcome|e] llm'];
    [|constructor].
  constructor; [exact Hcases | apply IH].
Qed.

(** The retry loop stops at the first retry that improves on the outcome
    it started from, and ends with that retry; it ends with the outcome
    it started from when all [rounds] retries were made and none
    improved; and it is left by whatever [generateWithLLM] lets through,
    when that happens before an improvement.  The generator is left as
    the calls made leave it. *)
Lemma retry_loop_first_improvement rounds request first llm :
  match list_find (Spec.improves first) (Spec.attempts rounds request llm) with
  | Some (i, retry) =>
      retry_loop rounds request first llm
      = (Returns retry, Spec.after_attempts (S i) request llm)
  | None =>
      if (length (Spec.attempts rounds request llm) =? rounds)%nat
      then retry_loop rounds request first llm
           = (Returns first, Spec.after_attempts rounds request llm)
      else retry_loop rounds request first llm
           = (Throws other_object,
              Spec.after_attempts
                (S (length (Spec.attempts rounds request llm))) request llm)
  end.
Proof.
  revert llm. induction rounds as [|rounds IH]; intros llm; [reflexivity|].
  cbn [Spec.attempts Spec.after_attempts retry_loop]. unfold mbind, M_bind.
  pose proof (generateWithLLM_cases request llm) as Hcases.
  destruct (generateWithLLM request llm) as [[outcome|e] llm'] eqn:Hrun.
  - cbn [list_find snd].
    destruct (decide (Spec.improves first outcome)) as [Hbeats|Hbeats];
      unfold Spec.improves in Hbeats.
    + by rewrite Hbeats.
    + apply not_true_is_false in Hbeats. rewrite Hbeats.
      specialize (IH llm').
      destruct (list_find (Spec.improves first)
                  (Spec.attempts rounds request llm')) as [[i retry]|];
        simpl; exact IH.
  - subst e. reflexivity.
Qed.

Lemma retry_loop_cases rounds request first llm :
  match retry_loop rounds request first llm with
  | (Returns adopted, _) =>
      adopted = first ∨ adopted ∈ Spec.attempts rounds request llm
  | (Throws e, _) => e = other_object
  end.
Proof.
  pose proof (retry_loop_first_improvement rounds request first llm) as Hloop.
  destruct (list_find _ _) as [[i retry]|] eqn:Hfind.
  - rewrite Hloop. right.
    apply list_find_Some in Hfind as (Hi & _).
    by eapply list_elem_of_lookup_2.
  - destruct (_ =? _)%nat; rewrite Hloop; [by left | done].
Qed.

(** What the guarded block of [composeQuestion] yields is either invalid
    or an answer of the generator; it is left by what the availability
    check throws, and by what [generateWithLLM] lets through. *)
Lemma try_llm_cases (this : ComposerCrew L) request llm :
  match try_llm this request llm with
  | (Returns tried, _) =>
      is_valid tried = true → generation_method tried = "llm_primary"
  | (Throws e, _) =>
      (isAvailable llm).1 = Throws e
      ∨ (e = other_object ∧ (isAvailable llm).1 = Returns true)
  end.
Proof.
  unfold try_llm, mbind, M_bind.
  destruct (isAvailable llm) as [[[|]|e] llm1]; simpl; [| done | by left].
  pose proof (generateWithLLM_cases request llm1) as Hfirst.
  destruct (generateWithLLM request llm1) as [[first|e] llm2]; [|by right].
  destruct (is_valid first
            && (quality_score first <? quality_threshold this)%float);
    [|exact Hfirst].
  pose proof (retry_loop_cases (Z.to_nat (max_retries this)) request first llm2)
    as Hloop.
  destruct (retry_loop _ _ _ _) as [[adopted|e] llm3]; [|by right].
  destruct Hloop as [->|Hin]; [exact Hfirst|].
  pose proof (attempts_methods (Z.to_nat (max_retries this)) request llm2)
    as Hmethods.
  rewrite Forall_forall in Hmethods. by apply Hmethods.
Qed.

Lemma generateWithTemplate_valid (this : ComposerCrew L) request rd :
  is_valid (generateWithTemplate this request rd) = true
  ∧ (generation_method (generateWithTemplate this request rd) = "template"
     ∨ generation_method (generateWithTemplate this request rd)
       = "template_fallback").
Proof.
  unfold generateWithTemplate.
  destruct (entity_templates this !! _) as [[|v vs]|]; simpl; auto.
Qed.

(** [composeQuestion] once the guarded block has produced [tried]. *)
Lemma composeQuestion_after_try this request rd llm tried llm' :
  llm_interface this = Some llm →
  try_llm this (limit request) llm = (Returns tried, llm') →
  composeQuestion request rd this
  = (let result :=
       if negb (is_valid tried)
          || (quality_score tried <? quality_threshold this)%float
       then generateWithTemplate this (limit request) rd
       else tried in
     Returns {| generated_question := generated_question result;
                targeted_entities := missing_entities (limit request);
                quality_score := quality_score result;
                is_valid := is_valid result;
                generation_method := generation_method result |},
     set_llm_interface this (Some llm')).
Proof.
  intros Hllm Htry. unfold composeQuestion, self, mbind, M_bind, on_llm.
  rewrite Hllm, Htry. reflexivity.
Qed.

(** [composeQuestion] has no handler of its own: what leaves the guarded
    block leaves it. *)
Lemma composeQuestion_after_throw this request rd llm e llm' :
  llm_interface this = Some llm →
  try_llm this (limit request) llm = (Throws e, llm') →
  composeQuestion request rd this
  = (Throws e, set_llm_interface this (Some llm')).
Proof.
  intros Hllm Htry. unfold composeQuestion, self, mbind, M_bind, on_llm.
  rewrite Hllm, Htry. reflexivity.
Qed.

Lemma composeQuestion_without_llm this request rd :
  llm_interface this = None →
  composeQuestion request rd this
  = (let result := generateWithTemplate this (limit request) rd in
     Returns {| generated_question := generated_question result;
                targeted_entities := missing_entities (limit request);
                quality_score := quality_score result;
                is_valid := is_valid result;
                generation_method := generation_method result |},
     this).
Proof.
  intros Hllm. unfold composeQuestion, self, mbind, M_bind, mret, M_ret.
  rewrite Hllm. reflexivity.
Qed.

Lemma composeQuestion_rejected_try this request rd llm tried llm' :
  llm_interface this = Some llm →
  try_llm this (limit request) llm = (Returns tried, llm') →
  Spec.rejected this tried →
  ∃ result,
    composeQuestion request rd this
    = (Returns result, set_llm_interface this (Some llm'))
    ∧ is_valid result = true
    ∧ generated_question result
      = generated_question (generateWithTemplate this (limit request) rd)
    ∧ generation_method result
      = generation_method (generateWithTemplate this (limit request) rd).
Proof.
  intros Hllm Htry Hrejected.
  rewrite (composeQuestion_after_try _ _ _ _ _ _ Hllm Htry).
  assert (negb (is_valid tried)
          || (quality_score tried <? quality_threshold this)%float = true)
    as -> by (destruct Hrejected as [-> | ->]; [done | apply orb_true_r]).
  eexists. split; [reflexivity|]. cbn zeta. simpl.
  split_and!; [|done..]. apply generateWithTemplate_valid.
Qed.

(** C1, as amended: [composeQuestion] never returns an invalid result, and
    it returns a valid result under the method [template] or
    [template_fallback] when no generator is configured; when the
    generator reports unavailable; when it reports available and its
    generation call throws a [std::exception]; and when it reports
    available and the outcome the generator calls made leave the gate
    with is invalid or below the quality threshold: the first outcome if
    that is invalid (no retry is made then), else, the first outcome
    being below the threshold, the first retry that improves on it, or
    the first outcome again when all [max_retries] retries were made and
    none improved. *)
Theorem composeQuestion_falls_back_to_template (this : ComposerCrew L)
    (request : CompositionRequest) (rd : N) :
  (∀ result this',
     composeQuestion request rd this = (Returns result, this') →
     is_valid result = true)
  ∧ (llm_interface this = None
     ∨ (∃ llm llm1,
          llm_interface this = Some llm
          ∧ isAvailable llm = (Returns false, llm1))
     ∨ (∃ llm llm1 llm2,
          llm_interface this = Some llm
          ∧ isAvailable llm = (Returns true, llm1)
          ∧ generateQuestion (limit request) llm1
            = (Throws std_exception, llm2))
     ∨ (∃ llm llm1 first llm2,
          llm_interface this = Some llm
          ∧ isAvailable llm = (Returns true, llm1)
          ∧ generateWithLLM (limit request) llm1 = (Returns first, llm2)
          ∧ (is_valid first = false
             ∨ (quality_score first <? quality_threshold this)%float = true
               ∧ let rounds := Z.to_nat (max_retries this) in
                 let retries := Spec.attempts rounds (limit request) llm2 in
                 match list_find (Spec.improves first) retries with
                 | Some (_, retry) => Spec.rejected this retry
                 | None => length retries = rounds
                 end)) →
     ∃ result this',
       composeQuestion request rd this = (Returns result, this')
       ∧ is_valid result = true
       ∧ (generation_method result = "template"
          ∨ generation_method result = "template_fallback")).
Proof.
  pose proof (generateWithTemplate_valid this (limit request) rd)
    as [Hvalid Hmethod].
  split.
  - intros result this' Hrun.
    destruct (llm_interface this) as [llm|] eqn:Hllm.
    + destruct (try_llm this (limit request) llm) as [[tried|e] llm'] eqn:Htry.
      * rewrite (composeQuestion_after_try _ _ _ _ _ _ Hllm Htry) in Hrun.
        injection Hrun as <- _. cbn zeta. cbn [is_valid].
        destruct (is_valid tried) eqn:Htried; cbn [negb orb]; [|exact Hvalid].
        destruct (quality_score tried <? quality_threshold this)%float;
          [exact Hvalid | exact Htried].
      * by rewrite (composeQuestion_after_throw _ _ _ _ _ _ Hllm Htry) in Hrun.
    + rewrite (composeQuestion_without_llm _ _ _ Hllm) in Hrun.
      by injection Hrun as <- _.
  - assert (∀ llm tried llm',
              llm_interface this = Some llm →
              try_llm this (limit request) llm = (Returns tried, llm') →
              Spec.rejected this tried →
              ∃ result this',
                composeQuestion request rd this = (Returns result, this')
                ∧ is_valid result = true
                ∧ (generation_method result = "template"
                   ∨ generation_method result = "template_fallback"))
      as Hrejected.
    { intros llm tried llm' Hllm Htry Htried.
      destruct (composeQuestion_rejected_try _ request rd _ _ _ Hllm Htry Htried)
        as (result & Hrun & Hresult & _ & Hresult_method).
      exists result, (set_llm_interface this (Some llm')).
      split_and!; [done..|]. by rewrite Hresult_method. }
    intros [Hnone
           |[(llm & llm1 & Hllm & Hoff)
            |[(llm & llm1 & llm2 & Hllm & Hon & Hthrows)
             |(llm & llm1 & first & llm2 & Hllm & Hon & Hfirst & Hleft)]]].
    + rewrite (composeQuestion_without_llm _ _ _ Hnone). by eexists _, _.
    + apply (Hrejected llm CompositionResult_new llm1 Hllm); [|by left].
      unfold try_llm, mbind, M_bind. by rewrite Hoff.
    + apply (Hrejected llm CompositionResult_new llm2 Hllm); [|by left].
      unfold try_llm, mbind, M_bind.
      by rewrite Hon, (generateWithLLM_throwing _ _ _ Hthrows).
    + destruct (is_valid first) eqn:Hfirst_valid.
      * destruct Hleft as [?|[Hlow Hretries]]; [done|].
        cbv zeta in Hretries.
        pose proof (retry_loop_first_improvement
                      (Z.to_nat (max_retries this)) (limit request) first llm2)
          as Hloop.
        assert (try_llm this (limit request) llm
                = retry_loop (Z.to_nat (max_retries this)) (limit request)
                             first llm2) as Htry.
        { unfold try_llm, mbind, M_bind.
          by rewrite Hon, Hfirst, Hfirst_valid, Hlow. }
        destruct (list_find _ _) as [[i retry]|].
        -- rewrite Hloop in Htry. by apply (Hrejected llm retry _ Hllm Htry).
        -- rewrite Hretries, Nat.eqb_refl in Hloop. rewrite Hloop in Htry.
           apply (Hrejected llm first _ Hllm Htry). by right.
      * apply (Hrejected llm first llm2 Hllm); [|by left].
        unfold try_llm, mbind, M_bind.
        by rewrite Hon, Hfirst, Hfirst_valid.
Qed.

(** C9: [composeQuestion] works on the request cut down to its first two
    missing entities: its answer is the one it gives for the request so
    cut, whatever lay beyond; when it returns, the result targets exactly
    those first two entities, hence at most two; and it returns unless
    the generator's availability check throws, or a later call of the
    generator throws an object that is not a [std::exception]. *)
Theorem composeQuestion_targets_at_most_two (this : ComposerCrew L)
    (request : CompositionRequest) (rd : N) :
  let truncated :=
    {| missing_entities := take 2 (missing_entities request);
       known_entities := known_entities request;
       conversation_context := conversation_context request |} in
  composeQuestion request rd this = composeQuestion truncated rd this
  ∧ match composeQuestion request rd this with
    | (Returns result, _) =>
        targeted_entities result = take 2 (missing_entities request)
        ∧ length (targeted_entities result) ≤ 2
    | (Throws e, _) =>
        ∃ llm,
          llm_interface this = Some llm
          ∧ ((isAvailable llm).1 = Throws e
             ∨ (e = other_object ∧ (isAvailable llm).1 = Returns true))
    end.
Proof.
  intros truncated.
  assert (limit request = truncated) as Hlimit.
  { unfold limit, truncated. destruct request as [missing known context].
    simpl. destruct (2 <? length missing)%nat eqn:Hlen; [reflexivity|].
    apply Nat.ltb_ge in Hlen. by rewrite take_ge. }
  assert (limit truncated = truncated) as Hlimit'.
  { unfold limit, truncated at 1. cbn [missing_entities].
    destruct (2 <? length (take 2 (missing_entities request)))%nat eqn:Hlen;
      [|reflexivity].
    apply Nat.ltb_lt in Hlen. rewrite length_take in Hlen. lia. }
  split.
  - unfold composeQuestion. by rewrite Hlimit, Hlimit'.
  - destruct (llm_interface this) as [llm|] eqn:Hllm.
    + pose proof (try_llm_cases this (limit request) llm) as Hcases.
      destruct (try_llm this (limit request) llm) as [[tried|e] llm'] eqn:Htry.
      * rewrite (composeQuestion_after_try _ _ _ _ _ _ Hllm Htry).
        cbn zeta. cbn [targeted_entities]. rewrite Hlimit. simpl.
        split; [reflexivity|]. rewrite length_take. lia.
      * rewrite (composeQuestion_after_throw _ _ _ _ _ _ Hllm Htry).
        by exists llm.
    + rewrite (composeQuestion_without_llm _ _ _ Hllm).
      cbn zeta. cbn [targeted_entities]. rewrite Hlimit. simpl.
      split; [reflexivity|]. rewrite length_take. lia.
Qed.

(** X1: what the generator's availability check throws leaves
    [composeQuestion].  The task that [composeQuestionAsync] queues catches
    a [std::exception] and answers with a result whose [is_valid] is
    [false]; an object of another type leaves the task too. *)
Theorem composeQuestion_availability_check_throws (this : ComposerCrew L)
    (request : CompositionRequest) (rd : N) (llm llm1 : L) (e : thrown) :
  llm_interface this = Some llm →
  isAvailable llm = (Throws e, llm1) →
  composeQuestion request rd this
  = (Throws e, set_llm_interface this (Some llm1))
  ∧ match e with
    | std_exception =>
        ∃ result,
          composition_task request rd this
          = (Returns result, set_llm_interface this (Some llm1))
          ∧ is_valid result = false
    | other_object =>
        composition_task request rd this
        = (Throws other_object, set_llm_interface this (Some llm1))
    end.
Proof.
  intros Hllm Hthrows.
  assert (composeQuestion request rd this
          = (Throws e, set_llm_interface this (Some llm1))) as Hrun.
  { apply (composeQuestion_after_throw _ _ _ llm); [exact Hllm|].
    unfold try_llm, mbind, M_bind. by rewrite Hthrows. }
  split; [exact Hrun|].
  unfold composition_task, try_catch. rewrite Hrun.
  destruct e; [by eexists | reflexivity].
Qed.

(** X3: without a generator, two calls of [composeQuestion] on the same
    request may differ in the text, which depends on the entropy drawn, but
    not in quality, validity or method. *)
Theorem template_choice_only_changes_text (this : ComposerCrew L)
    (request : CompositionRequest) (rd rd' : N) :
  llm_interface this = None →
  ∃ result result',
    composeQuestion request rd this = (Returns result, this)
    ∧ composeQuestion request rd' this = (Returns result', this)
    ∧ quality_score result = quality_score result'
    ∧ is_valid result = is_valid result'
    ∧ generation_method result = generation_method result'
    ∧ targeted_entities result = targeted_entities result'.
Proof.
  intros Hnone. rewrite !(composeQuestion_without_llm _ _ _ Hnone).
  eexists _, _. split_and!; try reflexivity; cbn zeta; simpl;
    unfold generateWithTemplate;
    by destruct (entity_templates this !! _) as [[|v vs]|].
Qed.

End ComposerGate.

(** ** The closer's generation gate ([CloserCrew::generateClosing]) *)
Section CloserGate.
Import Closer.
Context {L : Type} `{Composer.LLMInterface L}.

Lemma closing_generateWithLLM_cases request llm :
  match generateWithLLM request llm with
  | (Returns outcome, _) =>
      is_valid outcome = true → generation_method outcome = "llm_primary"
  | (Throws e, _) => e = other_object
  end.
Proof.
  unfold generateWithLLM, try_catch, mbind, M_bind, mret, M_ret.
  destruct (Composer.generateQuestion _ llm) as [[closing|[|]] llm1];
    [| done | done].
  destruct (empty closing); simpl; [done|].
  by destruct (Composer.assessQuestionQuality closing _ llm1)
    as [[confidence|[|]] llm2].
Qed.

Lemma closing_attempts_methods n request llm :
  Forall (λ outcome,
            is_valid outcome = true → generation_method outcome = "llm_primary")
         (Spec.closing_attempts n request llm).
Proof.
  revert llm. induction n as [|n IH]; intros llm; [constructor|].
  cbn [Spec.closing_attempts].
  pose proof (closing_generateWithLLM_cases request llm) as Hcases.
  destruct (generateWithLLM request llm) as [[outcome|e] llm'];
    [|constructor].
  constructor; [exact Hcases | apply IH].
Qed.

(** The closer's retry loop is the composer's. *)
Lemma closing_retry_loop_first_improvement rounds request first llm :
  match list_find (Spec.closing_improves first)
                  (Spec.closing_attempts rounds request llm) with
  | Some (i, retry) =>
      retry_loop rounds request first llm
      = (Returns retry, Spec.after_closing_attempts (S i) request llm)
  | None =>
      if (length (Spec.closing_attempts rounds request llm) =? rounds)%nat
      then retry_loop rounds request first llm
           = (Returns first, Spec.after_closing_attempts rounds request llm)
      else retry_loop rounds request first llm
           = (Throws other_object,
              Spec.after_closing_attempts
                (S (length (Spec.closing_attempts rounds request llm)))
                request llm)
  end.
Proof.
  revert llm. induction rounds as [|rounds IH]; intros llm; [reflexivity|].
  cbn [Spec.closing_attempts Spec.after_closing_attempts retry_loop].
  unfold mbind, M_bind.
  pose proof (closing_generateWithLLM_cases request llm) as Hcases.
  destruct (generateWithLLM request llm) as [[outcome|e] llm'] eqn:Hrun.
  - cbn [list_find snd].
    destruct (decide (Spec.closing_improves first outcome)) as [Hbeats|Hbeats];
      unfold Spec.closing_improves in Hbeats.
    + by rewrite Hbeats.
    + apply not_true_is_false in Hbeats. rewrite Hbeats.
      specialize (IH llm').
      destruct (list_find (Spec.closing_improves first)
                  (Spec.closing_attempts rounds request llm'))
        as [[i retry]|];
        simpl; exact IH.
  - subst e. reflexivity.
Qed.

Lemma closing_retry_loop_cases rounds request first llm :
  match retry_loop rounds request first llm with
  | (Returns adopted, _) =>
      adopted = first ∨ adopted ∈ Spec.closing_attempts rounds request llm
  | (Throws e, _) => e = other_object
  end.
Proof.
  pose proof (closing_retry_loop_first_improvement rounds request first llm)
    as Hloop.
  destruct (list_find _ _) as [[i retry]|] eqn:Hfind.
  - rewrite Hloop. right.
    apply list_find_Some in Hfind as (Hi & _).
    by eapply list_elem_of_lookup_2.
  - destruct (_ =? _)%nat; rewrite Hloop; [by left | done].
Qed.

(** X4: the retry loop of [generateClosing] is the composer's: it ends with
    the first of its retries whose confidence exceeds that of the outcome
    it started from, or with that outcome when all [rounds] retries were
    made and none does.  It does not end at all when, before any
    improvement, a retry throws an object that is not a [std::exception]:
    that object leaves the loop. *)
Theorem closing_retry_adopts_first_improvement (rounds : nat)
    (request : ClosingRequest) (first : ClosingResult) (llm : L) :
  let retries := Spec.closing_attempts rounds request llm in
  match List.find
          (λ retry, (confidence_score first <? confidence_score retry)%float)
          retries with
  | Some retry =>
      ∃ llm', retry_loop rounds request first llm = (Returns retry, llm')
  | None =>
      if (length retries =? rounds)%nat
      then ∃ llm', retry_loop rounds request first llm = (Returns first, llm')
      else ∃ llm',
             retry_loop rounds request first llm = (Throws other_object, llm')
  end.
Proof.
  cbv zeta. revert llm. induction rounds as [|rounds IH]; intros llm.
  - by eexists.
  - cbn [retry_loop Spec.closing_attempts]. unfold mbind, M_bind.
    pose proof (closing_generateWithLLM_cases request llm) as Hcases.
    destruct (generateWithLLM request llm) as [[outcome|e] llm'].
    + cbn [List.find length Nat.eqb].
      destruct (confidence_score first <? confidence_score outcome)%float.
      * by eexists.
      * apply IH.
    + subst e. by eexists.
Qed.

Lemma closing_try_llm_cases (this : CloserCrew L) request llm :
  match try_llm this request llm with
  | (Returns tried, _) =>
      is_valid tried = true → generation_method tried = "llm_primary"
  | (Throws e, _) =>
      (Composer.isAvailable llm).1 = Throws e
      ∨ (e = other_object ∧ (Composer.isAvailable llm).1 = Returns true)
  end.
Proof.
  unfold try_llm, mbind, M_bind.
  destruct (Composer.isAvailable llm) as [[[|]|e] llm1]; simpl;
    [| done | by left].
  pose proof (closing_generateWithLLM_cases request llm1) as Hfirst.
  destruct (generateWithLLM request llm1) as [[first|e] llm2]; [|by right].
  destruct (is_valid first
            && (confidence_score first <? confidence_threshold this)%float);
    [|exact Hfirst].
  pose proof (closing_retry_loop_cases
                (Z.to_nat (max_retries this)) request first llm2) as Hloop.
  destruct (retry_loop _ _ _ _) as [[adopted|e] llm3]; [|by right].
  destruct Hloop as [->|Hin]; [exact Hfirst|].
  pose proof (closing_attempts_methods
                (Z.to_nat (max_retries this)) request llm2) as Hmethods.
  rewrite Forall_forall in Hmethods. by apply Hmethods.
Qed.

(** [generateClosing], on data that passed validation, once the guarded
    block has produced [tried]. *)
Lemma generateClosing_after_try (this : CloserCrew L) request
    rd_closing rd_confirmation rd_number llm tried llm' :
  validateAppointmentData request = true →
  llm_interface this = Some llm →
  try_llm this request llm = (Returns tried, llm') →
  ∃ result,
    generateClosing request rd_closing rd_confirmation rd_number this
    = (Returns result, set_llm_interface this (Some llm'))
    ∧ appointment_summary result = formatAppointmentDetails request
    ∧ confirmation_details result = generateConfirmationNumber rd_number
    ∧ next_steps result = generateNextSteps request
    ∧ needs_followup result = needsFollowup request
    ∧ if negb (is_valid tried)
         || (confidence_score tried <? confidence_threshold this)%float
      then closing_message result
           = selectClosingTemplate this request rd_closing
             +:+ newline +:+ newline
             +:+ formatAppointmentDetails request +:+ newline +:+ newline
             +:+ selectConfirmationTemplate this request rd_confirmation
           ∧ confidence_score result = f32_0_85
           ∧ is_valid result = true
           ∧ generation_method result = "template"
      else closing_message result = closing_message tried
           ∧ confidence_score result = confidence_score tried
           ∧ is_valid result = is_valid tried
           ∧ generation_method result = generation_method tried.
Proof.
  intros Hvalidate Hllm Htry. unfold generateClosing.
  rewrite Hvalidate. cbn [negb].
  unfold self, on_llm, mbind, M_bind, mret, M_ret.
  rewrite Hllm, Htry. cbn [confidence_threshold set_llm_interface].
  destruct (negb (is_valid tried)
            || (confidence_score tried <? confidence_threshold this)%float);
    simpl; eexists; (split; [reflexivity|]); by split_and!.
Qed.

Lemma generateClosing_after_throw (this : CloserCrew L) request
    rd_closing rd_confirmation rd_number llm e llm' :
  validateAppointmentData request = true →
  llm_interface this = Some llm →
  try_llm this request llm = (Throws e, llm') →
  generateClosing request rd_closing rd_confirmation rd_number this
  = (Throws e, set_llm_interface this (Some llm')).
Proof.
  intros Hvalidate Hllm Htry. unfold generateClosing.
  rewrite Hvalidate. cbn [negb].
  unfold self, on_llm, mbind, M_bind, mret, M_ret.
  by rewrite Hllm, Htry.
Qed.

End CloserGate.

(** ** The retry step of the two gates *)
Section RetryStep.
Import Composer.
Context {L : Type} `{LLMInterface L}.

(** C3, as amended: in [composeQuestion], and in [generateClosing] on data
    that passed validation, when the generator's first outcome is valid
    but below the threshold, the gate retries up to [max_retries] times
    and stops at the first retry that improves on the first outcome,
    adopting that retry: no further call is made, and the generator is
    left as the calls made leave it.  When all retries were made and none
    improved, it keeps the first outcome; it does not look for the best
    of all retries.  If the adopted outcome is valid and not below the
    threshold it is returned, under the method [llm_primary] (there is no
    method [primary_retry]); otherwise the gate falls through to the
    template fallback.  (A retry that throws something other than a
    [std::exception] before any improvement leaves the gate.) *)
Theorem retry_adopts_first_improvement :
  (∀ (this : ComposerCrew L) (request : CompositionRequest) (rd : N)
     (llm llm1 llm2 : L) (first : CompositionResult),
     llm_interface this = Some llm →
     isAvailable llm = (Returns true, llm1) →
     generateWithLLM (limit request) llm1 = (Returns first, llm2) →
     is_valid first = true →
     (quality_score first <? quality_threshold this)%float = true →
     let rounds := Z.to_nat (max_retries this) in
     let retries := Spec.attempts rounds (limit request) llm2 in
     let answers adopted calls :=
       ∃ result,
         composeQuestion request rd this
         = (Returns result,
            set_llm_interface this
              (Some (Spec.after_attempts calls (limit request) llm2)))
         ∧ is_valid result = true
         ∧ if is_valid adopted
              && negb (quality_score adopted <? quality_threshold this)%float
           then generated_question result = generated_question adopted
                ∧ quality_score result = quality_score adopted
                ∧ generation_method result = "llm_primary"
           else generated_question result
                = generated_question
                    (generateWithTemplate this (limit request) rd)
                ∧ generation_method result
                  = generation_method
                      (generateWithTemplate this (limit request) rd) in
     match list_find (Spec.improves first) retries with
     | Some (i, retry) => answers retry (S i)
     | None =>
         if (length retries =? rounds)%nat
         then answers first rounds
         else composeQuestion request rd this
              = (Throws other_object,
                 set_llm_interface this
                   (Some (Spec.after_attempts (S (length retries))
                            (limit request) llm2)))
     end)
  ∧ (∀ (crew : Closer.CloserCrew L) (closing : Closer.ClosingRequest)
       (rd_closing rd_confirmation rd_number : N)
       (llm llm1 llm2 : L) (first : Closer.ClosingResult),
       Closer.validateAppointmentData closing = true →
       Closer.llm_interface crew = Some llm →
       isAvailable llm = (Returns true, llm1) →
       Closer.generateWithLLM closing llm1 = (Returns first, llm2) →
       Closer.is_valid first = true →
       (Closer.confidence_score first <? Closer.confidence_threshold crew)%float
       = true →
       let rounds := Z.to_nat (Closer.max_retries crew) in
       let retries := Spec.closing_attempts rounds closing llm2 in
       let answers adopted calls :=
         ∃ result,
           Closer.generateClosing closing rd_closing rd_confirmation rd_number
                                  crew
           = (Returns result,
              Closer.set_llm_interface crew
                (Some (Spec.after_closing_attempts calls closing llm2)))
           ∧ Closer.is_valid result = true
           ∧ if Closer.is_valid adopted
                && negb (Closer.confidence_score adopted
                         <? Closer.confidence_threshold crew)%float
             then Closer.closing_message result = Closer.closing_message adopted
                  ∧ Closer.confidence_score result
                    = Closer.confidence_score adopted
                  ∧ Closer.generation_method result = "llm_primary"
             else Closer.closing_message result
                  = Closer.selectClosingTemplate crew closing rd_closing
                    +:+ newline +:+ newline
                    +:+ Closer.formatAppointmentDetails closing
                    +:+ newline +:+ newline
                    +:+ Closer.selectConfirmationTemplate crew closing
                          rd_confirmation
                  ∧ Closer.generation_method result = "template" in
       match list_find (Spec.closing_improves first) retries with
       | Some (i, retry) => answers retry (S i)
       | None =>
           if (length retries =? rounds)%nat
           then answers first rounds
           else Closer.generateClosing closing rd_closing rd_confirmation
                                       rd_number crew
                = (Throws other_object,
                   Closer.set_llm_interface crew
                     (Some (Spec.after_closing_attempts (S (length retries))
                              closing llm2)))
       end).
Proof.
  split.
  - intros this request rd llm llm1 llm2 first Hllm Hon Hfirst Hvalid Hlow.
    cbv zeta.
    assert (try_llm this (limit request) llm
            = retry_loop (Z.to_nat (max_retries this)) (limit request)
                         first llm2) as Htry.
    { unfold try_llm, mbind, M_bind. by rewrite Hon, Hfirst, Hvalid, Hlow. }
    assert (∀ adopted llm3,
              retry_loop (Z.to_nat (max_retries this)) (limit request)
                         first llm2 = (Returns adopted, llm3) →
              (is_valid adopted = true →
               generation_method adopted = "llm_primary") →
              ∃ result,
                composeQuestion request rd this
                = (Returns result, set_llm_interface this (Some llm3))
                ∧ is_valid result = true
                ∧ if is_valid adopted
                     && negb (quality_score adopted
                              <? quality_threshold this)%float
                  then generated_question result = generated_question adopted
                       ∧ quality_score result = quality_score adopted
                       ∧ generation_method result = "llm_primary"
                  else generated_question result
                       = generated_question
                           (generateWithTemplate this (limit request) rd)
                       ∧ generation_method result
                         = generation_method
                             (generateWithTemplate this (limit request) rd))
      as Hanswer.
    { intros adopted llm3 Hloop Hmethod. rewrite Hloop in Htry.
      rewrite (composeQuestion_after_try _ _ _ _ _ _ Hllm Htry).
      eexists. split; [reflexivity|]. cbn zeta.
      destruct (generateWithTemplate_valid this (limit request) rd)
        as [Htemplate _].
      destruct (is_valid adopted) eqn:Hadopted; cbn [negb orb andb].
      - destruct (quality_score adopted <? quality_threshold this)%float;
          cbn [negb]; simpl; [done|].
        split_and!; [done.. | by apply Hmethod].
      - done. }
    pose proof (retry_loop_first_improvement
                  (Z.to_nat (max_retries this)) (limit request) first llm2)
      as Hloop.
    destruct (list_find _ _) as [[i retry]|] eqn:Hfind.
    + apply (Hanswer _ _ Hloop).
      apply list_find_Some in Hfind as (Hi & _).
      pose proof (attempts_methods
                    (Z.to_nat (max_retries this)) (limit request) llm2)
        as Hmethods.
      rewrite Forall_forall in Hmethods.
      by eapply Hmethods, list_elem_of_lookup_2.
    + destruct (_ =? _)%nat.
      * apply (Hanswer _ _ Hloop).
        pose proof (generateWithLLM_cases (limit request) llm1) as Hcases.
        by rewrite Hfirst in Hcases.
      * rewrite Hloop in Htry.
        by rewrite (composeQuestion_after_throw _ _ _ _ _ _ Hllm Htry).
  - intros crew closing rd_closing rd_confirmation rd_number
      llm llm1 llm2 first Hvalidate Hllm Hon Hfirst Hvalid Hlow.
    cbv zeta.
    assert (Closer.try_llm crew closing llm
            = Closer.retry_loop (Z.to_nat (Closer.max_retries crew)) closing
                                first llm2) as Htry.
    { unfold Closer.try_llm, mbind, M_bind.
      by rewrite Hon, Hfirst, Hvalid, Hlow. }
    assert (∀ adopted llm3,
              Closer.retry_loop (Z.to_nat (Closer.max_retries crew)) closing
                                first llm2 = (Returns adopted, llm3) →
              (Closer.is_valid adopted = true →
               Closer.generation_method adopted = "llm_primary") →
              ∃ result,
                Closer.generateClosing closing rd_closing rd_confirmation
                                       rd_number crew
                = (Returns result, Closer.set_llm_interface crew (Some llm3))
                ∧ Closer.is_valid result = true
                ∧ if Closer.is_valid adopted
                     && negb (Closer.confidence_score adopted
                              <? Closer.confidence_threshold crew)%float
                  then Closer.closing_message result
                       = Closer.closing_message adopted
                       ∧ Closer.confidence_score result
                         = Closer.confidence_score adopted
                       ∧ Closer.generation_method result = "llm_primary"
                  else Closer.closing_message result
                       = Closer.selectClosingTemplate crew closing rd_closing
                         +:+ newline +:+ newline
                         +:+ Closer.formatAppointmentDetails closing
                         +:+ newline +:+ newline
                         +:+ Closer.selectConfirmationTemplate crew closing
                               rd_confirmation
                       ∧ Closer.generation_method result = "template")
      as Hanswer.
    { intros adopted llm3 Hloop Hmethod. rewrite Hloop in Htry.
      destruct (generateClosing_after_try
                  crew closing rd_closing rd_confirmation rd_number
                  llm adopted llm3 Hvalidate Hllm Htry)
        as (result & Hrun & _ & _ & _ & _ & Hresult).
      exists result. split; [exact Hrun|].
      destruct (Closer.is_valid adopted) eqn:Hadopted; cbn [negb orb andb] in *.
      - destruct (Closer.confidence_score adopted
                  <? Closer.confidence_threshold crew)%float;
          cbn [negb] in *.
        + by destruct Hresult as (? & ? & ? & ?).
        + destruct Hresult as (? & ? & Hresult_valid & Hresult_method).
          split_and!; [congruence | done | done |].
          rewrite Hresult_method. by apply Hmethod.
      - by destruct Hresult as (? & ? & ? & ?). }
    pose proof (closing_retry_loop_first_improvement
                  (Z.to_nat (Closer.max_retries crew)) closing first llm2)
      as Hloop.
    destruct (list_find _ _) as [[i retry]|] eqn:Hfind.
    + apply (Hanswer _ _ Hloop).
      apply list_find_Some in Hfind as (Hi & _).
      pose proof (closing_attempts_methods
                    (Z.to_nat (Closer.max_retries crew)) closing llm2)
        as Hmethods.
      rewrite Forall_forall in Hmethods.
      by eapply Hmethods, list_elem_of_lookup_2.
    + destruct (_ =? _)%nat.
      * apply (Hanswer _ _ Hloop).
        pose proof (closing_generateWithLLM_cases closing llm1) as Hcases.
        by rewrite Hfirst in Hcases.
      * rewrite Hloop in Htry.
        by rewrite (generateClosing_after_throw
                      _ _ _ _ _ _ _ _ Hvalidate Hllm Htry).
Qed.

End RetryStep.

(** ** The gates on concrete generators *)
Section GateRuns.
Import Composer.

Lemma composeQuestion_falls_back_to_template_witness :
  let this := ComposerCrew_new (Some Doubles.broken) 1 4 in
  llm_interface this = Some Doubles.broken
  ∧ isAvailable Doubles.broken = (Returns true, Doubles.broken)
  ∧ generateQuestion (limit Doubles.contact_request) Doubles.broken
    = (Throws std_exception, Doubles.broken)
  ∧ ∃ result this',
      composeQuestion Doubles.contact_request 7 this = (Returns result, this')
      ∧ is_valid result = true
      ∧ (generation_method result = "template"
         ∨ generation_method result = "template_fallback").
Proof.
  intros this. split_and!; [reflexivity.. |].
  apply (proj2 (composeQuestion_falls_back_to_template
                  this Doubles.contact_request 7)).
  right; right; left. exists Doubles.broken, Doubles.broken, Doubles.broken.
  by split_and!.
Defined.

(** C1 fails as stated: on a generator every call of which throws a
    [std::exception], the availability check included, [composeQuestion]
    returns nothing, valid or not: the exception of the availability
    check, which no handler guards, leaves it, and the task that
    [composeQuestionAsync] queues answers with an invalid result.  Nor is
    there a result when a generator call throws an object that is not a
    [std::exception]. *)
Lemma throwing_generator_leaves_composeQuestion :
  let this := ComposerCrew_new (Some Doubles.unreachable) 1 4 in
  let request := Doubles.contact_request in
  (isAvailable Doubles.unreachable).1 = Throws std_exception
  ∧ (generateQuestion request Doubles.unreachable).1 = Throws std_exception
  ∧ (∀ question,
       (assessQuestionQuality question request Doubles.unreachable).1
       = Throws std_exception)
  ∧ composeQuestion request 7 this
    = (Throws std_exception,
       set_llm_interface this (Some Doubles.unreachable))
  ∧ (¬ ∃ result this',
         composeQuestion request 7 this = (Returns result, this')
         ∧ is_valid result = true
         ∧ (generation_method result = "template"
            ∨ generation_method result = "template_fallback"))
  ∧ (∃ result this',
       composition_task request 7 this = (Returns result, this')
       ∧ is_valid result = false)
  ∧ (composeQuestion request 7 (ComposerCrew_new (Some Doubles.foreign) 1 4)).1
    = Throws other_object.
Proof.
  intros this request. split_and!; try reflexivity.
  - intros (result & this' & Hrun & _). discriminate Hrun.
  - by eexists _, _.
Qed.

Lemma retry_adopts_first_improvement_witness :
  let this := ComposerCrew_new (Some Doubles.improving) 1 4 in
  let request := Doubles.contact_request in
  let answer text quality :=
    {| generated_question := text;
       targeted_entities := [];
       quality_score := quality;
       is_valid := true;
       generation_method := "llm_primary" |} in
  let llm2 :=
    {| Doubles.availability := Returns true;
       Doubles.script := [Returns ("second", Returns 0.5%float);
                          Returns ("third", Returns 0.875%float)];
       Doubles.assessment := Returns 0.25%float |} in
  (llm_interface this = Some Doubles.improving
  ∧ isAvailable Doubles.improving = (Returns true, Doubles.improving)
  ∧ generateWithLLM (limit request) Doubles.improving
    = (Returns (answer "first" 0.25%float), llm2)
  ∧ (0.25 <? quality_threshold this)%float = true
  ∧ Spec.attempts (Z.to_nat (max_retries this)) (limit request) llm2
    = [answer "second" 0.5%float; answer "third" 0.875%float]
  ∧ list_find (Spec.improves (answer "first" 0.25%float))
              (Spec.attempts (Z.to_nat (max_retries this)) (limit request) llm2)
    = Some (0, answer "second" 0.5%float)
  ∧ ∃ result,
      composeQuestion request 7 this
      = (Returns result,
         set_llm_interface this
           (Some (Spec.after_attempts 1 (limit request) llm2)))
      ∧ is_valid result = true
      ∧ generated_question result
        = generated_question (generateWithTemplate this (limit request) 7)
      ∧ generation_method result = "template")
  ∧ (let crew := Closer.CloserCrew_new (Some Doubles.improving) in
     let closing := Doubles.with_phone "555-123-4567" "2 PM" in
     let reply text confidence :=
       {| Closer.closing_message := text;
          Closer.appointment_summary := "";
          Closer.confirmation_details := "";
          Closer.needs_followup := false;
          Closer.next_steps := [];
          Closer.confidence_score := confidence;
          Closer.is_valid := true;
          Closer.generation_method := "llm_primary" |} in
     Closer.validateAppointmentData closing = true
     ∧ Closer.generateWithLLM closing Doubles.improving
       = (Returns (reply "first" 0.25%float), llm2)
     ∧ (0.25 <? Closer.confidence_threshold crew)%float = true
     ∧ list_find (Spec.closing_improves (reply "first" 0.25%float))
                 (Spec.closing_attempts (Z.to_nat (Closer.max_retries crew))
                                        closing llm2)
       = Some (0, reply "second" 0.5%float)
     ∧ ∃ result,
         Closer.generateClosing closing 0 1 2 crew
         = (Returns result,
            Closer.set_llm_interface crew
              (Some (Spec.after_closing_attempts 1 closing llm2)))
         ∧ Closer.is_valid result = true
         ∧ Closer.generation_method result = "template").
Proof.
  intros this request answer llm2.
  split.
  2: { intros crew closing reply.
       assert (list_find (Spec.closing_improves (reply "first" 0.25%float))
                 (Spec.closing_attempts (Z.to_nat (Closer.max_retries crew))
                                        closing llm2)
               = Some (0, reply "second" 0.5%float)) as Hfind
         by (vm_compute; reflexivity).
       split_and!; [reflexivity.. | exact Hfind |].
       pose proof (proj2 retry_adopts_first_improvement
                     crew closing 0%N 1%N 2%N
                     Doubles.improving Doubles.improving llm2
                     (reply "first" 0.25%float)
                     eq_refl eq_refl eq_refl eq_refl eq_refl eq_refl) as Hgate.
       cbv zeta in Hgate. rewrite Hfind in Hgate.
       destruct Hgate as (result & Hrun & Hvalid & _ & Hmethod).
       exists result. by split_and!. }
  assert (list_find (Spec.improves (answer "first" 0.25%float))
            (Spec.attempts (Z.to_nat (max_retries this)) (limit request) llm2)
          = Some (0, answer "second" 0.5%float)) as Hfind
    by (vm_compute; reflexivity).
  split_and!; [reflexivity.. | exact Hfind |].
  pose proof (proj1 retry_adopts_first_improvement
                this request 7%N Doubles.improving Doubles.improving llm2
                (answer "first" 0.25%float)
                eq_refl eq_refl eq_refl eq_refl eq_refl) as Hgate.
  cbv zeta in Hgate. rewrite Hfind in Hgate.
  destruct Hgate as (result & Hrun & Hvalid & Htext & Hmethod).
  exists result. split_and!; [exact Hrun | exact Hvalid | exact Htext |].
  rewrite Hmethod. reflexivity.
Defined.

(** C3 fails as stated: the generator's outcomes have quality 0.25 (valid,
    below the threshold 0.7), then 0.5 and 0.875 on the two retries.  The
    best of all retries, 0.875, reaches the threshold, yet the result is
    not that outcome: the loop stops at the first retry that improves on
    0.25, which is still below the threshold, and the template is
    returned. *)
Lemma retry_does_not_keep_best :
  ¬ Spec.retry_keeps_best
      (ComposerCrew_new (Some Doubles.improving) 1 4) Doubles.contact_request 7.
Proof.
  intros Hclaim.
  destruct (Hclaim Doubles.improving Doubles.improving _ _
              eq_refl eq_refl eq_refl eq_refl eq_refl)
    as (result & this' & Hrun & Hbest).
  vm_compute in Hrun. injection Hrun as <- _.
  vm_compute in Hbest. destruct Hbest as [Htext _]. discriminate Htext.
Qed.

Lemma composeQuestion_availability_check_throws_witness :
  let this := ComposerCrew_new (Some Doubles.unreachable) 1 4 in
  composeQuestion Doubles.contact_request 7 this
  = (Throws std_exception, set_llm_interface this (Some Doubles.unreachable))
  ∧ ∃ result,
      composition_task Doubles.contact_request 7 this
      = (Returns result, set_llm_interface this (Some Doubles.unreachable))
      ∧ is_valid result = false.
Proof.
  intros this.
  apply (composeQuestion_availability_check_throws
           this Doubles.contact_request 7
           Doubles.unreachable Doubles.unreachable std_exception);
    reflexivity.
Defined.

Lemma template_choice_only_changes_text_witness :
  let this : ComposerCrew Doubles.Scripted := ComposerCrew_new None 1 4 in
  generated_question (generateWithTemplate this Doubles.contact_request 0)
  ≠ generated_question (generateWithTemplate this Doubles.contact_request 1)
  ∧ ∃ result result',
      composeQuestion Doubles.contact_request 0 this = (Returns result, this)
      ∧ composeQuestion Doubles.contact_request 1 this = (Returns result', this)
      ∧ quality_score result = quality_score result'
      ∧ is_valid result = is_valid result'
      ∧ generation_method result = generation_method result'
      ∧ targeted_entities result = targeted_entities result'.
Proof.
  intros this. split; [vm_compute; discriminate|].
  apply (template_choice_only_changes_text this Doubles.contact_request 0 1).
  reflexivity.
Defined.

End GateRuns.

(** ** Closing on appointment data that fails validation *)
Section ClosingValidation.
Import Closer.
Context {L : Type} `{Composer.LLMInterface L}.

(** C7, as amended: for a closing request whose appointment data fails
    validation, [generateClosing] returns at once what
    [generateWithTemplate] builds: a valid, template-generated closing
    (the template picked, the appointment details, the confirmation
    line); no fault is raised and the generator is not called.  The
    record is not marked for follow-up: [needs_followup] keeps its
    default [false], and the summary, the confirmation number and the
    next steps stay empty. *)
Theorem generateClosing_on_invalid_data (this : CloserCrew L)
    (request : ClosingRequest) (rd_closing rd_confirmation rd_number : N) :
  validateAppointmentData request = false →
  ∃ result,
    generateClosing request rd_closing rd_confirmation rd_number this
    = (Returns result, this)
    ∧ is_valid result = true
    ∧ generation_method result = "template"
    ∧ closing_message result
      = selectClosingTemplate this request rd_closing
        +:+ newline +:+ newline
        +:+ formatAppointmentDetails request +:+ newline +:+ newline
        +:+ selectConfirmationTemplate this request rd_confirmation
    ∧ needs_followup result = false
    ∧ appointment_summary result = ""
    ∧ confirmation_details result = ""
    ∧ next_steps result = [].
Proof.
  intros Hinvalid. unfold generateClosing. rewrite Hinvalid. simpl.
  eexists. split; [reflexivity|]. by split_and!.
Qed.

End ClosingValidation.

Section ClosingRuns.
Import Closer.

Lemma generateClosing_on_invalid_data_witness :
  validateAppointmentData (Doubles.with_phone "12345" "2 PM") = false
  ∧ ∃ result,
      generateClosing (Doubles.with_phone "12345" "2 PM") 0 1 2 Doubles.nobody
      = (Returns result, Doubles.nobody)
      ∧ is_valid result = true
      ∧ generation_method result = "template"
      ∧ closing_message result
        = selectClosingTemplate Doubles.nobody (Doubles.with_phone "12345" "2 PM") 0
          +:+ newline +:+ newline
          +:+ formatAppointmentDetails (Doubles.with_phone "12345" "2 PM")
          +:+ newline +:+ newline
          +:+ selectConfirmationTemplate Doubles.nobody (Doubles.with_phone "12345" "2 PM") 1
      ∧ needs_followup result = false
      ∧ appointment_summary result = ""
      ∧ confirmation_details result = ""
      ∧ next_steps result = [].
Proof.
  split; [reflexivity|].
  apply (generateClosing_on_invalid_data
           Doubles.nobody (Doubles.with_phone "12345" "2 PM") 0 1 2).
  reflexivity.
Defined.

(** C7 fails as stated: a request with the malformed phone number 12345
    fails validation and gets a valid template closing, but the record
    returned has [needs_followup = false]; so has the one for a request
    that, besides, names a vague time and is answered with the follow-up
    templates.  The same data with a well-formed phone number passes
    validation. *)
Lemma invalid_data_is_not_marked_for_followup :
  validateAppointmentData (Doubles.with_phone "12345" "2 PM") = false
  ∧ validateAppointmentData (Doubles.with_phone "555-123-4567" "2 PM") = true
  ∧ (∃ result,
        generateClosing (Doubles.with_phone "12345" "2 PM") 0 1 2 Doubles.nobody
        = (Returns result, Doubles.nobody)
        ∧ is_valid result = true
        ∧ generation_method result = "template"
        ∧ needs_followup result = false)
  ∧ (∃ result,
        generateClosing (Doubles.with_phone "12345" "in the morning") 0 1 2 Doubles.nobody
        = (Returns result, Doubles.nobody)
        ∧ needsFollowup (Doubles.with_phone "12345" "in the morning") = true
        ∧ needs_followup result = false).
Proof.
  split_and!; [reflexivity | reflexivity | |];
    eexists; (split; [vm_compute; reflexivity|]); by split_and!.
Qed.

End ClosingRuns.

(** ** The turn pipeline and the load monitor
       ([AdvancedSessionController]) *)
Section Turn.
Import Composer Advanced.
Context {L : Type} `{LLMInterface L}.

Lemma composeQuestion_keeps_pool (c : ComposerCrew L) request rd :
  num_worker_threads (composeQuestion request rd c).2 = num_worker_threads c.
Proof.
  unfold composeQuestion, self, on_llm, mbind, M_bind, mret, M_ret.
  destruct (llm_interface c) as [llm|]; [|reflexivity].
  by destruct (try_llm c (limit request) llm) as [[tried|] llm'].
Qed.

(** A turn never writes [closing_triggered] or [closing_result]. *)
Lemma processInput_never_closes (this : AdvancedSessionController L)
    input_sentence stored_before rd result this' :
  processInput input_sentence stored_before rd this = (Returns result, this') →
  closing_triggered result = false
  ∧ closing_result result = Closer.ClosingResult_new.
Proof.
  unfold processInput, update, self, on_composer, mbind, M_bind, mret, M_ret.
  cbn beta iota zeta.
  repeat match goal with
         | |- context [match ?x with _ => _ end] =>
             lazymatch x with
             | context [match _ with _ => _ end] => fail
             | _ => destruct x eqn:?
             end
         end;
    intros [= <- _]; done.
Qed.

(** C4, the code at a complete session: when all required slots are
    already known as a turn starts, [processInput] returns a result with
    [composition_triggered = false]; closing is not triggered either,
    [closing_triggered] is still [false] and [closing_result] is the
    default record. *)
Theorem processInput_on_complete_session (this : AdvancedSessionController L)
    (input_sentence : string) (stored_before : nat) (rd : N) :
  isComplete (entity_manager this) = true →
  ∃ result this',
    processInput input_sentence stored_before rd this = (Returns result, this')
    ∧ composition_triggered result = false
    ∧ closing_triggered result = false
    ∧ closing_result result = Closer.ClosingResult_new.
Proof.
  intros Hcomplete.
  unfold processInput, update, self, on_composer, mbind, M_bind, mret, M_ret.
  cbn beta iota zeta.
  cbn [classifier extractor entity_manager set_active_processing_tasks].
  rewrite Hcomplete. cbn [negb].
  destruct (map Classifier.entity_name
              (List.filter (λ r, negb (Classifier.detected r))
                           (classifier this input_sentence)));
    eexists _, _; (split; [reflexivity|]); by split_and!.
Qed.

(** C8, as amended: [adjustPerformanceBasedOnLoad] sets the size of the
    composition pool to [composition_threads - 1] when the count of
    active turns exceeds the core count, with no floor, and to
    [composition_threads + 1] when the count is below half the core count
    (integer division), and leaves it alone otherwise;
    [composition_threads] is the count fixed at construction, which no
    adjustment updates.  A turn itself never calls it: [processInput]
    leaves the pool size as it was. *)
Theorem adjustPerformanceBasedOnLoad_pool_size
    (this : AdvancedSessionController L) :
  num_worker_threads (composer (adjustPerformanceBasedOnLoad this))
  = (if (total_cpu_cores this <? active_processing_tasks this)%Z
     then composition_threads this - 1
     else if (active_processing_tasks this <? total_cpu_cores this ÷ 2)%Z
          then composition_threads this + 1
          else num_worker_threads (composer this))%Z
  ∧ composition_threads (adjustPerformanceBasedOnLoad this)
    = composition_threads this
  ∧ ∀ input_sentence stored_before rd,
      num_worker_threads
        (composer (processInput input_sentence stored_before rd this).2)
      = num_worker_threads (composer this).
Proof.
  split_and!.
  - unfold adjustPerformanceBasedOnLoad, adjustThreadCount.
    destruct (total_cpu_cores this <? active_processing_tasks this)%Z.
    + cbn [composer set_composer].
      destruct (composition_threads this - 1
                =? num_worker_threads (composer this))%Z eqn:Hsame;
        cbn [negb]; [by apply Z.eqb_eq in Hsame | reflexivity].
    + destruct (active_processing_tasks this <? total_cpu_cores this ÷ 2)%Z;
        [|reflexivity].
      cbn [composer set_composer].
      destruct (composition_threads this + 1
                =? num_worker_threads (composer this))%Z eqn:Hsame;
        cbn [negb]; [by apply Z.eqb_eq in Hsame | reflexivity].
  - unfold adjustPerformanceBasedOnLoad.
    by repeat case_match.
  - intros input_sentence stored_before rd.
    unfold processInput, update, self, on_composer, mbind, M_bind, mret, M_ret.
    cbn beta iota zeta.
    repeat match goal with
           | |- context [match ?x with _ => _ end] =>
               lazymatch x with
               | context [match _ with _ => _ end] => fail
               | _ => destruct x eqn:?
               end
           end;
      cbn [snd composer set_composer set_entity_manager
           set_active_processing_tasks set_last_metrics];
      try reflexivity;
      match goal with
      | Hrun : composeQuestion ?request ?rd ?c = (_, ?c') |- _ =>
          pose proof (composeQuestion_keeps_pool c request rd) as Hpool;
          rewrite Hrun in Hpool; exact Hpool
      end.
Qed.

End Turn.

Section TurnRuns.
Import Composer Advanced.

Lemma processInput_on_complete_session_witness :
  isComplete (entity_manager Doubles.booked) = true
  ∧ ∃ result this',
      processInput "What are your hours today?" 0 7 Doubles.booked
      = (Returns result, this')
      ∧ composition_triggered result = false
      ∧ closing_triggered result = false
      ∧ closing_result result = Closer.ClosingResult_new.
Proof.
  split; [vm_compute; reflexivity|].
  apply (processInput_on_complete_session
           Doubles.booked "What are your hours today?" 0 7).
  vm_compute; reflexivity.
Defined.

(** C8 fails as stated: on four cores the pool is built with one worker;
    with five turns active the adjustment sets its size to 0, below the
    floor of 1.  On eight cores the pool starts at 2; an adjustment under
    no load raises it to 3, and the next one, under overload, sets it to
    1: a decrease by two. *)
Lemma overload_shrinks_pool_below_one :
  let busy := set_active_processing_tasks (Doubles.controller 4) 5 in
  let idle := adjustPerformanceBasedOnLoad (Doubles.controller 8) in
  num_worker_threads (composer busy) = 1%Z
  ∧ (total_cpu_cores busy <? active_processing_tasks busy)%Z = true
  ∧ num_worker_threads (composer (adjustPerformanceBasedOnLoad busy)) = 0%Z
  ∧ worker_threads (composer (adjustPerformanceBasedOnLoad busy)) = 0
  ∧ num_worker_threads (composer (Doubles.controller 8)) = 2%Z
  ∧ num_worker_threads (composer idle) = 3%Z
  ∧ num_worker_threads
      (composer
         (adjustPerformanceBasedOnLoad (set_active_processing_tasks idle 9)))
    = 1%Z.
Proof. vm_compute. by split_and!. Qed.

End TurnRuns.

(** ** What the gates hand back *)
Section GateResults.
Import Composer.
Context {L : Type} `{LLMInterface L}.

(** X5: a result [composeQuestion] returns has [is_valid = true], and it
    is one of three things: an answer of the generator (method
    [llm_primary]) whose quality is not below the threshold, a template
    (quality 0.8), or the generic fallback (quality 0.5, whatever the
    threshold).  When it does not return, an exception leaves it, and this
    is either what the availability check threw, or an object that is not
    a [std::exception], thrown by a generator call after the availability
    check returned [true]: a [std::exception] out of a generator call is
    caught. *)
Theorem composeQuestion_result_is_valid (this : ComposerCrew L)
    (request : CompositionRequest) (rd : N) :
  match composeQuestion request rd this with
  | (Returns result, _) =>
      is_valid result = true
      ∧ ((generation_method result = "llm_primary"
          ∧ (quality_score result <? quality_threshold this)%float = false)
         ∨ (generation_method result = "template"
            ∧ quality_score result = f32_0_8)
         ∨ (generation_method result = "template_fallback"
            ∧ quality_score result = f32_0_5))
  | (Throws e, _) =>
      ∃ llm,
        llm_interface this = Some llm
        ∧ ((isAvailable llm).1 = Throws e
           ∨ (e = other_object ∧ (isAvailable llm).1 = Returns true))
  end.
Proof.
  assert (∀ request' rd',
            let fallback := generateWithTemplate this request' rd' in
            is_valid fallback = true
            ∧ ((generation_method fallback = "template"
                ∧ quality_score fallback = f32_0_8)
               ∨ (generation_method fallback = "template_fallback"
                  ∧ quality_score fallback = f32_0_5))) as Hfallback.
  { intros request' rd'. unfold generateWithTemplate.
    destruct (entity_templates this !! _) as [[|v vs]|]; simpl; auto. }
  destruct (llm_interface this) as [llm|] eqn:Hllm.
  - pose proof (try_llm_cases this (limit request) llm) as Htried.
    destruct (try_llm this (limit request) llm) as [[tried|e] llm'] eqn:Htry.
    + rewrite (composeQuestion_after_try _ _ _ _ _ _ Hllm Htry).
      cbn zeta.
      destruct (is_valid tried) eqn:Hvalid; cbn [negb orb].
      * destruct (quality_score tried <? quality_threshold this)%float
          eqn:Hlow; simpl.
        -- destruct (Hfallback (limit request) rd) as [? [?|?]]; auto.
        -- split; [done|]. left. split; [by apply Htried | done].
      * simpl. destruct (Hfallback (limit request) rd) as [? [?|?]]; auto.
    + rewrite (composeQuestion_after_throw _ _ _ _ _ _ Hllm Htry).
      by exists llm.
  - rewrite (composeQuestion_without_llm _ _ _ Hllm). cbn zeta; simpl.
    destruct (Hfallback (limit request) rd) as [? [?|?]]; auto.
Qed.

(** X6: when [generateWithTemplate] answers with the method [template], the
    question is one of the variants stored under some key of
    [entity_templates]: the index drawn never leaves the list.  Otherwise
    the method is [template_fallback] and the question is the generic
    one. *)
Theorem generateWithTemplate_picks_a_stored_variant (this : ComposerCrew L)
    (request : CompositionRequest) (rd : N) :
  let result := generateWithTemplate this request rd in
  (generation_method result = "template"
   ∧ ∃ key variants,
       entity_templates this !! key = Some variants
       ∧ generated_question result ∈ variants)
  ∨ (generation_method result = "template_fallback"
     ∧ generated_question result
       = "Could you please provide some additional information?").
Proof.
  unfold generateWithTemplate.
  destruct (entity_templates this !! _) as [[|v vs]|] eqn:Hkey;
    cbn [generation_method generated_question]; auto.
  left. split; [reflexivity|]. eexists _, _. split; [exact Hkey|].
  apply list_elem_of_In, nth_In.
  unfold uniform_int_distribution.
  pose proof (Z.mod_pos_bound (Z.of_N rd)
                (Z.of_nat (length (v :: vs)) - 1 - 0 + 1)) as Hbound.
  cbn [length] in *. lia.
Qed.

End GateResults.

Section ClosingResults.
Import Closer.
Context {L : Type} `{Composer.LLMInterface L}.

(** X7: a result [generateClosing] returns has [is_valid = true] and is
    either an answer of the generator (method [llm_primary]) whose
    confidence is not below the threshold, or the template closing
    (confidence 0.85).  On data that passes validation it carries the
    appointment details, the confirmation number, the next steps, and the
    follow-up flag [needsFollowup] computes from the time preference.
    When it does not return, the data passed validation and an exception
    leaves it: either what the availability check threw, or an object that
    is not a [std::exception], thrown by a generator call after the
    availability check returned [true]. *)
Theorem generateClosing_result_is_valid (this : CloserCrew L)
    (request : ClosingRequest) (rd_closing rd_confirmation rd_number : N) :
  match generateClosing request rd_closing rd_confirmation rd_number this with
  | (Returns result, _) =>
      is_valid result = true
      ∧ ((generation_method result = "llm_primary"
          ∧ (confidence_score result <? confidence_threshold this)%float
            = false)
         ∨ (generation_method result = "template"
            ∧ confidence_score result = f32_0_85))
      ∧ (validateAppointmentData request = true →
         needs_followup result = needsFollowup request
         ∧ next_steps result = generateNextSteps request
         ∧ confirmation_details result = generateConfirmationNumber rd_number
         ∧ appointment_summary result = formatAppointmentDetails request)
  | (Throws e, _) =>
      validateAppointmentData request = true
      ∧ ∃ llm,
          llm_interface this = Some llm
          ∧ ((Composer.isAvailable llm).1 = Throws e
             ∨ (e = other_object
                ∧ (Composer.isAvailable llm).1 = Returns true))
  end.
Proof.
  destruct (validateAppointmentData request) eqn:Hvalidate.
  - destruct (llm_interface this) as [llm|] eqn:Hllm.
    + pose proof (closing_try_llm_cases this request llm) as Htried.
      destruct (try_llm this request llm) as [[tried|e] llm'] eqn:Htry.
      * destruct (generateClosing_after_try
                    this request rd_closing rd_confirmation rd_number
                    llm tried llm' Hvalidate Hllm Htry)
          as (result & -> & Hsummary & Hnumber & Hsteps & Hfollowup & Hresult).
        destruct (is_valid tried) eqn:Hvalid; cbn [negb orb] in Hresult.
        -- destruct (confidence_score tried <? confidence_threshold this)%float
             eqn:Hlow.
           ++ destruct Hresult as (_ & ? & ? & ?). split_and!; auto.
           ++ destruct Hresult as (_ & Hscore & Hresult_valid & Hmethod).
              split_and!; [congruence | | done].
              left. split; [|congruence].
              rewrite Hmethod. by apply Htried.
        -- destruct Hresult as (_ & ? & ? & ?). split_and!; auto.
      * rewrite (generateClosing_after_throw
                   _ _ _ _ _ _ _ _ Hvalidate Hllm Htry).
        split; [done|]. by exists llm.
    + unfold generateClosing. rewrite Hvalidate. cbn [negb].
      unfold self, mbind, M_bind, mret, M_ret. rewrite Hllm.
      simpl. split_and!; auto.
  - unfold generateClosing. rewrite Hvalidate.
    simpl. split_and!; auto. done.
Qed.

End ClosingResults.

(** ** More on the slot values of a conversation *)
Section EntityStateQueries.
Import Composer.

Lemma lookup_getKnownEntities (this : EntityStateManager)
    (entity_name : string) :
  getKnownEntities this !! entity_name
  = match entity_values this !! entity_name with
    | Some value => if empty value then None else Some value
    | None => None
    end.
Proof.
  unfold getKnownEntities.
  apply (map_fold_weak_ind
           (λ known values,
              known !! entity_name
              = match values !! entity_name with
                | Some value => if empty value then None else Some value
                | None => None
                end)).
  - by rewrite !lookup_empty.
  - intros k v values known Hfresh IH.
    destruct (decide (k = entity_name)) as [->|Hne].
    + rewrite lookup_insert_eq. rewrite Hfresh in IH.
      destruct (empty v); cbn [negb]; [exact IH | by rewrite lookup_insert_eq].
    + rewrite (lookup_insert_ne values) by done.
      destruct (empty v); cbn [negb]; [exact IH|].
      by rewrite lookup_insert_ne.
Qed.

(** X8: [getKnownEntities] holds exactly the stored pairs whose value is
    not empty: a slot stored with the empty string is left out, like a
    slot never stored. *)
Theorem getKnownEntities_lookup (this : EntityStateManager)
    (entity_name : string) :
  getKnownEntities this !! entity_name
  = match entity_values this !! entity_name with
    | Some value => if empty value then None else Some value
    | None => None
    end.
Proof. exact (lookup_getKnownEntities this entity_name). Qed.

Lemma missing_known_views (this : EntityStateManager)
    (entity_name : string) :
  (entity_name ∈ getMissingEntities this
   ↔ entity_name ∈ required_entities this
     ∧ getKnownEntities this !! entity_name = None)
  ∧ (hasEntity this entity_name = true
     ↔ getKnownEntities this !! entity_name
       = Some (getEntity this entity_name)).
Proof.
  rewrite getMissingEntities_spec, lookup_getKnownEntities.
  unfold hasEntity, getEntity.
  destruct (entity_values this !! entity_name) as [v|]; [|by intuition].
  destruct (empty v); cbn [negb]; intuition congruence.
Qed.

(** X9: the two views of the state agree: a required slot is reported by
    [getMissingEntities] exactly when [getKnownEntities] has no entry for
    it, and [hasEntity] holds exactly when it has one. *)
Theorem missing_iff_not_known (this : EntityStateManager)
    (entity_name : string) :
  (entity_name ∈ getMissingEntities this
   ↔ entity_name ∈ required_entities this
     ∧ getKnownEntities this !! entity_name = None)
  ∧ (hasEntity this entity_name = true
     ↔ getKnownEntities this !! entity_name
       = Some (getEntity this entity_name)).
Proof. exact (missing_known_views this entity_name). Qed.

Lemma EntityStateManager_eq (a b : EntityStateManager) :
  entity_values a = entity_values b →
  required_entities a = required_entities b →
  a = b.
Proof. destruct a, b; simpl; by intros -> ->. Qed.

(** X10: a batch update does what the single updates of its pairs do, one
    after the other, in whatever order the pairs are listed, as long as no
    slot is listed twice. *)
Theorem updateMultipleEntities_as_single_updates (this : EntityStateManager)
    (pairs : list (string * string)) :
  NoDup pairs.*1 →
  updateMultipleEntities this (list_to_map pairs)
  = foldl (λ state pair, updateEntity state pair.1 pair.2) this pairs.
Proof.
  revert this. induction pairs as [|[k v] pairs IH]; intros this Hnodup.
  - apply EntityStateManager_eq; [|done].
    rewrite updateMultipleEntities_values. simpl.
    by rewrite (left_id_L ∅ (∪)).
  - apply NoDup_cons in Hnodup as [Hfresh Hnodup].
    cbn [foldl fst snd]. rewrite <- (IH _ Hnodup).
    apply EntityStateManager_eq; [|done].
    rewrite !updateMultipleEntities_values. cbn [list_to_map foldr updateEntity entity_values].
    rewrite <- insert_union_l.
    apply insert_union_r. by apply not_elem_of_list_to_map_1.
Qed.

Lemma updateMultipleEntities_as_single_updates_witness :
  let pairs := [("caller_name", "John"); ("day_preference", "Friday")] in
  NoDup pairs.*1
  ∧ updateMultipleEntities EntityStateManager_new (list_to_map pairs)
    = updateEntity (updateEntity EntityStateManager_new "caller_name" "John")
                   "day_preference" "Friday".
Proof.
  intros pairs.
  assert (NoDup pairs.*1) as Hnodup
    by (repeat (constructor;
                  [rewrite list_elem_of_In; simpl; intuition discriminate|]);
        constructor).
  split; [exact Hnodup|].
  apply (updateMultipleEntities_as_single_updates
           EntityStateManager_new pairs Hnodup).
Defined.

(** X11: the closing request that the turn pipeline builds from a complete
    state always passes the required-fields check of
    [validateAppointmentData]; validation then comes down to the three
    format checks, on the stored name, phone number, day and time. *)
Theorem complete_state_has_the_required_fields (this : EntityStateManager)
    (summary context : string) :
  required_entities this = Closer.required →
  isComplete this = true →
  Closer.validateAppointmentData
    {| Closer.complete_entities := getKnownEntities this;
       Closer.conversation_summary := summary;
       Closer.business_context := context |}
  = Closer.isValidName (getEntity this "caller_name")
    && Closer.isValidPhoneNumber (getEntity this "phone_number")
    && Closer.isValidTimeSlot (getEntity this "day_preference")
                              (getEntity this "time_preference").
Proof.
  intros Hrequired Hcomplete.
  assert (∀ e, e ∈ Closer.required →
               getKnownEntities this !! e = Some (getEntity this e)
               ∧ empty (getEntity this e) = false) as Hknown.
  { intros e He. rewrite <- Hrequired in He.
    pose proof (proj1 (isComplete_spec this) Hcomplete e He) as Hhas.
    split; [by apply missing_known_views|].
    rewrite hasEntity_getEntity in Hhas. by destruct (empty _). }
  unfold Closer.validateAppointmentData. cbn [Closer.complete_entities].
  assert (existsb
            (λ field,
               match getKnownEntities this !! field with
               | Some value => empty value
               | None => true
               end) Closer.required = false) as ->.
  { apply not_true_is_false. intros Hex.
    apply existsb_exists in Hex as (e & He & Hbad).
    apply list_elem_of_In, Hknown in He as [Hsome Hfull].
    rewrite Hsome in Hbad. congruence. }
  unfold Closer.subscript.
  destruct (Hknown "caller_name") as [-> _];
    [apply list_elem_of_In; simpl; tauto|].
  destruct (Hknown "phone_number") as [-> _];
    [apply list_elem_of_In; simpl; tauto|].
  destruct (Hknown "day_preference") as [-> _];
    [apply list_elem_of_In; simpl; tauto|].
  destruct (Hknown "time_preference") as [-> _];
    [apply list_elem_of_In; simpl; tauto|].
  destruct (Closer.isValidName _), (Closer.isValidPhoneNumber _),
    (Closer.isValidTimeSlot _ _); reflexivity.
Qed.

Lemma complete_state_has_the_required_fields_witness :
  let this := updateMultipleEntities EntityStateManager_new Doubles.booking in
  required_entities this = Closer.required
  ∧ isComplete this = true
  ∧ Closer.validateAppointmentData
      {| Closer.complete_entities := getKnownEntities this;
         Closer.conversation_summary := "";
         Closer.business_context := "Hair salon appointment" |}
    = Closer.isValidName (getEntity this "caller_name")
      && Closer.isValidPhoneNumber (getEntity this "phone_number")
      && Closer.isValidTimeSlot (getEntity this "day_preference")
                                (getEntity this "time_preference").
Proof.
  intros this. split_and!; [reflexivity | vm_compute; reflexivity |].
  apply (complete_state_has_the_required_fields
           this "" "Hair salon appointment");
    [reflexivity | vm_compute; reflexivity].
Defined.

End EntityStateQueries.

(** ** More on grouping *)
Section GroupingCoverage.
Import Composer.

Lemma grouping_covers pool groups :
  Spec.grouping pool groups → concat groups ≡ₚ pool.
Proof.
  induction 1 as [|seed before partner behind groups _ _ _ IH
                  |seed pool groups _ _ IH]; simpl.
  - reflexivity.
  - rewrite IH. constructor. by rewrite Permutation_middle.
  - by rewrite IH.
Qed.

(** X12: grouping loses and invents nothing: the groups of
    [groupMissingEntities], and of [groupEntitiesForComposition], put end
    to end are a rearrangement of the list of missing slots, so every
    missing slot, repeated ones included, lands in exactly one group; and
    the first group starts with the first missing slot. *)
Theorem groups_partition_the_missing_slots (missing : list string) :
  concat (groupMissingEntities missing) ≡ₚ missing
  ∧ concat (Advanced.groupEntitiesForComposition missing) ≡ₚ missing
  ∧ (head missing
     = head (concat (groupMissingEntities missing))).
Proof.
  pose proof (groupMissingEntities_grouping missing) as Hgrouping.
  split_and!.
  - by apply grouping_covers.
  - rewrite groupEntitiesForComposition_same. by apply grouping_covers.
  - by destruct Hgrouping.
Qed.

End GroupingCoverage.

(** ** [ConfigModel] and the session registry *)
Section ConfigModelAccess.
Import Session.

Ltac by_name k :=
  destruct (String.eqb_spec k "name");
  [|destruct (String.eqb_spec k "phone");
    [|destruct (String.eqb_spec k "email");
      [|destruct (String.eqb_spec k "service");
        [|destruct (String.eqb_spec k "day");
          [|destruct (String.eqb_spec k "time");
            [|destruct (String.eqb_spec k "stylist");
              [|destruct (String.eqb_spec k "notes")]]]]]]].

Lemma get_entity_set_entity (this : ConfigModel)
    (entity_name value : string) :
  (entity_name ∈ Controller.slot_names →
   get_entity (set_entity this entity_name value) entity_name = value)
  ∧ (entity_name ∉ Controller.slot_names →
     set_entity this entity_name value = this
     ∧ get_entity this entity_name = "")
  ∧ (∀ other, other ≠ entity_name →
       get_entity (set_entity this entity_name value) other
       = get_entity this other).
Proof.
  unfold Controller.slot_names. split_and!.
  - intros Hin. unfold set_entity, get_entity.
    by_name entity_name; subst; try reflexivity.
    exfalso. repeat (apply elem_of_cons in Hin as [?|Hin]; [done|]).
    by apply elem_of_nil in Hin.
  - intros Hout. unfold set_entity, get_entity.
    by_name entity_name; subst;
      try (exfalso; apply Hout, list_elem_of_In; simpl; tauto).
    done.
  - intros other Hother. unfold set_entity.
    by_name entity_name; subst; try reflexivity;
      unfold get_entity; cbn [name phone email service day time stylist notes];
      by_name other; subst; try reflexivity; try done.
Qed.

(** X13: [set_entity] followed by [get_entity] gives the value back for
    the eight slot names and leaves every other slot as it was; for any
    other name [set_entity] changes nothing and [get_entity] answers the
    empty string. *)
Theorem set_entity_get_entity (this : ConfigModel)
    (entity_name value : string) :
  (entity_name ∈ Controller.slot_names →
   get_entity (set_entity this entity_name value) entity_name = value)
  ∧ (entity_name ∉ Controller.slot_names →
     set_entity this entity_name value = this
     ∧ get_entity this entity_name = "")
  ∧ (∀ other, other ≠ entity_name →
       get_entity (set_entity this entity_name value) other
       = get_entity this other).
Proof. exact (get_entity_set_entity this entity_name value). Qed.

Lemma get_empty_entities_filter (this : ConfigModel) :
  get_empty_entities this
  = List.filter (λ slot, empty (get_entity this slot)) Controller.slot_names.
Proof.
  unfold get_empty_entities, Controller.slot_names. cbn [List.filter get_entity String.eqb Ascii.eqb Bool.eqb].
  destruct (empty (name this)), (empty (phone this)), (empty (email this)),
    (empty (service this)), (empty (day this)), (empty (time this)),
    (empty (stylist this)), (empty (notes this)); reflexivity.
Qed.

(** X14: [get_empty_entities] lists exactly the slot names whose value
    [get_entity] reports empty, in the fixed order of the eight names. *)
Theorem get_empty_entities_spec (this : ConfigModel) :
  get_empty_entities this
  = List.filter (λ slot, empty (get_entity this slot)) Controller.slot_names.
Proof. exact (get_empty_entities_filter this). Qed.

Lemma registry_lookups (this : EntityStateManager)
    (session_id : string) (entities : ConfigModel) :
  get_session (update_session this session_id entities) session_id = entities
  ∧ (∀ other, other ≠ session_id →
       get_session (update_session this session_id entities) other
       = get_session this other)
  ∧ is_session_active (update_session this session_id entities) session_id
    = is_session_active this session_id
  ∧ get_session (create_session this session_id) session_id = ConfigModel_new
  ∧ is_session_active (create_session this session_id) session_id = true
  ∧ get_session (end_session this session_id) session_id = ConfigModel_new
  ∧ is_session_active (end_session this session_id) session_id = false.
Proof.
  unfold get_session, is_session_active, update_session, create_session,
    end_session; simpl.
  split_and!; try (intros other Hother);
    rewrite ?lookup_insert_eq, ?lookup_delete_eq, ?lookup_insert_ne by done;
    reflexivity.
Qed.

(** X15: the registry keeps what it is given: [update_session] followed by
    [get_session] gives the entities back and leaves the other sessions
    alone; [create_session] leaves the session blank and active;
    [end_session] leaves it blank and inactive; and [update_session] alone
    never makes a session active. *)
Theorem registry_round_trips (this : EntityStateManager)
    (session_id : string) (entities : ConfigModel) :
  get_session (update_session this session_id entities) session_id = entities
  ∧ (∀ other, other ≠ session_id →
       get_session (update_session this session_id entities) other
       = get_session this other)
  ∧ is_session_active (update_session this session_id entities) session_id
    = is_session_active this session_id
  ∧ get_session (create_session this session_id) session_id = ConfigModel_new
  ∧ is_session_active (create_session this session_id) session_id = true
  ∧ get_session (end_session this session_id) session_id = ConfigModel_new
  ∧ is_session_active (end_session this session_id) session_id = false.
Proof. exact (registry_lookups this session_id entities). Qed.

End ConfigModelAccess.

(** ** The classification and extraction crews *)
Section Crews.
Import Classification Extraction.

Lemma classifyEntityAsync_name this sentence entity_type :
  Classifier.entity_name (classifyEntityAsync this sentence entity_type)
  = entity_type.
Proof.
  unfold classifyEntityAsync. by destruct (svm_models this !! entity_type).
Qed.

Lemma getDetectedEntities_filter this sentence :
  getDetectedEntities this sentence
  = List.filter
      (λ entity,
         Classifier.detected (classifyEntityAsync this sentence entity))
      (entity_types this).
Proof.
  unfold getDetectedEntities, classifyAllEntities.
  induction (entity_types this) as [|e es IH]; [reflexivity|].
  cbn [map List.filter].
  destruct (Classifier.detected (classifyEntityAsync this sentence e));
    cbn [map]; rewrite IH; [by rewrite classifyEntityAsync_name | done].
Qed.

Lemma classifyAllEntities_results (this : ClassificationCrew)
    (sentence : string) :
  map Classifier.entity_name (classifyAllEntities this sentence)
  = entity_types this
  ∧ sublist (getDetectedEntities this sentence) (entity_types this)
  ∧ ∀ entity, svm_models this !! entity = None →
              entity ∉ getDetectedEntities this sentence.
Proof.
  split_and!.
  - unfold classifyAllEntities. rewrite map_map.
    rewrite <- (map_id (entity_types this)) at 2.
    apply map_ext. intros e. apply classifyEntityAsync_name.
  - rewrite getDetectedEntities_filter.
    induction (entity_types this) as [|e es IH]; [constructor|].
    cbn [List.filter]. destruct (Classifier.detected _); by constructor.
  - intros entity Hmissing. rewrite getDetectedEntities_filter.
    rewrite list_elem_of_In, filter_In. intros [_ Hdetected].
    unfold classifyEntityAsync in Hdetected. by rewrite Hmissing in Hdetected.
Qed.

(** X16: [classifyAllEntities] answers with one result per entity type, in
    the crew's order, whatever the models do; the entities
    [getDetectedEntities] reports are entity types of the crew, in that
    same order; and an entity whose model did not load is never reported. *)
Theorem classification_follows_entity_types (this : ClassificationCrew)
    (sentence : string) :
  map Classifier.entity_name (classifyAllEntities this sentence)
  = entity_types this
  ∧ sublist (getDetectedEntities this sentence) (entity_types this)
  ∧ ∀ entity, svm_models this !! entity = None →
              entity ∉ getDetectedEntities this sentence.
Proof. exact (classifyAllEntities_results this sentence). Qed.

Lemma extractWithFallback_same this sentence targets :
  extractWithFallback this sentence targets
  = extractEntities this sentence targets.
Proof.
  unfold extractWithFallback.
  rewrite <- (map_id (extractEntities this sentence targets)) at 2.
  apply map_ext. intros result. cbn [llmFallback Extractor.found].
  by destruct (negb (Extractor.found result) || _).
Qed.

Lemma extractWithFallback_results (this : ExtractionCrew) (sentence : string)
    (targets : list string) :
  extractWithFallback this sentence targets
  = extractEntities this sentence targets
  ∧ map Extractor.entity_name (extractEntities this sentence targets)
    = targets
  ∧ Forall
      (λ result,
         if Extractor.found result
         then empty (Extractor.extracted_value result) = false
              ∧ Extractor.method_used result = "ner"
              ∧ ∃ model,
                  ner_models this !! Extractor.entity_name result = Some model
                  ∧ Extractor.extracted_value result = model sentence
         else Extractor.extracted_value result = ""
              ∧ Extractor.method_used result = "none")
      (extractEntities this sentence targets).
Proof.
  split_and!.
  - apply extractWithFallback_same.
  - unfold extractEntities. rewrite map_map.
    rewrite <- (map_id targets) at 2. apply map_ext. intros e.
    unfold extractEntityAsync.
    destruct (ner_models this !! e) as [model|]; [|reflexivity].
    by destruct (empty (model sentence)).
  - unfold extractEntities. apply Forall_map, Forall_forall. intros e _.
    unfold extractEntityAsync.
    destruct (ner_models this !! e) as [model|] eqn:Hmodel; [|done].
    destruct (empty (model sentence)) eqn:Hempty; cbn; [done|].
    split_and!; [done | done |]. by exists model.
Qed.

(** X17: [extractWithFallback] answers exactly what [extractEntities]
    does, since the fallback it calls never finds anything: one result per
    target entity, in order; a result is found only when the entity's model
    is loaded and extracted a non-empty value, which it then carries under
    the method [ner]; every other result carries the empty value under
    [none]. *)
Theorem extraction_follows_targets (this : ExtractionCrew) (sentence : string)
    (targets : list string) :
  extractWithFallback this sentence targets
  = extractEntities this sentence targets
  ∧ map Extractor.entity_name (extractEntities this sentence targets)
    = targets
  ∧ Forall
      (λ result,
         if Extractor.found result
         then empty (Extractor.extracted_value result) = false
              ∧ Extractor.method_used result = "ner"
              ∧ ∃ model,
                  ner_models this !! Extractor.entity_name result = Some model
                  ∧ Extractor.extracted_value result = model sentence
         else Extractor.extracted_value result = ""
              ∧ Extractor.method_used result = "none")
      (extractEntities this sentence targets).
Proof. exact (extractWithFallback_results this sentence targets). Qed.

End Crews.

(** ** A turn on the real extraction crew *)
Section TurnOnCrews.
Import Composer Advanced.
Context {L : Type} `{LLMInterface L}.

Lemma store_extracted_keeps_known results manager entity_name :
  Forall (λ result,
            Extractor.found result = true →
            empty (Extractor.extracted_value result) = false) results →
  hasEntity manager entity_name = true →
  hasEntity (store_extracted results manager) entity_name = true.
Proof.
  intros Hresults. revert manager.
  induction Hresults as [|result results Hresult _ IH]; intros manager Hhas;
    [exact Hhas|].
  cbn [store_extracted foldl]. apply IH.
  destruct (Extractor.found result); [|exact Hhas].
  apply (hasEntity_apply manager (Spec.Single _ _)); [|exact Hhas].
  simpl. by rewrite Hresult.
Qed.

Lemma store_extracted_required results manager :
  required_entities (store_extracted results manager)
  = required_entities manager.
Proof.
  revert manager. induction results as [|result results IH]; intros manager;
    [reflexivity|].
  cbn [store_extracted foldl].
  change (foldl _ ?m results) with (store_extracted results m).
  rewrite IH. by destruct (Extractor.found result).
Qed.

(** The slot values a turn leaves, whether it returns or throws. *)
Lemma processInput_entity_manager (this : AdvancedSessionController L)
    input_sentence stored_before rd :
  entity_manager (processInput input_sentence stored_before rd this).2
  = store_extracted
      match map Classifier.entity_name
                (List.filter Classifier.detected
                             (classifier this input_sentence)) with
      | [] => []
      | (_ :: _) as detected_entities =>
          extractor this input_sentence detected_entities
      end
      (entity_manager this).
Proof.
  unfold processInput, update, self, on_composer, mbind, M_bind, mret, M_ret.
  cbn beta iota zeta.
  cbn [classifier extractor entity_manager set_active_processing_tasks
       set_entity_manager].
  repeat match goal with
         | |- context [match ?x with _ => _ end] =>
             lazymatch x with
             | context [match _ with _ => _ end] => fail
             | _ => destruct x eqn:?
             end
         end;
    reflexivity.
Qed.

(** X18: on a controller whose extractor is the extraction crew, a turn
    never loses a slot: every slot known before [processInput] is known
    after it, whether the turn returns or ends in an exception; so a
    complete conversation stays complete. *)
Theorem processInput_keeps_known_slots (this : AdvancedSessionController L)
    (crew : Extraction.ExtractionCrew)
    (input_sentence : string) (stored_before : nat) (rd : N) :
  extractor this = Extraction.extractWithFallback crew →
  let after :=
    entity_manager (processInput input_sentence stored_before rd this).2 in
  (∀ entity_name,
     hasEntity (entity_manager this) entity_name = true →
     hasEntity after entity_name = true)
  ∧ (isComplete (entity_manager this) = true → isComplete after = true).
Proof.
  intros Hextractor after.
  assert (∀ entity_name,
            hasEntity (entity_manager this) entity_name = true →
            hasEntity after entity_name = true) as Hkeeps.
  { intros entity_name Hhas. subst after.
    rewrite processInput_entity_manager.
    apply store_extracted_keeps_known; [|exact Hhas].
    destruct (map _ _) as [|d ds]; [constructor|].
    rewrite Hextractor.
    destruct (extractWithFallback_results crew input_sentence (d :: ds))
      as (-> & _ & Hresults).
    eapply Forall_impl; [exact Hresults|].
    intros result Hresult Hfound. cbv beta in Hresult.
    rewrite Hfound in Hresult. apply Hresult. }
  split; [exact Hkeeps|].
  intros Hcomplete. apply isComplete_spec. intros e He.
  apply Hkeeps. apply (proj1 (isComplete_spec _) Hcomplete).
  subst after. rewrite processInput_entity_manager in He.
  by rewrite store_extracted_required in He.
Qed.

End TurnOnCrews.

(** ** [SessionController]: what its sessions can and cannot reach *)
Section SessionControllerRuns.
Import Session Controller.

Lemma simple_name_cpp_entity slot :
  slot ∈ slot_names → simple_name (cpp_entity slot) = slot.
Proof.
  unfold slot_names. intros Hin.
  repeat (apply elem_of_cons in Hin as [->|Hin]; [reflexivity|]).
  by apply elem_of_nil in Hin.
Qed.

Lemma get_empty_entities_elem this slot :
  slot ∈ get_empty_entities this
  ↔ slot ∈ slot_names ∧ empty (get_entity this slot) = true.
Proof.
  rewrite get_empty_entities_filter, !list_elem_of_In, filter_In. tauto.
Qed.

Lemma store_results_other results this slot :
  Forall (λ result, simple_name (Extractor.entity_name result) ≠ slot)
         results →
  get_entity (store_results results this) slot = get_entity this slot.
Proof.
  intros Hresults. revert this.
  induction Hresults as [|result results Hresult _ IH]; intros this;
    [reflexivity|].
  cbn [store_results foldl].
  change (foldl _ ?c results) with (store_results results c).
  rewrite IH.
  destruct (Extractor.found result && _); [|reflexivity].
  by apply get_entity_set_entity.
Qed.

Lemma extractEntities_names (P : string → Prop) crew sentence targets :
  Forall P targets →
  Forall (λ result, P (Extractor.entity_name result))
         (Extraction.extractEntities crew sentence targets).
Proof.
  unfold Extraction.extractEntities.
  induction 1 as [|target targets Htarget _ IH]; cbn [map]; constructor;
    [|exact IH].
  unfold Extraction.extractEntityAsync.
  destruct (Extraction.ner_models crew !! target) as [model|]; [|exact Htarget].
  by destruct (empty (model sentence)).
Qed.

(** The entities [update_session] stores for an active session. *)
Lemma update_session_stores session_id user_input this :
  is_session_active (state_manager_ this) session_id = true →
  ∃ targets,
    Forall (λ target,
              target ∈ Classification.getDetectedEntities
                         (classifier_ this) user_input
              ∧ ∃ slot,
                  slot ∈ get_empty_entities
                           (Session.get_session (state_manager_ this)
                                                session_id)
                  ∧ target = cpp_entity slot)
           targets
    ∧ let stored :=
        store_results
          (Extraction.extractEntities (extractor_ this) user_input targets)
          (Session.get_session (state_manager_ this) session_id) in
      entities (update_session session_id user_input this).1 = stored
      ∧ state_manager_ (update_session session_id user_input this).2
        = Session.update_session (state_manager_ this) session_id stored
      ∧ (response (update_session session_id user_input this).1
         = "Perfect! I have all your information."
         → get_empty_entities stored = []).
Proof.
  intros Hactive. unfold update_session. rewrite Hactive. cbn [negb].
  set (current := Session.get_session (state_manager_ this) session_id).
  set (detected := Classification.getDetectedEntities _ _).
  exists (List.filter (found_in detected)
                      (map cpp_entity (get_empty_entities current))).
  split.
  - apply Forall_forall. intros target Hin.
    apply list_elem_of_In, filter_In in Hin as [Hin Hdetected].
    apply in_map_iff in Hin as (slot & <- & Hslot).
    split.
    + rewrite found_in_elem_of in Hdetected.
      by apply bool_decide_eq_true_1 in Hdetected.
    + exists slot. by rewrite list_elem_of_In.
  - destruct (List.filter _ _) as [|t ts] eqn:Htargets; cbn zeta.
    + cbn [Extraction.extractEntities map store_results foldl].
      destruct (get_empty_entities current) eqn:Hempty; cbn; by rewrite ?Hempty.
    + destruct (get_empty_entities (store_results _ _)) eqn:Hempty;
        cbn; by rewrite ?Hempty.
Qed.

(** X19: [update_session] only fills slots that were empty: a slot of the
    session that already holds a value holds the same value afterwards,
    whatever the models detect and extract; and the other sessions are
    not touched. *)
Theorem update_session_keeps_filled_slots (this : SessionController)
    (session_id user_input slot : string) :
  let before := Session.get_session (state_manager_ this) session_id in
  let after :=
    state_manager_ (update_session session_id user_input this).2 in
  empty (get_entity before slot) = false →
  get_entity (Session.get_session after session_id) slot
  = get_entity before slot
  ∧ ∀ other, other ≠ session_id →
             Session.get_session after other
             = Session.get_session (state_manager_ this) other.
Proof.
  intros before after Hfilled. subst after.
  destruct (is_session_active (state_manager_ this) session_id) eqn:Hactive.
  - destruct (update_session_stores session_id user_input this Hactive)
      as (targets & Htargets & _ & -> & _).
    split.
    + rewrite (proj1 (registry_lookups _ _ _)).
      apply store_results_other.
      apply (extractEntities_names (λ target, simple_name target ≠ slot)).
      eapply Forall_impl; [exact Htargets|].
      intros target (_ & e & He & ->) Heq.
      apply get_empty_entities_elem in He as [Hname Hempty].
      rewrite (simple_name_cpp_entity _ Hname) in Heq. subst e.
      fold before in Hempty. congruence.
    + intros other Hother. by apply registry_lookups.
  - unfold update_session. by rewrite Hactive.
Qed.

Lemma update_session_classifier session_id user_input this :
  classifier_ (update_session session_id user_input this).2
  = classifier_ this.
Proof. unfold update_session. by repeat case_match. Qed.

Lemma five_types_are_not_email target :
  target ∈ ["caller_name"; "phone_number"; "day_preference";
            "time_preference"; "service_type"] →
  simple_name target ≠ "email".
Proof.
  intros Hin.
  repeat (apply elem_of_cons in Hin as [->|Hin]; [done|]).
  by apply elem_of_nil in Hin.
Qed.

Lemma email_empty_is_reported this :
  email this = "" → get_empty_entities this ≠ [].
Proof.
  intros Hemail Hnone.
  assert ("email" ∈ get_empty_entities this) as Hin.
  { apply get_empty_entities_elem. split.
    - apply list_elem_of_In. simpl. tauto.
    - cbn. by rewrite Hemail. }
  rewrite Hnone in Hin. by apply elem_of_nil in Hin.
Qed.

(** What every call keeps: the classifier knows the five entity types of
    its constructor, and no stored session has an e-mail address. *)
Lemma serve_keeps_email_empty c this :
  Classification.entity_types (classifier_ this)
  = ["caller_name"; "phone_number"; "day_preference"; "time_preference";
     "service_type"] →
  (∀ id, email (Session.get_session (state_manager_ this) id) = "") →
  Classification.entity_types (classifier_ (serve c this).2)
  = ["caller_name"; "phone_number"; "day_preference"; "time_preference";
     "service_type"]
  ∧ (∀ id, email (Session.get_session (state_manager_ (serve c this).2) id)
           = "")
  ∧ response (serve c this).1 ≠ "Perfect! I have all your information."
  ∧ response (serve c this).1 ≠ "Your information is complete!".
Proof.
  intros Htypes Hemail.
  destruct c as [id rd|id input|id|id]; cbn [serve fst snd].
  - assert (∀ text, String.length text = 29 ∨ String.length text = 37 →
                    generate_greeting rd ≠ text) as Hgreeting.
    { intros text Hlength <-. unfold generate_greeting in Hlength.
      destruct (Z.to_nat _) as [|[|[|[|?]]]]; cbn in Hlength; lia. }
    split_and!; [exact Htypes | | apply Hgreeting; cbn; lia..].
    intros id'. cbn [create_session snd set_state_manager state_manager_].
    destruct (decide (id' = id)) as [->|Hne].
    + by rewrite (proj1 (registry_lookups _ _ _)).
    + rewrite (proj1 (proj2 (registry_lookups _ _ _))) by done.
      unfold Session.get_session, set_session_active, Session.create_session;
        cbn [sessions_].
      rewrite lookup_insert_ne by done. apply Hemail.
  - destruct (is_session_active (state_manager_ this) id) eqn:Hactive.
    + destruct (update_session_stores id input this Hactive)
        as (targets & Htargets & Hentities & Hmanager & Hperfect).
      cbn zeta in *.
      assert (email (store_results
                       (Extraction.extractEntities (extractor_ this) input targets)
                       (Session.get_session (state_manager_ this) id)) = "")
        as Hstored.
      { change (email ?c) with (get_entity c "email").
        rewrite store_results_other; [apply Hemail|].
        apply (extractEntities_names (λ target, simple_name target ≠ "email")).
        eapply Forall_impl; [exact Htargets|].
        intros target [Hdetected _]. apply five_types_are_not_email.
        rewrite <- Htypes.
        pose proof (proj1 (proj2 (classifyAllEntities_results
                                    (classifier_ this) input))) as Hsub.
        by eapply elem_of_sublist. }
      split_and!.
      * by rewrite update_session_classifier.
      * intros id'. rewrite Hmanager.
        destruct (decide (id' = id)) as [->|Hne].
        -- by rewrite (proj1 (registry_lookups _ _ _)).
        -- rewrite (proj1 (proj2 (registry_lookups _ _ _))) by done.
           apply Hemail.
      * intros Hresponse.
        by apply (email_empty_is_reported _ Hstored), Hperfect.
      * unfold update_session. rewrite Hactive. cbn [negb].
        repeat match goal with
               | |- context [match ?x with _ => _ end] =>
                   lazymatch x with
                   | context [match _ with _ => _ end] => fail
                   | _ => destruct x eqn:?
                   end
               end;
          cbn [response fst]; intros Heq; discriminate Heq.
    + unfold update_session. rewrite Hactive. cbn.
      split_and!; [exact Htypes | exact Hemail | done | done].
  - split_and!; [exact Htypes | exact Hemail | |];
      unfold get_session;
      destruct (is_session_active _ _); cbn [negb]; try done;
      pose proof (email_empty_is_reported _ (Hemail id)) as Hreported;
      destruct (get_empty_entities _); cbn; done.
  - split_and!; [exact Htypes | | |].
    + intros id'. cbn [end_session snd set_state_manager state_manager_].
      unfold Session.get_session, Session.end_session; cbn [sessions_].
      destruct (decide (id' = id)) as [->|Hne].
      * by rewrite lookup_delete_eq.
      * rewrite lookup_delete_ne by done. apply Hemail.
    + cbn. by destruct (is_session_active _ _).
    + cbn. by destruct (is_session_active _ _).
Qed.

(** X20: a conversation held through [SessionController] never reaches
    completion.  Its sessions have eight slots, of which only five have
    models behind them; the e-mail slot (like stylist and notes) is never
    filled, so whatever calls are made on a freshly initialised controller,
    no answer ever says "Perfect! I have all your information." or "Your
    information is complete!". *)
Theorem session_controller_never_completes
    (load_svm : string → option (string → float))
    (load_ner : string → string → option (string → string))
    (svm_models_dir ner_models_dir : string) (hardware_concurrency : Z)
    (calls : list call) :
  Forall
    (λ answer,
       response answer ≠ "Perfect! I have all your information."
       ∧ response answer ≠ "Your information is complete!")
    (run calls
         (SessionController_new load_svm load_ner svm_models_dir
                                ner_models_dir hardware_concurrency)).1.
Proof.
  set (start := SessionController_new _ _ _ _ _).
  assert (Classification.entity_types (classifier_ start)
          = ["caller_name"; "phone_number"; "day_preference";
             "time_preference"; "service_type"]) as Htypes by reflexivity.
  assert (∀ id, email (Session.get_session (state_manager_ start) id) = "")
    as Hemail by (intros id; reflexivity).
  clearbody start. revert start Htypes Hemail.
  induction calls as [|c calls IH]; intros this Htypes Hemail;
    [constructor|].
  cbn [run].
  destruct (serve_keeps_email_empty c this Htypes Hemail)
    as (Htypes' & Hemail' & Hperfect & Hcomplete).
  destruct (serve c this) as [answer this'].
  specialize (IH this' Htypes' Hemail').
  destruct (run calls this') as [answers this''].
  by constructor.
Qed.

End SessionControllerRuns.

(** ** The worker pool after a resize *)
Section WorkerPool.
Import Composer Workers.
Context {L : Type} `{LLMInterface L}.

Lemma adjustThreadCount_stop_flag (this : ComposerCrew L) new_count :
  stop_workers this = true →
  stop_workers (adjustThreadCount this new_count) = true.
Proof.
  intros Hstop. unfold adjustThreadCount.
  by destruct (negb (new_count =? num_worker_threads this)%Z).
Qed.

(** X21: a resize leaves the pool stopped.  [adjustThreadCount] to a new
    size raises [stop_workers] and nothing lowers it again, also not later
    resizes; the threads it starts therefore never wait for work: each
    leaves its loop as soon as it finds the queue empty.  A pool fresh
    from the constructor waits. *)
Theorem resized_pool_does_not_wait (this : ComposerCrew L) (new_count : Z)
    (later : list Z) :
  new_count ≠ num_worker_threads this →
  let resized := adjustThreadCount this new_count in
  worker_threads resized = Z.to_nat new_count
  ∧ workerLoop resized 0 = Leaves
  ∧ (∀ queued, workerLoop (foldl adjustThreadCount resized later) queued
               ≠ Waits)
  ∧ ∀ (llm : option L) num_threads hardware_concurrency,
      workerLoop (ComposerCrew_new llm num_threads hardware_concurrency) 0
      = Waits.
Proof.
  intros Hnew resized.
  assert (stop_workers resized = true ∧ worker_threads resized = Z.to_nat new_count)
    as [Hstop Hthreads].
  { subst resized. unfold adjustThreadCount.
    destruct (new_count =? num_worker_threads this)%Z eqn:Hsame;
      [by apply Z.eqb_eq in Hsame | done]. }
  split_and!.
  - exact Hthreads.
  - unfold workerLoop. by rewrite Hstop.
  - intros queued.
    assert (stop_workers (foldl adjustThreadCount resized later) = true)
      as Hlater.
    { clear Hthreads. revert Hstop. generalize resized.
      induction later as [|n later IH]; intros c Hc; [exact Hc|].
      cbn [foldl]. by apply IH, adjustThreadCount_stop_flag. }
    unfold workerLoop. rewrite Hlater, orb_true_r. cbn [negb andb].
    by destruct (queued =? 0)%nat.
  - reflexivity.
Qed.

End WorkerPool.

Lemma resized_pool_does_not_wait_witness :
  let this := Composer.ComposerCrew_new (Some Doubles.improving) 2 8 in
  3%Z ≠ Composer.num_worker_threads this
  ∧ Workers.workerLoop this 0 = Workers.Waits
  ∧ Workers.workerLoop (Composer.adjustThreadCount this 3) 0 = Workers.Leaves.
Proof.
  intros this.
  assert (3%Z ≠ Composer.num_worker_threads this) as Hnew
    by (vm_compute; discriminate).
  split_and!; [exact Hnew | reflexivity |].
  exact (proj1 (proj2 (resized_pool_does_not_wait this 3 [] Hnew))).
Defined.

(** ** The turn counter and the pool size of [AdvancedSessionController] *)
Section LoadMonitor.
Import Composer Advanced.
Context {L : Type} `{LLMInterface L}.

Lemma composeQuestion_throws (this : ComposerCrew L) request rd e this' :
  composeQuestion request rd this = (Throws e, this') →
  ∃ llm,
    llm_interface this = Some llm
    ∧ ((isAvailable llm).1 = Throws e
       ∨ (e = other_object ∧ (isAvailable llm).1 = Returns true)).
Proof.
  intros Hrun.
  destruct (llm_interface this) as [llm|] eqn:Hllm;
    [|by rewrite (composeQuestion_without_llm _ _ _ Hllm) in Hrun].
  exists llm. split; [reflexivity|].
  pose proof (try_llm_cases this (limit request) llm) as Htried.
  destruct (try_llm this (limit request) llm) as [[tried|e'] llm'] eqn:Htry.
  - by rewrite (composeQuestion_after_try _ _ _ _ _ _ Hllm Htry) in Hrun.
  - rewrite (composeQuestion_after_throw _ _ _ _ _ _ Hllm Htry) in Hrun.
    by injection Hrun as -> _.
Qed.

Lemma adjustPerformanceBasedOnLoad_near_initial
    (this : AdvancedSessionController L) :
  composition_threads (adjustPerformanceBasedOnLoad this)
  = composition_threads this
  ∧ (num_worker_threads (composer (adjustPerformanceBasedOnLoad this))
     = num_worker_threads (composer this)
     ∨ num_worker_threads (composer (adjustPerformanceBasedOnLoad this))
       = (composition_threads this - 1)%Z
     ∨ num_worker_threads (composer (adjustPerformanceBasedOnLoad this))
       = (composition_threads this + 1)%Z).
Proof.
  unfold adjustPerformanceBasedOnLoad, adjustThreadCount.
  destruct (total_cpu_cores this <? active_processing_tasks this)%Z.
  - cbn [composer set_composer composition_threads]. split; [reflexivity|].
    destruct (composition_threads this - 1
              =? num_worker_threads (composer this))%Z;
      cbn [negb]; [by left | right; by left].
  - destruct (active_processing_tasks this <? total_cpu_cores this ÷ 2)%Z;
      [|split; [reflexivity | by left]].
    cbn [composer set_composer composition_threads]. split; [reflexivity|].
    destruct (composition_threads this + 1
              =? num_worker_threads (composer this))%Z;
      cbn [negb]; [by left | right; by right].
Qed.

(** X22: a turn that returns leaves the count of active turns as it found
    it; a turn that ends in an exception leaves it one too high, for good.
    The exception is one that left [composeQuestion] in the composition
    task: what the generator's availability check threw, or an object
    that is not a [std::exception] out of a later generator call. *)
Theorem processInput_turn_counter (this : AdvancedSessionController L)
    (input_sentence : string) (stored_before : nat) (rd : N) :
  match processInput input_sentence stored_before rd this with
  | (Returns _, this') =>
      active_processing_tasks this' = active_processing_tasks this
  | (Throws e, this') =>
      active_processing_tasks this' = (active_processing_tasks this + 1)%Z
      ∧ ∃ llm,
          llm_interface (composer this) = Some llm
          ∧ ((isAvailable llm).1 = Throws e
             ∨ (e = other_object ∧ (isAvailable llm).1 = Returns true))
  end.
Proof.
  unfold processInput, update, self, on_composer, mbind, M_bind, mret, M_ret.
  cbn beta iota zeta.
  cbn [classifier extractor entity_manager composer
       set_active_processing_tasks set_entity_manager].
  repeat match goal with
         | |- context [match ?x with _ => _ end] =>
             lazymatch x with
             | context [match _ with _ => _ end] => fail
             | _ => destruct x eqn:?
             end
         end;
    cbn [active_processing_tasks set_active_processing_tasks set_last_metrics
         set_entity_manager set_composer];
    try lia.
  all: split; [reflexivity|].
  all: match goal with
       | Hrun : composeQuestion _ _ _ = (Throws _, _) |- _ =>
           exact (composeQuestion_throws _ _ _ _ _ Hrun)
       end.
Qed.

(** X23: however often [adjustPerformanceBasedOnLoad] runs, and under
    whatever loads, the pool of a controller stays within one worker of
    the count its constructor chose, which is 1 or 2: its size is always
    between 0 and 3. *)
Theorem pool_size_stays_near_initial
    (svm : string → list Classifier.ClassificationResult)
    (ner : string → list string → list Extractor.ExtractionResult)
    (llm : option L) (hardware_concurrency : Z) (loads : list Z) :
  let adjusted :=
    foldl (λ this load,
             adjustPerformanceBasedOnLoad
               (set_active_processing_tasks this load))
          (AdvancedSessionController_new svm ner llm hardware_concurrency)
          loads in
  (1 ≤ composition_threads adjusted ≤ 2)%Z
  ∧ (composition_threads adjusted - 1
     ≤ num_worker_threads (composer adjusted)
     ≤ composition_threads adjusted + 1)%Z.
Proof.
  set (start := AdvancedSessionController_new svm ner llm hardware_concurrency).
  assert ((1 ≤ composition_threads start ≤ 2)%Z
          ∧ (composition_threads start - 1
             ≤ num_worker_threads (composer start)
             ≤ composition_threads start + 1)%Z) as Hstart.
  { subst start. unfold AdvancedSessionController_new, optimizeThreadAllocation.
    destruct (8 <=? hardware_concurrency)%Z;
      [|destruct (4 <=? hardware_concurrency)%Z]; cbn; lia. }
  clearbody start. revert start Hstart.
  induction loads as [|load loads IH]; intros this Hthis; [exact Hthis|].
  cbn [foldl]. apply IH.
  destruct (adjustPerformanceBasedOnLoad_near_initial
              (set_active_processing_tasks this load))
    as (-> & Hsize).
  cbn [set_active_processing_tasks composition_threads composer] in *.
  lia.
Qed.

End LoadMonitor.

(** ** The generator shipped with the controller *)
Section ConcreteGenerator.
Import Composer Concrete.

Lemma concrete_question_not_empty request :
  empty (concrete_generateQuestion request) = false.
Proof.
  unfold concrete_generateQuestion.
  by destruct (missing_entities request) as [|e0 [|e1 [|e2 rest]]].
Qed.

Lemma concrete_quality_passes question :
  (SF2Prim (concrete_quality question) <? f32_0_7)%float = false.
Proof.
  unfold concrete_quality.
  destruct (10 <? String.length question)%nat,
    (contains question "?"), (contains question "please");
    vm_compute; reflexivity.
Qed.

(** X24: with [ConcreteLLMInterface] as its generator and the constructor's
    threshold, [composeQuestion] always returns the generator's first
    answer: the question is never empty and its assessed quality, computed
    in binary32 from 0.7 upwards, is never below 0.7, so there is no retry
    and no template. *)
Theorem concrete_generator_always_passes (this : ComposerCrew unit)
    (request : CompositionRequest) (rd : N) :
  llm_interface this = Some tt →
  quality_threshold this = f32_0_7 →
  composeQuestion request rd this
  = (Returns
       {| generated_question := concrete_generateQuestion (limit request);
          targeted_entities := missing_entities (limit request);
          quality_score :=
            SF2Prim (concrete_quality
                       (concrete_generateQuestion (limit request)));
          is_valid := true;
          generation_method := "llm_primary" |},
     this).
Proof.
  intros Hllm Hthreshold.
  assert (set_llm_interface this (Some tt) = this) as Hsame
    by (destruct this; simpl in *; by subst).
  erewrite composeQuestion_after_try; [|exact Hllm|].
  2: { unfold try_llm, generateWithLLM, try_catch, mbind, M_bind, mret, M_ret.
       cbn [isAvailable generateQuestion assessQuestionQuality
            ConcreteLLMInterface].
       unfold mret, M_ret.
       rewrite concrete_question_not_empty. cbn [negb is_valid quality_score].
       rewrite Hthreshold, concrete_quality_passes. reflexivity. }
  cbn zeta. cbn [is_valid quality_score negb orb].
  rewrite Hthreshold, concrete_quality_passes, Hsame. reflexivity.
Qed.

Lemma concrete_generator_always_passes_witness :
  let this := ComposerCrew_new (Some tt) 1 4 in
  llm_interface this = Some tt
  ∧ quality_threshold this = f32_0_7
  ∧ composeQuestion Doubles.contact_request 7 this
    = (Returns
         {| generated_question :=
              "Could you please provide your caller_name and phone_number?";
            targeted_entities := ["caller_name"; "phone_number"];
            quality_score := 1%float;
            is_valid := true;
            generation_method := "llm_primary" |},
       this).
Proof.
  intros this. split_and!; [reflexivity | reflexivity |].
  rewrite (concrete_generator_always_passes
             this Doubles.contact_request 7 eq_refl eq_refl).
  vm_compute. reflexivity.
Defined.

End ConcreteGenerator.

(** ** Turns that keep what is known, on the stand-in models *)
Section KeptSlots.
Import Composer.

Lemma processInput_keeps_known_slots_witness :
  Advanced.extractor Stubs.desk_with_name
  = Extraction.extractWithFallback Stubs.extraction_crew
  ∧ hasEntity (Advanced.entity_manager Stubs.desk_with_name) "caller_name"
    = true
  ∧ hasEntity
      (Advanced.entity_manager
         (Advanced.processInput "Call me at 555-123-4567" 1 7
            Stubs.desk_with_name).2)
      "caller_name"
    = true.
Proof.
  assert (Advanced.extractor Stubs.desk_with_name
          = Extraction.extractWithFallback Stubs.extraction_crew) as Hextractor
    by reflexivity.
  destruct (processInput_keeps_known_slots
              Stubs.desk_with_name Stubs.extraction_crew
              "Call me at 555-123-4567" 1 7 Hextractor) as [Hkeeps _].
  split_and!; [exact Hextractor | vm_compute; reflexivity |].
  apply Hkeeps. vm_compute. reflexivity.
Defined.

Lemma update_session_keeps_filled_slots_witness :
  empty
    (Session.get_entity
       (Session.get_session
          (Controller.state_manager_ Stubs.front_desk_with_name) "s1")
       "name")
  = false
  ∧ Session.get_entity
      (Session.get_session
         (Controller.state_manager_
            (Controller.update_session "s1" "John Smith, 555-123-4567"
               Stubs.front_desk_with_name).2)
         "s1")
      "name"
    = "John".
Proof.
  split; [vm_compute; reflexivity|].
  destruct (update_session_keeps_filled_slots
              Stubs.front_desk_with_name "s1" "John Smith, 555-123-4567"
              "name" ltac:(vm_compute; reflexivity)) as [-> _].
  vm_compute. reflexivity.
Defined.

End KeptSlots.

(** ** The phone numbers [CloserCrew::isValidPhoneNumber] accepts *)
Section PhoneNumbers.
Import Closer Lang.

Lemma append_nil_inv (s1 s2 : string) :
  s1 +:+ s2 = "" → s1 = "" ∧ s2 = "".
Proof. destruct s1; simpl; [done | discriminate]. Qed.

Lemma append_cons_inv (s1 s2 : string) c s :
  s1 +:+ s2 = String c s →
  (s1 = "" ∧ s2 = String c s) ∨ ∃ s1', s1 = String c s1' ∧ s = s1' +:+ s2.
Proof.
  destruct s1 as [|c1 s1]; simpl; intros Heq; [by left|].
  injection Heq as -> <-. right. by exists s1.
Qed.

Lemma accepts_empty_matches r : accepts_empty r = true ↔ matches r "".
Proof.
  split.
  - induction r as [| |member|r1 IH1 r2 IH2|r1 IH1 r2 IH2|r IH]; simpl;
      intros Hempty; try discriminate.
    + constructor.
    + apply andb_prop in Hempty as [H1 H2].
      apply (matches_then r1 r2 "" ""); auto.
    + apply orb_prop in Hempty as [H1|H2];
        [apply matches_or_left | apply matches_or_right]; auto.
    + constructor.
  - intros Hm. remember "" as s eqn:Hs.
    induction Hm as [|member c Hc|r1 r2 s1 s2 _ IH1 _ IH2|r1 r2 s _ IH
                    |r1 r2 s _ IH|r|r s1 s2 _ _ _ _]; simpl;
      try reflexivity.
    + discriminate.
    + apply append_nil_inv in Hs as [-> ->].
      by rewrite IH1, IH2.
    + by rewrite IH.
    + rewrite IH; [apply orb_true_r | done].
Qed.

Lemma after_matches c r s : matches (after c r) s ↔ matches r (String c s).
Proof.
  split.
  - revert s.
    induction r as [| |member|r1 IH1 r2 IH2|r1 IH1 r2 IH2|r IH]; simpl;
      intros s Hm.
    + inversion Hm.
    + inversion Hm.
    + destruct (member c) eqn:Hc; inversion Hm; subst. by constructor.
    + assert (∀ s, matches (Then (after c r1) r2) s →
                   matches (Then r1 r2) (String c s)) as Hleft.
      { intros s' Hm'. inversion Hm' as [| |? ? s1 s2 H1 H2| | | |]; subst.
        apply (matches_then r1 r2 (String c s1) s2); auto. }
      destruct (accepts_empty r1) eqn:Hempty; [|by apply Hleft].
      inversion Hm as [| | |? ? ? H1|? ? ? H2| |]; subst; [by apply Hleft|].
      apply (matches_then r1 r2 "" (String c s));
        [by apply accepts_empty_matches | auto].
    + inversion Hm; subst;
        [apply matches_or_left | apply matches_or_right]; auto.
    + inversion Hm as [| |? ? s1 s2 H1 H2| | | |]; subst.
      apply (matches_many_more r (String c s1) s2); auto.
  - intros Hm. remember (String c s) as cs eqn:Hcs. revert c s Hcs.
    induction Hm as [|member c' Hc|r1 r2 s1 s2 Hm1 IH1 Hm2 IH2|r1 r2 s' _ IH
                    |r1 r2 s' _ IH|r|r s1 s2 Hm1 IH1 Hm2 IH2];
      intros c s Hcs; simpl.
    + discriminate.
    + injection Hcs as -> <-. rewrite Hc. constructor.
    + apply append_cons_inv in Hcs as [[-> ->]|(s1' & -> & ->)].
      * rewrite (proj2 (accepts_empty_matches r1) Hm1).
        apply matches_or_right. by apply IH2.
      * assert (matches (Then (after c r1) r2) (s1' +:+ s2)) as Hleft
          by (constructor; [by apply IH1 | exact Hm2]).
        destruct (accepts_empty r1); [by apply matches_or_left | exact Hleft].
    + apply matches_or_left. by apply IH.
    + apply matches_or_right. by apply IH.
    + discriminate.
    + apply append_cons_inv in Hcs as [[-> ->]|(s1' & -> & ->)].
      * by apply IH2.
      * constructor; [by apply IH1 | exact Hm2].
Qed.

(** The matcher decides the language of the pattern. *)
Lemma regex_match_matches s r : regex_match s r = true ↔ matches r s.
Proof.
  revert r. induction s as [|c s IH]; intros r; simpl.
  - apply accepts_empty_matches.
  - rewrite IH. apply after_matches.
Qed.

Lemma matches_class_inv member s :
  matches (Class member) s ↔ ∃ c, s = String c "" ∧ member c = true.
Proof.
  split.
  - intros Hm. inversion Hm; subst. by eexists.
  - intros (c & -> & Hc). by constructor.
Qed.

Lemma matches_then_inv r1 r2 s :
  matches (Then r1 r2) s
  ↔ ∃ s1 s2, s = s1 +:+ s2 ∧ matches r1 s1 ∧ matches r2 s2.
Proof.
  split.
  - intros Hm. inversion Hm; subst. by eexists _, _.
  - intros (s1 & s2 & -> & H1 & H2). by constructor.
Qed.

Lemma matches_or_inv r1 r2 s :
  matches (Or r1 r2) s ↔ matches r1 s ∨ matches r2 s.
Proof.
  split.
  - intros Hm. inversion Hm; subst; auto.
  - intros [H1|H2]; [by apply matches_or_left | by apply matches_or_right].
Qed.

Lemma matches_lit c s : matches (lit (String c "")) s ↔ s = String c "".
Proof.
  unfold lit. rewrite matches_class_inv. split.
  - intros (c' & -> & Hc). apply Ascii.eqb_eq in Hc. by subst.
  - intros ->. exists c. split; [reflexivity | apply Ascii.eqb_refl].
Qed.

Lemma matches_times_digit n s : matches (times n digit) s ↔ digits n s.
Proof.
  unfold digits. revert s. induction n as [|n IH]; intros s; simpl.
  - split.
    + intros Hm. inversion Hm. done.
    + intros [Hlen _]. destruct s; [constructor | discriminate].
  - rewrite matches_then_inv. split.
    + intros (s1 & s2 & -> & H1 & H2).
      apply matches_class_inv in H1 as (c & -> & Hc).
      apply IH in H2 as [Hlen Hall].
      change (String c "" +:+ s2) with (String c s2).
      cbn [String.length all_in].
      split; [by rewrite Hlen|].
      unfold is_digit at 1. by rewrite Hc, Hall.
    + intros [Hlen Hall]. destruct s as [|c s]; [discriminate|].
      simpl in Hlen, Hall. apply andb_prop in Hall as [Hc Hall].
      exists (String c ""), s. split_and!; [reflexivity | |].
      * apply matches_class_inv. by exists c.
      * apply IH. split; [congruence | exact Hall].
Qed.

Lemma matches_many_space w :
  matches (Many space) w ↔ all_in is_space w = true.
Proof.
  split.
  - intros Hm. remember (Many space) as r eqn:Hr.
    induction Hm as [| | | | |r'|r' s1 s2 Hm1 _ _ IH2]; try discriminate.
    + reflexivity.
    + injection Hr as ->.
      apply matches_class_inv in Hm1 as (c & -> & Hc). simpl.
      unfold is_space at 1. rewrite Hc. by apply IH2.
  - induction w as [|c w IH]; simpl; intros Hall; [constructor|].
    apply andb_prop in Hall as [Hc Hall].
    apply (matches_many_more space (String c "") w); [|by apply IH].
    apply matches_class_inv. by exists c.
Qed.

(** X25: [isValidPhoneNumber] accepts exactly three shapes, and the whole
    string must have the shape: [ddd-ddd-dddd]; [(ddd)], any run of white
    space (none included), [ddd-dddd]; or ten digits.  Digits are ['0'] to
    ['9'], white space is the space and the characters 9 to 13. *)
Theorem isValidPhoneNumber_shapes (phone : string) :
  isValidPhoneNumber phone = true
  ↔ (∃ area prefix line,
       digits 3 area ∧ digits 3 prefix ∧ digits 4 line
       ∧ phone = area +:+ "-" +:+ prefix +:+ "-" +:+ line)
    ∨ (∃ area gap prefix line,
         digits 3 area ∧ all_in is_space gap = true
         ∧ digits 3 prefix ∧ digits 4 line
         ∧ phone = "(" +:+ area +:+ ")" +:+ gap +:+ prefix +:+ "-" +:+ line)
    ∨ digits 10 phone.
Proof.
  unfold isValidPhoneNumber, phone_regex.
  rewrite regex_match_matches, !matches_or_inv.
  split.
  - intros [Hm|[Hm|Hm]].
    + left.
      repeat match goal with
             | H : matches (Then _ _) _ |- _ =>
                 apply matches_then_inv in H as (? & ? & -> & ? & ?)
             | H : matches (lit _) _ |- _ => apply matches_lit in H as ->
             | H : matches (times _ digit) _ |- _ =>
                 apply matches_times_digit in H
             end.
      refine (ex_intro _ _ (ex_intro _ _ (ex_intro _ _
                (conj _ (conj _ (conj _ eq_refl)))))); assumption.
    + right. left.
      repeat match goal with
             | H : matches (Then _ _) _ |- _ =>
                 apply matches_then_inv in H as (? & ? & -> & ? & ?)
             | H : matches (lit _) _ |- _ => apply matches_lit in H as ->
             | H : matches (times _ digit) _ |- _ =>
                 apply matches_times_digit in H
             | H : matches (Many space) _ |- _ =>
                 apply matches_many_space in H
             end.
      refine (ex_intro _ _ (ex_intro _ _ (ex_intro _ _ (ex_intro _ _
                (conj _ (conj _ (conj _ (conj _ eq_refl)))))))); assumption.
    + right. right. by apply matches_times_digit.
  - intros [(area & prefix & line & Harea & Hprefix & Hline & ->)
           |[(area & gap & prefix & line & Harea & Hgap & Hprefix & Hline & ->)
            |Hten]].
    + left.
      repeat first
        [ apply matches_then
        | by apply matches_times_digit
        | by apply matches_lit ].
    + right. left.
      repeat first
        [ apply matches_then
        | by apply matches_times_digit
        | by apply matches_many_space
        | by apply matches_lit ].
    + right. right. by apply matches_times_digit.
Qed.

End PhoneNumbers.
